(** * Innervation index application: a shallow embedding of
    [innervation_app.py] and the properties of its measurement pipeline.

    Conventions of the embedding.
    - Python [int] values are [Z]; [//] on a positive divisor is [Z.div].
    - Python [float] values are exact rationals [Q]: the model computes what
      the float code computes up to the rounding of float arithmetic.
      [int(x)] on a float truncates toward zero ([py_int]), [round(x)] rounds
      half to even ([py_round]).
    - A numpy array is the row-major [list] of its elements; a boolean mask
      is a [list bool] of the same length.
    - Operations of the imaging library that the program only calls
      (Gaussian blur, enhancers, resize, polygon fill, opening a file) are
      section variables; the box arithmetic of [Image.crop], which decides
      the size of every crop, is written out.
    - The state of the application is one record; a callback maps the state
      before to the state after. *)

From Stdlib Require Import ZArith QArith Qround Lia Lqa List Bool String Ascii.
From Stdlib Require Import Sorting.Sorted Sorting.Permutation.
Import ListNotations.

Open Scope Z_scope.

(** ** Numeric helpers *)

(** [int(x)] for a float [x]: truncation toward zero. *)
Definition py_int (x : Q) : Z :=
  if Qle_bool 0 x then Qfloor x else Qceiling x.

(** [round(x)] for a float [x]: nearest integer, ties to the even one. *)
Definition py_round (x : Q) : Z :=
  let f := Qfloor x in
  match Qcompare (x - inject_Z f) (1 # 2) with
  | Lt => f
  | Gt => f + 1
  | Eq => if Z.even f then f else f + 1
  end.

Definition Qltb (a b : Q) : bool := negb (Qle_bool b a).

Definition Qmax (a b : Q) : Q := if Qle_bool a b then b else a.
Definition Qmin (a b : Q) : Q := if Qle_bool a b then a else b.

(** [np.cumsum].  [Qred] keeps every fraction in lowest terms; it does not
    change its value ([Qred_correct]). *)
Fixpoint cumsum_from (acc : Q) (l : list Q) : list Q :=
  match l with
  | [] => []
  | x :: t => let acc' := Qred (acc + x) in acc' :: cumsum_from acc' t
  end.

Definition cumsum (l : list Q) : list Q := cumsum_from 0%Q l.

(** [np.argmax]: index of the first occurrence of the maximum. *)
Fixpoint argmax_from (i best_i : Z) (best : Q) (l : list Q) : Z :=
  match l with
  | [] => best_i
  | x :: t =>
      if Qltb best x then argmax_from (i + 1) i x t
      else argmax_from (i + 1) best_i best t
  end.

Definition argmax (l : list Q) : Z :=
  match l with
  | [] => 0
  | x :: t => argmax_from 1 0 x t
  end.

(** [np.arange(256)]. *)
Definition arange256 : list Z := map Z.of_nat (seq 0 256).

Definition count_if {A} (p : A -> bool) (l : list A) : Z :=
  Z.of_nat (List.length (filter p l)).

(** ** Helper math functions *)

(** [np.histogram(pixels, bins=256, range=(0, 256))] on integer samples:
    bin [i] is [i, i+1), the last bin is closed on the right, samples outside
    the range are dropped. *)
Definition in_bin (i v : Z) : bool :=
  (v =? i) || ((i =? 255) && (v =? 256)).

Definition histogram256 (pixels : list Z) : list Z :=
  map (fun i => count_if (in_bin i) pixels) arange256.

Definition between_class_variance (w m global_mean : Q) : Q :=
  if Qltb 0 w && Qltb w 1 then
    let mean_fg := Qred ((global_mean - m) / (1 - w)) in
    let mean_bg_safe := Qred (m / w) in
    Qred (w * (1 - w) * ((mean_bg_safe - mean_fg) * (mean_bg_safe - mean_fg)))
  else 0%Q.

Definition calculate_otsu_threshold (image_array : list Z) : Z :=
  let pixels := image_array in
  let size := Z.of_nat (List.length pixels) in
  if size =? 0 then 0
  else
    let hist := histogram256 pixels in
    let hist_norm := map (fun h => Qred (inject_Z h / inject_Z size)) hist in
    let weight_bg := cumsum hist_norm in
    let mean_bg :=
      cumsum (map (fun '(h, i) => Qred (h * inject_Z i))
                  (combine hist_norm arange256)) in
    let global_mean := last mean_bg 0%Q in
    let between_var :=
      map (fun '(w, m) => between_class_variance w m global_mean)
          (combine weight_bg mean_bg) in
    argmax between_var.

(** [between_var] of [calculate_otsu_threshold], the array whose argmax is
    returned, for a sample that is not empty. *)
Definition otsu_between_var (image_array : list Z) : list Q :=
  let pixels := image_array in
  let size := Z.of_nat (List.length pixels) in
  let hist := histogram256 pixels in
  let hist_norm := map (fun h => Qred (inject_Z h / inject_Z size)) hist in
  let weight_bg := cumsum hist_norm in
  let mean_bg :=
    cumsum (map (fun '(h, i) => Qred (h * inject_Z i))
                (combine hist_norm arange256)) in
  let global_mean := last mean_bg 0%Q in
  map (fun '(w, m) => between_class_variance w m global_mean)
      (combine weight_bg mean_bg).

Definition bimodal_sample : list Z := repeat 10 1000 ++ repeat 200 1000.

(** ** Images

    A single-channel raster: its size and the value at each position.  Pixel
    values of an 8-bit image lie in [0, 255]. *)
Record image : Type := mk_image {
  width : Z;
  height : Z;
  getpixel : Z -> Z -> Z
}.

Definition image_size (img : image) : Z * Z := (width img, height img).

Definition zrange (n : Z) : list Z := map Z.of_nat (seq 0 (Z.to_nat n)).

(** [np.array(img)], flattened row by row. *)
Definition image_array (img : image) : list Z :=
  flat_map (fun y => map (fun x => getpixel img x y) (zrange (width img)))
           (zrange (height img)).

(** [Image.crop(box)]: a box whose right (lower) edge is left of (above) its
    left (upper) edge is refused ([None]); otherwise each coordinate is rounded
    with [round] and positions outside the source read as 0. *)
Definition crop (img : image) (box : Q * Q * Q * Q) : option image :=
  let '(left_, upper, right_, lower) := box in
  if Qltb right_ left_ || Qltb lower upper then None
  else
    let x0 := py_round left_ in
    let y0 := py_round upper in
    let x1 := py_round right_ in
    let y1 := py_round lower in
    Some {| width := x1 - x0;
            height := y1 - y0;
            getpixel := fun x y =>
              let sx := x + x0 in
              let sy := y + y0 in
              if (0 <=? sx) && (sx <? width img) && (0 <=? sy) && (sy <? height img)
              then getpixel img sx sy else 0 |}.

(** ** ImageNormalizer: percentile calibration in [load_image_from_disk] *)

Fixpoint insert_sorted (v : Z) (l : list Z) : list Z :=
  match l with
  | [] => [v]
  | x :: t => if v <=? x then v :: l else x :: insert_sorted v t
  end.

Definition sort (l : list Z) : list Z := fold_right insert_sorted [] l.

(** [np.percentile(arr, q)] with the default linear interpolation between the
    two closest ranks. *)
Definition percentile (arr : list Z) (q : Q) : Q :=
  let s := sort arr in
  let n := Z.of_nat (List.length s) in
  let virtual_index := (q / 100 * inject_Z (n - 1))%Q in
  let lo := Qfloor virtual_index in
  let hi := Z.min (lo + 1) (n - 1) in
  let g := (virtual_index - inject_Z lo)%Q in
  let a := nth (Z.to_nat lo) s 0 in
  let b := nth (Z.to_nat hi) s 0 in
  (inject_Z a + g * inject_Z (b - a))%Q.

Definition range_val (p2 p98 : Q) : Q :=
  if Qeq_bool (p98 - p2) 0 then 1%Q else (p98 - p2)%Q.

(** [np.clip(x, 0, 255)]. *)
Definition clip255 (x : Q) : Q := Qmax 0 (Qmin x 255).

(** [.astype(np.uint8)] on a value already in [0, 255]: the fraction is
    dropped. *)
Definition astype_uint8 (x : Q) : Z := py_int x.

Definition calibrate_value (p2 rv : Q) (v : Z) : Z :=
  astype_uint8 (clip255 ((inject_Z v - p2) / rv * 255)).

(** [arr_norm] of [load_image_from_disk], on the flattened array. *)
Definition normalize_array (arr : list Z) : list Z :=
  let p2 := percentile arr 2 in
  let p98 := percentile arr 98 in
  map (calibrate_value p2 (range_val p2 p98)) arr.

Definition normalize_image (raw : image) : image :=
  let arr := image_array raw in
  let p2 := percentile arr 2 in
  let p98 := percentile arr 98 in
  {| width := width raw;
     height := height raw;
     getpixel := fun x y =>
       calibrate_value p2 (range_val p2 p98) (getpixel raw x y) |}.

(** The calibration as the specification words it: linear map, clip, round
    to the nearest integer, cast. *)
Definition calibrate_value_spec (p2 rv : Q) (v : Z) : Z :=
  astype_uint8 (inject_Z (py_round (clip255 ((inject_Z v - p2) / rv * 255)))).

Definition normalize_array_spec (arr : list Z) : list Z :=
  let p2 := percentile arr 2 in
  let p98 := percentile arr 98 in
  map (calibrate_value_spec p2 (range_val p2 p98)) arr.

(** ** ThresholdEngine and IndexCalculator *)

(** The value [float(text)] returns. *)
Inductive pyfloat : Type :=
| Finite (q : Q)
| PosInf
| NegInf
| NaN.

(** [pixel > thresh] for an integer pixel and a float threshold. *)
Definition pixel_gt (p : Z) (thresh : pyfloat) : bool :=
  match thresh with
  | Finite q => Qltb q (inject_Z p)
  | PosInf => false
  | NegInf => true
  | NaN => false
  end.

Inductive AlgoMode : Type := CutOff | Otsu.

(** [img_data[mask]]: the elements whose mask entry is set. *)
Definition select_mask (img_data : list Z) (mask : list bool) : list Z :=
  map fst (filter snd (combine img_data mask)).

(** The threshold of [calculate_only]; [ent_cutoff] is the outcome of
    [float(self.ent_cutoff.get())], [None] when it raises. *)
Definition measure_threshold (algo : AlgoMode) (ent_cutoff : option pyfloat)
    (valid_pixels : list Z) : pyfloat :=
  match algo with
  | Otsu => Finite (inject_Z (calculate_otsu_threshold valid_pixels))
  | CutOff =>
      match ent_cutoff with
      | Some t => t
      | None => Finite 128
      end
  end.

(** The threshold of the red overlay in [render_view]. *)
Definition preview_threshold (algo : AlgoMode) (ent_cutoff : option pyfloat)
    (arr : list Z) : pyfloat :=
  match algo with
  | Otsu => Finite (inject_Z (calculate_otsu_threshold arr))
  | CutOff =>
      match ent_cutoff with
      | Some t => t
      | None => Finite 255
      end
  end.

Definition valid_pixels_of (roi_pixels : list Z) : list Z :=
  filter (fun p => 0 <? p) roi_pixels.

(** Lines 445-456 of [calculate_only]: from the processed ROI crop and the
    polygon mask to the index. *)
Definition innervation_index (algo : AlgoMode) (ent_cutoff : option pyfloat)
    (img_data : list Z) (mask : list bool) : Q :=
  let roi_pixels := select_mask img_data mask in
  let valid_pixels := valid_pixels_of roi_pixels in
  let size := Z.of_nat (List.length valid_pixels) in
  if size =? 0 then 0%Q
  else
    let thresh := measure_threshold algo ent_cutoff valid_pixels in
    let count_above := count_if (fun p => pixel_gt p thresh) valid_pixels in
    (100 * (inject_Z count_above / inject_Z size))%Q.

(** [float] on a string of decimal digits: its value.  Used for the initial
    text of the cut-off entry only. *)
Definition digit_of_ascii (c : ascii) : option Z :=
  let n := Z.of_nat (nat_of_ascii c) in
  if (48 <=? n) && (n <=? 57) then Some (n - 48) else None.

Fixpoint float_of_digits (acc : Z) (s : string) : option pyfloat :=
  match s with
  | EmptyString => Some (Finite (inject_Z acc))
  | String c rest =>
      match digit_of_ascii c with
      | Some d => float_of_digits (10 * acc + d) rest
      | None => None
      end
  end.

Definition float_of_decimal (s : string) : option pyfloat :=
  match s with
  | EmptyString => None
  | _ => float_of_digits 0 s
  end.

(** [self.ent_cutoff.insert(0, "2500")] in [_setup_ui]. *)
Definition initial_cutoff_text : string := "2500".
Definition initial_ent_cutoff : option pyfloat :=
  float_of_decimal initial_cutoff_text.

(** ** The application state

    The fields of [InnervationApp] that the measurement workflow reads or
    writes, the widgets reduced to the values they hold. *)

Inductive Mode : Type := VIEW | DRAW | ZOOM_SELECT.

Inductive CropMode : Type := Polygon | Freehand.

Inductive canvas_item : Type :=
| Oval (x y : Z)
| Line (x0 y0 x1 y1 : Z)
| PolygonItem (points : list (Z * Z)).

Inductive message : Type :=
| ShowInfo (title text : string)
| ShowWarning (title text : string).

Record display_image : Type := mk_display {
  processed : image;
  red_mask : option (list bool)
}.

Definition Mode_eqb (a b : Mode) : bool :=
  match a, b with
  | VIEW, VIEW | DRAW, DRAW | ZOOM_SELECT, ZOOM_SELECT => true
  | _, _ => false
  end.

Definition CropMode_eqb (a b : CropMode) : bool :=
  match a, b with
  | Polygon, Polygon | Freehand, Freehand => true
  | _, _ => false
  end.

Record app : Type := mk_app {
  files : list string;
  current_index : Z;
  original_raw_image : option image;
  adj_contrast : Q;
  adj_brightness : Q;
  adj_noise : Q;
  show_red_overlay : bool;
  view_crop_raw : option image;
  view_offset : Q * Q;
  display_scale : Q;
  canvas_offset_x : Z;
  canvas_offset_y : Z;
  zoom_start : option (Z * Z);
  mode : Mode;
  drawing_points : list (Z * Z);
  current_calculated_value : option Q;
  crop_mode : CropMode;
  algo_mode : AlgoMode;
  ent_cutoff : option pyfloat;  (* outcome of [float(self.ent_cutoff.get())], [None] when it raises *)
  final_display_image : option display_image;  (* processed view and, with the overlay on, its red mask *)
  canvas_size : Z * Z;  (* [winfo_width()], [winfo_height()] of the canvas *)
  overlay : list canvas_item;  (* canvas items tagged [overlay], oldest first *)
  btn_calc : bool;  (* the Calculate button is enabled *)
  btn_save : bool;  (* the Save button is enabled *)
  results_rows : list (string * Q);  (* data rows of [innervation_results.txt], oldest first *)
  messages : list message  (* message boxes shown so far, oldest first *)
}.

(** Field updates ([self.f = v]). *)
Definition set_files (v : list string) (a : app) : app :=
  {| files := v; current_index := current_index a;
     original_raw_image := original_raw_image a;
     adj_contrast := adj_contrast a; adj_brightness := adj_brightness a;
     adj_noise := adj_noise a; show_red_overlay := show_red_overlay a;
     view_crop_raw := view_crop_raw a; view_offset := view_offset a;
     display_scale := display_scale a; canvas_offset_x := canvas_offset_x a;
     canvas_offset_y := canvas_offset_y a; zoom_start := zoom_start a;
     mode := mode a; drawing_points := drawing_points a;
     current_calculated_value := current_calculated_value a;
     crop_mode := crop_mode a; algo_mode := algo_mode a;
     ent_cutoff := ent_cutoff a;
     final_display_image := final_display_image a;
     canvas_size := canvas_size a; overlay := overlay a;
     btn_calc := btn_calc a; btn_save := btn_save a;
     results_rows := results_rows a; messages := messages a |}.

Definition set_current_index (v : Z) (a : app) : app :=
  {| files := files a; current_index := v;
     original_raw_image := original_raw_image a;
     adj_contrast := adj_contrast a; adj_brightness := adj_brightness a;
     adj_noise := adj_noise a; show_red_overlay := show_red_overlay a;
     view_crop_raw := view_crop_raw a; view_offset := view_offset a;
     display_scale := display_scale a; canvas_offset_x := canvas_offset_x a;
     canvas_offset_y := canvas_offset_y a; zoom_start := zoom_start a;
     mode := mode a; drawing_points := drawing_points a;
     current_calculated_value := current_calculated_value a;
     crop_mode := crop_mode a; algo_mode := algo_mode a;
     ent_cutoff := ent_cutoff a;
     final_display_image := final_display_image a;
     canvas_size := canvas_size a; overlay := overlay a;
     btn_calc := btn_calc a; btn_save := btn_save a;
     results_rows := results_rows a; messages := messages a |}.

Definition set_original_raw_image (v : option image) (a : app) : app :=
  {| files := files a; current_index := current_index a;
     original_raw_image := v; adj_contrast := adj_contrast a;
     adj_brightness := adj_brightness a; adj_noise := adj_noise a;
     show_red_overlay := show_red_overlay a;
     view_crop_raw := view_crop_raw a; view_offset := view_offset a;
     display_scale := display_scale a; canvas_offset_x := canvas_offset_x a;
     canvas_offset_y := canvas_offset_y a; zoom_start := zoom_start a;
     mode := mode a; drawing_points := drawing_points a;
     current_calculated_value := current_calculated_value a;
     crop_mode := crop_mode a; algo_mode := algo_mode a;
     ent_cutoff := ent_cutoff a;
     final_display_image := final_display_image a;
     canvas_size := canvas_size a; overlay := overlay a;
     btn_calc := btn_calc a; btn_save := btn_save a;
     results_rows := results_rows a; messages := messages a |}.

Definition set_adj_contrast (v : Q) (a : app) : app :=
  {| files := files a; current_index := current_index a;
     original_raw_image := original_raw_image a; adj_contrast := v;
     adj_brightness := adj_brightness a; adj_noise := adj_noise a;
     show_red_overlay := show_red_overlay a;
     view_crop_raw := view_crop_raw a; view_offset := view_offset a;
     display_scale := display_scale a; canvas_offset_x := canvas_offset_x a;
     canvas_offset_y := canvas_offset_y a; zoom_start := zoom_start a;
     mode := mode a; drawing_points := drawing_points a;
     current_calculated_value := current_calculated_value a;
     crop_mode := crop_mode a; algo_mode := algo_mode a;
     ent_cutoff := ent_cutoff a;
     final_display_image := final_display_image a;
     canvas_size := canvas_size a; overlay := overlay a;
     btn_calc := btn_calc a; btn_save := btn_save a;
     results_rows := results_rows a; messages := messages a |}.

Definition set_adj_brightness (v : Q) (a : app) : app :=
  {| files := files a; current_index := current_index a;
     original_raw_image := original_raw_image a;
     adj_contrast := adj_contrast a; adj_brightness := v;
     adj_noise := adj_noise a; show_red_overlay := show_red_overlay a;
     view_crop_raw := view_crop_raw a; view_offset := view_offset a;
     display_scale := display_scale a; canvas_offset_x := canvas_offset_x a;
     canvas_offset_y := canvas_offset_y a; zoom_start := zoom_start a;
     mode := mode a; drawing_points := drawing_points a;
     current_calculated_value := current_calculated_value a;
     crop_mode := crop_mode a; algo_mode := algo_mode a;
     ent_cutoff := ent_cutoff a;
     final_display_image := final_display_image a;
     canvas_size := canvas_size a; overlay := overlay a;
     btn_calc := btn_calc a; btn_save := btn_save a;
     results_rows := results_rows a; messages := messages a |}.

Definition set_adj_noise (v : Q) (a : app) : app :=
  {| files := files a; current_index := current_index a;
     original_raw_image := original_raw_image a;
     adj_contrast := adj_contrast a; adj_brightness := adj_brightness a;
     adj_noise := v; show_red_overlay := show_red_overlay a;
     view_crop_raw := view_crop_raw a; view_offset := view_offset a;
     display_scale := display_scale a; canvas_offset_x := canvas_offset_x a;
     canvas_offset_y := canvas_offset_y a; zoom_start := zoom_start a;
     mode := mode a; drawing_points := drawing_points a;
     current_calculated_value := current_calculated_value a;
     crop_mode := crop_mode a; algo_mode := algo_mode a;
     ent_cutoff := ent_cutoff a;
     final_display_image := final_display_image a;
     canvas_size := canvas_size a; overlay := overlay a;
     btn_calc := btn_calc a; btn_save := btn_save a;
     results_rows := results_rows a; messages := messages a |}.

Definition set_show_red_overlay (v : bool) (a : app) : app :=
  {| files := files a; current_index := current_index a;
     original_raw_image := original_raw_image a;
     adj_contrast := adj_contrast a; adj_brightness := adj_brightness a;
     adj_noise := adj_noise a; show_red_overlay := v;
     view_crop_raw := view_crop_raw a; view_offset := view_offset a;
     display_scale := display_scale a; canvas_offset_x := canvas_offset_x a;
     canvas_offset_y := canvas_offset_y a; zoom_start := zoom_start a;
     mode := mode a; drawing_points := drawing_points a;
     current_calculated_value := current_calculated_value a;
     crop_mode := crop_mode a; algo_mode := algo_mode a;
     ent_cutoff := ent_cutoff a;
     final_display_image := final_display_image a;
     canvas_size := canvas_size a; overlay := overlay a;
     btn_calc := btn_calc a; btn_save := btn_save a;
     results_rows := results_rows a; messages := messages a |}.

Definition set_view_crop_raw (v : option image) (a : app) : app :=
  {| files := files a; current_index := current_index a;
     original_raw_image := original_raw_image a;
     adj_contrast := adj_contrast a; adj_brightness := adj_brightness a;
     adj_noise := adj_noise a; show_red_overlay := show_red_overlay a;
     view_crop_raw := v; view_offset := view_offset a;
     display_scale := display_scale a; canvas_offset_x := canvas_offset_x a;
     canvas_offset_y := canvas_offset_y a; zoom_start := zoom_start a;
     mode := mode a; drawing_points := drawing_points a;
     current_calculated_value := current_calculated_value a;
     crop_mode := crop_mode a; algo_mode := algo_mode a;
     ent_cutoff := ent_cutoff a;
     final_display_image := final_display_image a;
     canvas_size := canvas_size a; overlay := overlay a;
     btn_calc := btn_calc a; btn_save := btn_save a;
     results_rows := results_rows a; messages := messages a |}.

Definition set_view_offset (v : Q * Q) (a : app) : app :=
  {| files := files a; current_index := current_index a;
     original_raw_image := original_raw_image a;
     adj_contrast := adj_contrast a; adj_brightness := adj_brightness a;
     adj_noise := adj_noise a; show_red_overlay := show_red_overlay a;
     view_crop_raw := view_crop_raw a; view_offset := v;
     display_scale := display_scale a; canvas_offset_x := canvas_offset_x a;
     canvas_offset_y := canvas_offset_y a; zoom_start := zoom_start a;
     mode := mode a; drawing_points := drawing_points a;
     current_calculated_value := current_calculated_value a;
     crop_mode := crop_mode a; algo_mode := algo_mode a;
     ent_cutoff := ent_cutoff a;
     final_display_image := final_display_image a;
     canvas_size := canvas_size a; overlay := overlay a;
     btn_calc := btn_calc a; btn_save := btn_save a;
     results_rows := results_rows a; messages := messages a |}.

Definition set_display_scale (v : Q) (a : app) : app :=
  {| files := files a; current_index := current_index a;
     original_raw_image := original_raw_image a;
     adj_contrast := adj_contrast a; adj_brightness := adj_brightness a;
     adj_noise := adj_noise a; show_red_overlay := show_red_overlay a;
     view_crop_raw := view_crop_raw a; view_offset := view_offset a;
     display_scale := v; canvas_offset_x := canvas_offset_x a;
     canvas_offset_y := canvas_offset_y a; zoom_start := zoom_start a;
     mode := mode a; drawing_points := drawing_points a;
     current_calculated_value := current_calculated_value a;
     crop_mode := crop_mode a; algo_mode := algo_mode a;
     ent_cutoff := ent_cutoff a;
     final_display_image := final_display_image a;
     canvas_size := canvas_size a; overlay := overlay a;
     btn_calc := btn_calc a; btn_save := btn_save a;
     results_rows := results_rows a; messages := messages a |}.

Definition set_canvas_offset_x (v : Z) (a : app) : app :=
  {| files := files a; current_index := current_index a;
     original_raw_image := original_raw_image a;
     adj_contrast := adj_contrast a; adj_brightness := adj_brightness a;
     adj_noise := adj_noise a; show_red_overlay := show_red_overlay a;
     view_crop_raw := view_crop_raw a; view_offset := view_offset a;
     display_scale := display_scale a; canvas_offset_x := v;
     canvas_offset_y := canvas_offset_y a; zoom_start := zoom_start a;
     mode := mode a; drawing_points := drawing_points a;
     current_calculated_value := current_calculated_value a;
     crop_mode := crop_mode a; algo_mode := algo_mode a;
     ent_cutoff := ent_cutoff a;
     final_display_image := final_display_image a;
     canvas_size := canvas_size a; overlay := overlay a;
     btn_calc := btn_calc a; btn_save := btn_save a;
     results_rows := results_rows a; messages := messages a |}.

Definition set_canvas_offset_y (v : Z) (a : app) : app :=
  {| files := files a; current_index := current_index a;
     original_raw_image := original_raw_image a;
     adj_contrast := adj_contrast a; adj_brightness := adj_brightness a;
     adj_noise := adj_noise a; show_red_overlay := show_red_overlay a;
     view_crop_raw := view_crop_raw a; view_offset := view_offset a;
     display_scale := display_scale a; canvas_offset_x := canvas_offset_x a;
     canvas_offset_y := v; zoom_start := zoom_start a; mode := mode a;
     drawing_points := drawing_points a;
     current_calculated_value := current_calculated_value a;
     crop_mode := crop_mode a; algo_mode := algo_mode a;
     ent_cutoff := ent_cutoff a;
     final_display_image := final_display_image a;
     canvas_size := canvas_size a; overlay := overlay a;
     btn_calc := btn_calc a; btn_save := btn_save a;
     results_rows := results_rows a; messages := messages a |}.

Definition set_zoom_start (v : option (Z * Z)) (a : app) : app :=
  {| files := files a; current_index := current_index a;
     original_raw_image := original_raw_image a;
     adj_contrast := adj_contrast a; adj_brightness := adj_brightness a;
     adj_noise := adj_noise a; show_red_overlay := show_red_overlay a;
     view_crop_raw := view_crop_raw a; view_offset := view_offset a;
     display_scale := display_scale a; canvas_offset_x := canvas_offset_x a;
     canvas_offset_y := canvas_offset_y a; zoom_start := v; mode := mode a;
     drawing_points := drawing_points a;
     current_calculated_value := current_calculated_value a;
     crop_mode := crop_mode a; algo_mode := algo_mode a;
     ent_cutoff := ent_cutoff a;
     final_display_image := final_display_image a;
     canvas_size := canvas_size a; overlay := overlay a;
     btn_calc := btn_calc a; btn_save := btn_save a;
     results_rows := results_rows a; messages := messages a |}.

Definition set_mode (v : Mode) (a : app) : app :=
  {| files := files a; current_index := current_index a;
     original_raw_image := original_raw_image a;
     adj_contrast := adj_contrast a; adj_brightness := adj_brightness a;
     adj_noise := adj_noise a; show_red_overlay := show_red_overlay a;
     view_crop_raw := view_crop_raw a; view_offset := view_offset a;
     display_scale := display_scale a; canvas_offset_x := canvas_offset_x a;
     canvas_offset_y := canvas_offset_y a; zoom_start := zoom_start a;
     mode := v; drawing_points := drawing_points a;
     current_calculated_value := current_calculated_value a;
     crop_mode := crop_mode a; algo_mode := algo_mode a;
     ent_cutoff := ent_cutoff a;
     final_display_image := final_display_image a;
     canvas_size := canvas_size a; overlay := overlay a;
     btn_calc := btn_calc a; btn_save := btn_save a;
     results_rows := results_rows a; messages := messages a |}.

Definition set_drawing_points (v : list (Z * Z)) (a : app) : app :=
  {| files := files a; current_index := current_index a;
     original_raw_image := original_raw_image a;
     adj_contrast := adj_contrast a; adj_brightness := adj_brightness a;
     adj_noise := adj_noise a; show_red_overlay := show_red_overlay a;
     view_crop_raw := view_crop_raw a; view_offset := view_offset a;
     display_scale := display_scale a; canvas_offset_x := canvas_offset_x a;
     canvas_offset_y := canvas_offset_y a; zoom_start := zoom_start a;
     mode := mode a; drawing_points := v;
     current_calculated_value := current_calculated_value a;
     crop_mode := crop_mode a; algo_mode := algo_mode a;
     ent_cutoff := ent_cutoff a;
     final_display_image := final_display_image a;
     canvas_size := canvas_size a; overlay := overlay a;
     btn_calc := btn_calc a; btn_save := btn_save a;
     results_rows := results_rows a; messages := messages a |}.

Definition set_current_calculated_value (v : option Q) (a : app) : app :=
  {| files := files a; current_index := current_index a;
     original_raw_image := original_raw_image a;
     adj_contrast := adj_contrast a; adj_brightness := adj_brightness a;
     adj_noise := adj_noise a; show_red_overlay := show_red_overlay a;
     view_crop_raw := view_crop_raw a; view_offset := view_offset a;
     display_scale := display_scale a; canvas_offset_x := canvas_offset_x a;
     canvas_offset_y := canvas_offset_y a; zoom_start := zoom_start a;
     mode := mode a; drawing_points := drawing_points a;
     current_calculated_value := v; crop_mode := crop_mode a;
     algo_mode := algo_mode a; ent_cutoff := ent_cutoff a;
     final_display_image := final_display_image a;
     canvas_size := canvas_size a; overlay := overlay a;
     btn_calc := btn_calc a; btn_save := btn_save a;
     results_rows := results_rows a; messages := messages a |}.

Definition set_crop_mode (v : CropMode) (a : app) : app :=
  {| files := files a; current_index := current_index a;
     original_raw_image := original_raw_image a;
     adj_contrast := adj_contrast a; adj_brightness := adj_brightness a;
     adj_noise := adj_noise a; show_red_overlay := show_red_overlay a;
     view_crop_raw := view_crop_raw a; view_offset := view_offset a;
     display_scale := display_scale a; canvas_offset_x := canvas_offset_x a;
     canvas_offset_y := canvas_offset_y a; zoom_start := zoom_start a;
     mode := mode a; drawing_points := drawing_points a;
     current_calculated_value := current_calculated_value a; crop_mode := v;
     algo_mode := algo_mode a; ent_cutoff := ent_cutoff a;
     final_display_image := final_display_image a;
     canvas_size := canvas_size a; overlay := overlay a;
     btn_calc := btn_calc a; btn_save := btn_save a;
     results_rows := results_rows a; messages := messages a |}.

Definition set_algo_mode (v : AlgoMode) (a : app) : app :=
  {| files := files a; current_index := current_index a;
     original_raw_image := original_raw_image a;
     adj_contrast := adj_contrast a; adj_brightness := adj_brightness a;
     adj_noise := adj_noise a; show_red_overlay := show_red_overlay a;
     view_crop_raw := view_crop_raw a; view_offset := view_offset a;
     display_scale := display_scale a; canvas_offset_x := canvas_offset_x a;
     canvas_offset_y := canvas_offset_y a; zoom_start := zoom_start a;
     mode := mode a; drawing_points := drawing_points a;
     current_calculated_value := current_calculated_value a;
     crop_mode := crop_mode a; algo_mode := v; ent_cutoff := ent_cutoff a;
     final_display_image := final_display_image a;
     canvas_size := canvas_size a; overlay := overlay a;
     btn_calc := btn_calc a; btn_save := btn_save a;
     results_rows := results_rows a; messages := messages a |}.

Definition set_ent_cutoff (v : option pyfloat) (a : app) : app :=
  {| files := files a; current_index := current_index a;
     original_raw_image := original_raw_image a;
     adj_contrast := adj_contrast a; adj_brightness := adj_brightness a;
     adj_noise := adj_noise a; show_red_overlay := show_red_overlay a;
     view_crop_raw := view_crop_raw a; view_offset := view_offset a;
     display_scale := display_scale a; canvas_offset_x := canvas_offset_x a;
     canvas_offset_y := canvas_offset_y a; zoom_start := zoom_start a;
     mode := mode a; drawing_points := drawing_points a;
     current_calculated_value := current_calculated_value a;
     crop_mode := crop_mode a; algo_mode := algo_mode a; ent_cutoff := v;
     final_display_image := final_display_image a;
     canvas_size := canvas_size a; overlay := overlay a;
     btn_calc := btn_calc a; btn_save := btn_save a;
     results_rows := results_rows a; messages := messages a |}.

Definition set_final_display_image (v : option display_image) (a : app) : app :=
  {| files := files a; current_index := current_index a;
     original_raw_image := original_raw_image a;
     adj_contrast := adj_contrast a; adj_brightness := adj_brightness a;
     adj_noise := adj_noise a; show_red_overlay := show_red_overlay a;
     view_crop_raw := view_crop_raw a; view_offset := view_offset a;
     display_scale := display_scale a; canvas_offset_x := canvas_offset_x a;
     canvas_offset_y := canvas_offset_y a; zoom_start := zoom_start a;
     mode := mode a; drawing_points := drawing_points a;
     current_calculated_value := current_calculated_value a;
     crop_mode := crop_mode a; algo_mode := algo_mode a;
     ent_cutoff := ent_cutoff a; final_display_image := v;
     canvas_size := canvas_size a; overlay := overlay a;
     btn_calc := btn_calc a; btn_save := btn_save a;
     results_rows := results_rows a; messages := messages a |}.

Definition set_canvas_size (v : Z * Z) (a : app) : app :=
  {| files := files a; current_index := current_index a;
     original_raw_image := original_raw_image a;
     adj_contrast := adj_contrast a; adj_brightness := adj_brightness a;
     adj_noise := adj_noise a; show_red_overlay := show_red_overlay a;
     view_crop_raw := view_crop_raw a; view_offset := view_offset a;
     display_scale := display_scale a; canvas_offset_x := canvas_offset_x a;
     canvas_offset_y := canvas_offset_y a; zoom_start := zoom_start a;
     mode := mode a; drawing_points := drawing_points a;
     current_calculated_value := current_calculated_value a;
     crop_mode := crop_mode a; algo_mode := algo_mode a;
     ent_cutoff := ent_cutoff a;
     final_display_image := final_display_image a; canvas_size := v;
     overlay := overlay a; btn_calc := btn_calc a; btn_save := btn_save a;
     results_rows := results_rows a; messages := messages a |}.

Definition set_overlay (v : list canvas_item) (a : app) : app :=
  {| files := files a; current_index := current_index a;
     original_raw_image := original_raw_image a;
     adj_contrast := adj_contrast a; adj_brightness := adj_brightness a;
     adj_noise := adj_noise a; show_red_overlay := show_red_overlay a;
     view_crop_raw := view_crop_raw a; view_offset := view_offset a;
     display_scale := display_scale a; canvas_offset_x := canvas_offset_x a;
     canvas_offset_y := canvas_offset_y a; zoom_start := zoom_start a;
     mode := mode a; drawing_points := drawing_points a;
     current_calculated_value := current_calculated_value a;
     crop_mode := crop_mode a; algo_mode := algo_mode a;
     ent_cutoff := ent_cutoff a;
     final_display_image := final_display_image a;
     canvas_size := canvas_size a; overlay := v; btn_calc := btn_calc a;
     btn_save := btn_save a; results_rows := results_rows a;
     messages := messages a |}.

Definition set_btn_calc (v : bool) (a : app) : app :=
  {| files := files a; current_index := current_index a;
     original_raw_image := original_raw_image a;
     adj_contrast := adj_contrast a; adj_brightness := adj_brightness a;
     adj_noise := adj_noise a; show_red_overlay := show_red_overlay a;
     view_crop_raw := view_crop_raw a; view_offset := view_offset a;
     display_scale := display_scale a; canvas_offset_x := canvas_offset_x a;
     canvas_offset_y := canvas_offset_y a; zoom_start := zoom_start a;
     mode := mode a; drawing_points := drawing_points a;
     current_calculated_value := current_calculated_value a;
     crop_mode := crop_mode a; algo_mode := algo_mode a;
     ent_cutoff := ent_cutoff a;
     final_display_image := final_display_image a;
     canvas_size := canvas_size a; overlay := overlay a; btn_calc := v;
     btn_save := btn_save a; results_rows := results_rows a;
     messages := messages a |}.

Definition set_btn_save (v : bool) (a : app) : app :=
  {| files := files a; current_index := current_index a;
     original_raw_image := original_raw_image a;
     adj_contrast := adj_contrast a; adj_brightness := adj_brightness a;
     adj_noise := adj_noise a; show_red_overlay := show_red_overlay a;
     view_crop_raw := view_crop_raw a; view_offset := view_offset a;
     display_scale := display_scale a; canvas_offset_x := canvas_offset_x a;
     canvas_offset_y := canvas_offset_y a; zoom_start := zoom_start a;
     mode := mode a; drawing_points := drawing_points a;
     current_calculated_value := current_calculated_value a;
     crop_mode := crop_mode a; algo_mode := algo_mode a;
     ent_cutoff := ent_cutoff a;
     final_display_image := final_display_image a;
     canvas_size := canvas_size a; overlay := overlay a;
     btn_calc := btn_calc a; btn_save := v; results_rows := results_rows a;
     messages := messages a |}.

Definition set_results_rows (v : list (string * Q)) (a : app) : app :=
  {| files := files a; current_index := current_index a;
     original_raw_image := original_raw_image a;
     adj_contrast := adj_contrast a; adj_brightness := adj_brightness a;
     adj_noise := adj_noise a; show_red_overlay := show_red_overlay a;
     view_crop_raw := view_crop_raw a; view_offset := view_offset a;
     display_scale := display_scale a; canvas_offset_x := canvas_offset_x a;
     canvas_offset_y := canvas_offset_y a; zoom_start := zoom_start a;
     mode := mode a; drawing_points := drawing_points a;
     current_calculated_value := current_calculated_value a;
     crop_mode := crop_mode a; algo_mode := algo_mode a;
     ent_cutoff := ent_cutoff a;
     final_display_image := final_display_image a;
     canvas_size := canvas_size a; overlay := overlay a;
     btn_calc := btn_calc a; btn_save := btn_save a; results_rows := v;
     messages := messages a |}.

Definition set_messages (v : list message) (a : app) : app :=
  {| files := files a; current_index := current_index a;
     original_raw_image := original_raw_image a;
     adj_contrast := adj_contrast a; adj_brightness := adj_brightness a;
     adj_noise := adj_noise a; show_red_overlay := show_red_overlay a;
     view_crop_raw := view_crop_raw a; view_offset := view_offset a;
     display_scale := display_scale a; canvas_offset_x := canvas_offset_x a;
     canvas_offset_y := canvas_offset_y a; zoom_start := zoom_start a;
     mode := mode a; drawing_points := drawing_points a;
     current_calculated_value := current_calculated_value a;
     crop_mode := crop_mode a; algo_mode := algo_mode a;
     ent_cutoff := ent_cutoff a;
     final_display_image := final_display_image a;
     canvas_size := canvas_size a; overlay := overlay a;
     btn_calc := btn_calc a; btn_save := btn_save a;
     results_rows := results_rows a; messages := v |}.

(** ** The callbacks of [InnervationApp]

    A callback is a function from the state before to the state after.  An
    exception raised inside a callback ends it there: the state keeps the
    updates made before the raising line (Tk reports the exception and the
    event loop goes on).  A method that another method calls and then goes
    on ([render_view], [reset_current_view], [apply_zoom]) tells how it
    ended, so that the caller stops where the callee raised. *)

Inductive outcome : Type :=
| Returned (a : app)
| Raised (a : app).

Definition state_of (o : outcome) : app :=
  match o with
  | Returned a => a
  | Raised a => a
  end.

(** The call [o] followed by the rest of the calling method. *)
Definition and_then (o : outcome) (rest : app -> outcome) : outcome :=
  match o with
  | Returned a => rest a
  | Raised a => Raised a
  end.

Section InnervationApp.

(** [Image.resize(new_size, Image.BILINEAR)] for a size it accepts; a size
    with a side below 1 is refused, which [render_view] writes out. *)
Variable resize : image -> Z * Z -> image.
(** [img.filter(ImageFilter.GaussianBlur(radius))]. *)
Variable GaussianBlur : Q -> image -> image.
(** [ImageEnhance.Contrast(img).enhance(factor)]. *)
Variable Contrast_enhance : Q -> image -> image.
(** [ImageEnhance.Brightness(img).enhance(factor)]. *)
Variable Brightness_enhance : Q -> image -> image.
(** [np.array] of a new 1-bit image of the given size after
    [ImageDraw.polygon(points, outline=1, fill=1)] for a point list it
    accepts; a list of fewer than 2 points is refused, which
    [calculate_only] writes out. *)
Variable polygon_mask : Z -> Z -> list (Q * Q) -> list bool.
(** [Image.open(path).convert("I")] for a file of the folder; [None] when
    it raises. *)
Variable Image_open : string -> option image.

Definition apply_filters_to_image (pil_image : image)
    (contrast brightness noise : Q) : image :=
  let img := pil_image in
  let img := if Qltb 0 noise then GaussianBlur noise img else img in
  let img :=
    if negb (Qeq_bool contrast 1) then Contrast_enhance contrast img
    else img in
  let img :=
    if negb (Qeq_bool brightness 1) then Brightness_enhance brightness img
    else img in
  img.

Definition canvas_geometry (a : app) : Z * Z :=
  let '(cw, ch) := canvas_size a in
  if cw <? 10 then (800, 600) else (cw, ch).

Definition render_view (a : app) : outcome :=
  match view_crop_raw a with
  | None => Returned a
  | Some view =>
      let a := set_drawing_points [] a in
      let a := set_overlay [] a in
      let '(cw, ch) := canvas_geometry a in
      let '(iw, ih) := image_size view in
      if (iw =? 0) || (ih =? 0) then Raised a (* ZeroDivisionError *)
      else
        let scale := Qmin (inject_Z cw / inject_Z iw)
                          (inject_Z ch / inject_Z ih) in
        let a := set_display_scale scale a in
        let new_size := (py_int (inject_Z iw * scale),
                         py_int (inject_Z ih * scale)) in
        if (fst new_size <? 1) || (snd new_size <? 1) then
          Raised a (* ValueError: height and width must be > 0 *)
        else
        let small_raw := resize view new_size in
        let small_processed :=
          apply_filters_to_image small_raw (adj_contrast a)
            (adj_brightness a) (adj_noise a) in
        let a :=
          if show_red_overlay a then
            let arr := image_array small_processed in
            let thresh := preview_threshold (algo_mode a) (ent_cutoff a) arr in
            let mask := map (fun p => pixel_gt p thresh) arr in
            set_final_display_image
              (Some (mk_display small_processed (Some mask))) a
          else
            set_final_display_image
              (Some (mk_display small_processed None)) a in
        let a := set_canvas_offset_x ((cw - fst new_size) / 2) a in
        let a := set_canvas_offset_y ((ch - snd new_size) / 2) a in
        Returned a
  end.

Definition reset_current_view (a : app) : outcome :=
  let a := set_view_offset (0%Q, 0%Q) a in
  match original_raw_image a with
  | None => Raised a (* AttributeError *)
  | Some orig =>
      let a := set_view_crop_raw (Some orig) a in
      render_view a
  end.

Definition load_image_from_disk (a : app) : app :=
  if Z.of_nat (List.length (files a)) <=? current_index a then
    set_messages (messages a ++ [ShowInfo "Done" "Processing Complete!"]) a
  else
    let filename := nth (Z.to_nat (current_index a)) (files a) EmptyString in
    let a := set_current_calculated_value None a in
    let a := set_mode VIEW a in
    match Image_open filename with
    | None => a
    | Some raw =>
        let a := set_original_raw_image (Some (normalize_image raw)) a in
        state_of
          (and_then (reset_current_view a) (fun a =>
             let a := set_btn_calc false a in
             let a := set_btn_save false a in
             Returned a))
    end.

Definition update_adjustments (contrast brightness noise : Q) (a : app) : app :=
  let a := set_adj_contrast contrast a in
  let a := set_adj_brightness brightness a in
  let a := set_adj_noise noise a in
  state_of (render_view a).

Definition activate_zoom_mode (a : app) : app := set_mode ZOOM_SELECT a.

Definition zoom_out_step (a : app) : app :=
  match view_crop_raw a, original_raw_image a with
  | Some view, Some orig =>
      let '(current_w, current_h) := image_size view in
      let '(orig_w, orig_h) := image_size orig in
      if (orig_w <=? current_w) && (orig_h <=? current_h) then a
      else
        let factor := (3 # 2)%Q in
        let new_w := py_int (inject_Z current_w * factor) in
        let new_h := py_int (inject_Z current_h * factor) in
        let center_x := (fst (view_offset a) + inject_Z (current_w / 2))%Q in
        let center_y := (snd (view_offset a) + inject_Z (current_h / 2))%Q in
        let new_x := (center_x - inject_Z (new_w / 2))%Q in
        let new_y := (center_y - inject_Z (new_h / 2))%Q in
        let x1 := Z.max 0 (py_int new_x) in
        let y1 := Z.max 0 (py_int new_y) in
        let x2 := Z.min orig_w (py_int (new_x + inject_Z new_w)) in
        let y2 := Z.min orig_h (py_int (new_y + inject_Z new_h)) in
        let a := set_view_offset (inject_Z x1, inject_Z y1) a in
        match crop orig (inject_Z x1, inject_Z y1, inject_Z x2, inject_Z y2) with
        | None => a (* ValueError *)
        | Some c =>
            let a := set_view_crop_raw (Some c) a in
            let a := set_mode VIEW a in
            state_of (render_view a)
        end
  | _, _ => a
  end.

Definition activate_draw_mode (a : app) : app :=
  let a := set_mode DRAW a in
  let a := set_drawing_points [] a in
  state_of (render_view a).

Definition clamp_to (w : Z) (x : Q) : Q := Qmax 0 (Qmin (inject_Z w) x).

Definition apply_zoom (start end_ : Z * Z) (a : app) : outcome :=
  match view_crop_raw a with
  | None => Raised a (* AttributeError *)
  | Some view =>
      let x1 := (inject_Z (fst start - canvas_offset_x a) / display_scale a)%Q in
      let y1 := (inject_Z (snd start - canvas_offset_y a) / display_scale a)%Q in
      let x2 := (inject_Z (fst end_ - canvas_offset_x a) / display_scale a)%Q in
      let y2 := (inject_Z (snd end_ - canvas_offset_y a) / display_scale a)%Q in
      let '(w, h) := image_size view in
      let cx1 := clamp_to w x1 in
      let cx2 := clamp_to w x2 in
      let cy1 := clamp_to h y1 in
      let cy2 := clamp_to h y2 in
      let '(x1, x2) := (Qmin cx1 cx2, Qmax cx1 cx2) in
      let '(y1, y2) := (Qmin cy1 cy2, Qmax cy1 cy2) in
      if Qltb (x2 - x1) 10 || Qltb (y2 - y1) 10 then
        Returned (set_mode VIEW a)
      else
        let a :=
          set_view_offset ((fst (view_offset a) + x1)%Q,
                           (snd (view_offset a) + y1)%Q) a in
        match crop view (x1, y1, x2, y2) with
        | None => Raised a (* ValueError *)
        | Some c =>
            let a := set_view_crop_raw (Some c) a in
            and_then (render_view a) (fun a => Returned (set_mode VIEW a))
        end
  end.

(** *** Mouse events *)

Definition last_point (pts : list (Z * Z)) : Z * Z := last pts (0, 0).

Definition add_segment_to (x y : Z) (a : app) : app :=
  if 1 <? Z.of_nat (List.length (drawing_points a)) then
    let '(x0, y0) := last_point (removelast (drawing_points a)) in
    set_overlay (overlay a ++ [Line x0 y0 x y]) a
  else a.

Definition on_click (x y : Z) (a : app) : app :=
  match mode a with
  | ZOOM_SELECT => set_zoom_start (Some (x, y)) a
  | DRAW =>
      let a := set_drawing_points (drawing_points a ++ [(x, y)]) a in
      let a := set_overlay (overlay a ++ [Oval x y]) a in
      let a :=
        if CropMode_eqb (crop_mode a) Polygon then add_segment_to x y a
        else a in
      set_btn_calc true a
  | VIEW => a
  end.

Definition finish_polygon (a : app) : app :=
  if negb (Mode_eqb (mode a) DRAW)
     || (Z.of_nat (List.length (drawing_points a)) <? 3) then a
  else
    let '(x0, y0) := last_point (drawing_points a) in
    let '(x1, y1) := hd (0, 0) (drawing_points a) in
    let a := set_overlay (overlay a ++ [Line x0 y0 x1 y1]) a in
    let a := set_overlay (overlay a ++ [PolygonItem (drawing_points a)]) a in
    set_btn_calc true a.

Definition on_drag (x y : Z) (a : app) : app :=
  match mode a, zoom_start a with
  | ZOOM_SELECT, Some _ => a
  | _, _ =>
      if Mode_eqb (mode a) DRAW && CropMode_eqb (crop_mode a) Freehand then
        let a := set_drawing_points (drawing_points a ++ [(x, y)]) a in
        add_segment_to x y a
      else a
  end.

Definition on_release (x y : Z) (a : app) : app :=
  match mode a, zoom_start a with
  | ZOOM_SELECT, Some start =>
      state_of
        (and_then (apply_zoom start (x, y) a) (fun a =>
           Returned (set_zoom_start None a)))
  | _, _ =>
      if Mode_eqb (mode a) DRAW && CropMode_eqb (crop_mode a) Freehand then
        finish_polygon a
      else a
  end.

(** *** Calculations and file output *)

Definition Qlist_min (l : list Q) : Q :=
  match l with
  | [] => 0%Q
  | x :: t => fold_left Qmin t x
  end.

Definition Qlist_max (l : list Q) : Q :=
  match l with
  | [] => 0%Q
  | x :: t => fold_left Qmax t x
  end.

(** The drawn points in image coordinates. *)
Definition real_points_of (a : app) : list (Q * Q) :=
  map (fun '(cx, cy) =>
         let view_x := (inject_Z (cx - canvas_offset_x a) / display_scale a)%Q in
         let view_y := (inject_Z (cy - canvas_offset_y a) / display_scale a)%Q in
         ((view_x + fst (view_offset a))%Q, (view_y + snd (view_offset a))%Q))
      (drawing_points a).

(** [(min_x, min_y, max_x, max_y)] of [calculate_only]. *)
Definition roi_bounding_box (real_points : list (Q * Q)) : Z * Z * Z * Z :=
  let xs := map fst real_points in
  let ys := map snd real_points in
  let min_x := Z.max 0 (py_int (Qlist_min xs)) in
  let max_x := py_int (Qlist_max xs) in
  let min_y := Z.max 0 (py_int (Qlist_min ys)) in
  let max_y := py_int (Qlist_max ys) in
  (min_x, min_y, max_x, max_y).

Definition calculate_only (a : app) : app :=
  match drawing_points a with
  | [] =>
      set_messages
        (messages a ++ [ShowWarning "Error" "Please draw an area first!"]) a
  | _ :: _ =>
      let real_points := real_points_of a in
      let '(min_x, min_y, max_x, max_y) := roi_bounding_box real_points in
      match original_raw_image a with
      | None => a (* AttributeError *)
      | Some orig =>
          match crop orig (inject_Z min_x, inject_Z min_y,
                           inject_Z max_x, inject_Z max_y) with
          | None => a (* ValueError *)
          | Some roi_crop =>
              let roi_processed :=
                apply_filters_to_image roi_crop (adj_contrast a)
                  (adj_brightness a) (adj_noise a) in
              let crop_points :=
                map (fun '(rx, ry) =>
                       ((rx - inject_Z min_x)%Q, (ry - inject_Z min_y)%Q))
                    real_points in
              if Z.of_nat (List.length crop_points) <? 2 then
                a (* TypeError: coordinate list must contain at least 2
                     coordinates *)
              else
              let mask :=
                polygon_mask (width roi_crop) (height roi_crop) crop_points in
              let img_data := image_array roi_processed in
              let result :=
                innervation_index (algo_mode a) (ent_cutoff a) img_data mask in
              let a := set_current_calculated_value (Some result) a in
              set_btn_save true a
          end
      end
  end.

Definition save_and_next (a : app) : app :=
  match current_calculated_value a with
  | None => a
  | Some value =>
      match nth_error (files a) (Z.to_nat (current_index a)) with
      | None => a (* IndexError *)
      | Some filename =>
          let a := set_results_rows (results_rows a ++ [(filename, value)]) a in
          let a := set_current_index (current_index a + 1) a in
          load_image_from_disk a
      end
  end.

Definition discard_and_next (a : app) : app :=
  let a := set_current_index (current_index a + 1) a in
  load_image_from_disk a.

(** *** Zoom operations as a sequence *)

Inductive zoom_op : Type :=
| Reset
| ZoomIn (start end_ : Z * Z)
| ZoomOut.

Definition run_zoom_op (a : app) (op : zoom_op) : app :=
  match op with
  | Reset => state_of (reset_current_view a)
  | ZoomIn start end_ => state_of (apply_zoom start end_ a)
  | ZoomOut => zoom_out_step a
  end.

Definition run_zoom_ops (ops : list zoom_op) (a : app) : app :=
  fold_left run_zoom_op ops a.

End InnervationApp.

(** ** Concrete inputs used by the examples below *)

Definition flat_image (w h v : Z) : image := mk_image w h (fun _ _ => v).

(** A nearest-pixel stand-in for the library resize. *)
Definition sample_resize (img : image) (new_size : Z * Z) : image :=
  mk_image (fst new_size) (snd new_size) (getpixel img).

Definition sample_filter (factor : Q) (img : image) : image := img.

Definition sample_polygon_mask (w h : Z) (points : list (Q * Q)) : list bool :=
  repeat true (Z.to_nat (w * h)).

Definition sample_disk (filename : string) : option image :=
  Some (flat_image 20 15 7).

(** The state right after start-up with an image of the given size loaded
    and a canvas of the given size. *)
Definition loaded_app (img : image) (canvas : Z * Z) : app :=
  {| files := ["a.tif"; "b.tif"]%string;
     current_index := 0;
     original_raw_image := Some img;
     adj_contrast := 1;
     adj_brightness := 1;
     adj_noise := 0;
     show_red_overlay := false;
     view_crop_raw := None;
     view_offset := (0%Q, 0%Q);
     display_scale := 1;
     canvas_offset_x := 0;
     canvas_offset_y := 0;
     zoom_start := None;
     mode := VIEW;
     drawing_points := [];
     current_calculated_value := None;
     crop_mode := Polygon;
     algo_mode := CutOff;
     ent_cutoff := initial_ent_cutoff;
     final_display_image := None;
     canvas_size := canvas;
     overlay := [];
     btn_calc := false;
     btn_save := false;
     results_rows := [];
     messages := [] |}.

(** A loaded state in the Measuring phase: a value has been computed for the
    first file. *)
Definition measured_app : app :=
  set_current_calculated_value (Some (25 # 2))
    (loaded_app (flat_image 20 15 7) (800, 600)).

(** A four-pixel image with the intensities 0, 1, 2, 3. *)
Definition ramp_sample : list Z := [0; 1; 2; 3].



(** Interaction sequences on a 40 x 60 image (shown at scale 10, 200 canvas
    pixels in from the left) and on a 200 x 150 image (shown at scale 4). *)
Section Scenarios.

Variable resize : image -> Z * Z -> image.
Variable GaussianBlur : Q -> image -> image.
Variable Contrast_enhance : Q -> image -> image.
Variable Brightness_enhance : Q -> image -> image.

Definition narrow_view : app :=
  state_of
    (reset_current_view resize GaussianBlur Contrast_enhance
       Brightness_enhance (loaded_app (flat_image 40 60 100) (800, 600))).

Definition drawing_on_narrow_view : app :=
  activate_draw_mode resize GaussianBlur Contrast_enhance Brightness_enhance
    narrow_view.

(** Two clicks, then the closing gesture. *)
Definition two_point_roi : app :=
  finish_polygon
    (on_click 400 200 (on_click 300 100 drawing_on_narrow_view)).

(** A triangle whose right side lies in the canvas margin right of the
    image. *)
Definition roi_past_right_edge : app :=
  finish_polygon
    (on_click 700 500
       (on_click 700 100 (on_click 300 100 drawing_on_narrow_view))).

Definition wide_view : app :=
  state_of
    (reset_current_view resize GaussianBlur Contrast_enhance
       Brightness_enhance (loaded_app (flat_image 200 150 100) (800, 600))).

(** One zoom-in whose left edge falls between two pixel columns. *)
Definition fractional_zoom_in : app :=
  state_of
    (apply_zoom resize GaussianBlur Contrast_enhance Brightness_enhance
       (401, 0) (800, 600) wide_view).

(** A zoom-in to an 11 x 75 crop at the right edge (origin 189, 20), then
    forty zoom-ins that each select the crop from 3/8 of a pixel inside its
    left edge to its right edge, over its full height: the crop box rounds
    to the same 11 x 75 pixels every time. *)
Definition drifted_view : app :=
  run_zoom_ops resize GaussianBlur Contrast_enhance Brightness_enhance
    (ZoomIn (756, 80) (800, 380) :: repeat (ZoomIn (359, 0) (800, 600)) 40)
    wide_view.

End Scenarios.

(** ** Vocabulary of the view-state properties *)

(** The crop rectangle of the view state: origin, and origin plus size. *)
Definition view_rect (a : app) : Q * Q * Q * Q :=
  let '(ox, oy) := view_offset a in
  match view_crop_raw a with
  | Some view =>
      (ox, oy, (ox + inject_Z (width view))%Q, (oy + inject_Z (height view))%Q)
  | None => (ox, oy, ox, oy)
  end.

(** [new] covers [old] as far as [old] lies inside an image of the given
    size: superset up to clamping at the image boundary. *)
Definition covers_within (orig_w orig_h : Z) (new old : Q * Q * Q * Q) : Prop :=
  let '(nx0, ny0, nx1, ny1) := new in
  let '(ox0, oy0, ox1, oy1) := old in
  (nx0 <= ox0)%Q /\ (ny0 <= oy0)%Q
  /\ (Qmin ox1 (inject_Z orig_w) <= nx1)%Q
  /\ (Qmin oy1 (inject_Z orig_h) <= ny1)%Q.

(** The same test as a computation. *)
Definition covers_withinb (orig_w orig_h : Z) (new old : Q * Q * Q * Q) : bool :=
  let '(nx0, ny0, nx1, ny1) := new in
  let '(ox0, oy0, ox1, oy1) := old in
  Qle_bool nx0 ox0 && Qle_bool ny0 oy0
  && Qle_bool (Qmin ox1 (inject_Z orig_w)) nx1
  && Qle_bool (Qmin oy1 (inject_Z orig_h)) ny1.

(** The stored crop origin lies inside the image. *)
Definition origin_in_image (orig : image) (a : app) : Prop :=
  (fst (view_offset a) <= inject_Z (width orig))%Q
  /\ (snd (view_offset a) <= inject_Z (height orig))%Q.

(** The two edges [zoom_out_step] computes along one axis. *)
Definition zoom_out_lo (off : Q) (w : Z) : Z :=
  let new_w := py_int (inject_Z w * (3 # 2)) in
  Z.max 0 (py_int (off + inject_Z (w / 2) - inject_Z (new_w / 2))).

Definition zoom_out_hi (off : Q) (w orig_w : Z) : Z :=
  let new_w := py_int (inject_Z w * (3 # 2)) in
  Z.min orig_w
    (py_int (off + inject_Z (w / 2) - inject_Z (new_w / 2) + inject_Z new_w)).

(** The two edges [apply_zoom] computes along one axis, relative to the
    current crop. *)
Definition zoom_in_lo (w : Z) (p1 p2 : Q) : Q :=
  Qmin (Qmax 0 (Qmin (inject_Z w) p1)) (Qmax 0 (Qmin (inject_Z w) p2)).

Definition zoom_in_hi (w : Z) (p1 p2 : Q) : Q :=
  Qmax (Qmax 0 (Qmin (inject_Z w) p1)) (Qmax 0 (Qmin (inject_Z w) p2)).

(** What every view state reached by zoom operations satisfies: the origin
    is not negative and either it is a whole pixel or the crop is at least
    nine pixels in each direction. *)
Definition view_inv (orig : image) (a : app) : Prop :=
  original_raw_image a = Some orig
  /\ exists view,
      view_crop_raw a = Some view
      /\ 0 <= width view /\ 0 <= height view
      /\ (0 <= fst (view_offset a))%Q /\ (0 <= snd (view_offset a))%Q
      /\ ((exists zx zy,
              (fst (view_offset a) == inject_Z zx)%Q
              /\ (snd (view_offset a) == inject_Z zy)%Q)
          \/ (9 <= width view /\ 9 <= height view)).

(** What [render_view] leaves alone. *)
Record same_session (a a' : app) : Prop := {
  same_files : files a' = files a;
  same_index : current_index a' = current_index a;
  same_original : original_raw_image a' = original_raw_image a;
  same_crop : view_crop_raw a' = view_crop_raw a;
  same_offset : view_offset a' = view_offset a;
  same_mode : mode a' = mode a;
  same_value : current_calculated_value a' = current_calculated_value a;
  same_rows : results_rows a' = results_rows a;
  same_messages : messages a' = messages a;
  same_canvas : canvas_size a' = canvas_size a
}.

(** ** Folder loading and the remaining widget callbacks *)

(** [str.lower()] on a file name, letter by letter (ASCII letters; the
    extensions tested below are ASCII). *)
Definition lower_ascii (c : ascii) : ascii :=
  let n := nat_of_ascii c in
  if ((65 <=? n) && (n <=? 90))%nat then ascii_of_nat (n + 32) else c.

Fixpoint lower (s : string) : string :=
  match s with
  | EmptyString => EmptyString
  | String c rest => String (lower_ascii c) (lower rest)
  end.

(** [s.endswith(suffix)]. *)
Definition endswith (s suffix : string) : bool :=
  let n := String.length s in
  let k := String.length suffix in
  (k <=? n)%nat && String.eqb (substring (n - k) k s) suffix.

Definition image_extensions : list string :=
  [".tif"; ".tiff"; ".png"; ".jpg"]%string.

(** [f.lower().endswith(('.tif', '.tiff', '.png', '.jpg'))]. *)
Definition has_image_extension (f : string) : bool :=
  existsb (endswith (lower f)) image_extensions.

(** [list.sort()] on file names: the sorted arrangement under the
    lexicographic order of the characters. *)
Fixpoint insert_name (v : string) (l : list string) : list string :=
  match l with
  | [] => [v]
  | x :: t => if String.leb v x then v :: l else x :: insert_name v t
  end.

Definition sort_names (l : list string) : list string :=
  fold_right insert_name [] l.

(** [subseq l1 l2]: [l1] is [l2] with some of its elements left out. *)
Inductive subseq {A : Type} : list A -> list A -> Prop :=
| subseq_nil : forall l, subseq [] l
| subseq_skip : forall x l1 l2, subseq l1 l2 -> subseq l1 (x :: l2)
| subseq_take : forall x l1 l2, subseq l1 l2 -> subseq (x :: l1) (x :: l2).

(** The steps of [calculate_otsu_threshold] after the normalized
    histogram. *)
Definition otsu_from_hist_norm (hist_norm : list Q) : Z :=
  let weight_bg := cumsum hist_norm in
  let mean_bg :=
    cumsum (map (fun '(h, i) => Qred (h * inject_Z i))
                (combine hist_norm arange256)) in
  let global_mean := last mean_bg 0%Q in
  let between_var :=
    map (fun '(w, m) => between_class_variance w m global_mean)
        (combine weight_bg mean_bg) in
  argmax between_var.

(** The normalized histogram of a sample whose values all equal [v]. *)
Definition single_value_hist_norm (v : Z) : list Q :=
  map (fun i => if i =? v then 1%Q else 0%Q) arange256.

Section FolderAndEvents.

Variable resize : image -> Z * Z -> image.
Variable GaussianBlur : Q -> image -> image.
Variable Contrast_enhance : Q -> image -> image.
Variable Brightness_enhance : Q -> image -> image.
Variable polygon_mask : Z -> Z -> list (Q * Q) -> list bool.
Variable Image_open : string -> option image.

(** [load_folder].  [path] is what the directory dialog returned (empty when
    it was cancelled), [listing] is [os.listdir(path)], [results_exist] is
    [os.path.exists] of the results file; [Image_open] reads from the chosen
    folder, so [folder_path] needs no field.  The boolean says whether the
    header was written. *)
Definition load_folder (path : string) (listing : list string)
    (results_exist : bool) (a : app) : bool * app :=
  match path with
  | EmptyString => (false, a)
  | String _ _ =>
      let a := set_files (sort_names (filter has_image_extension listing)) a in
      match files a with
      | [] => (false, a)
      | _ :: _ =>
          let header_written := negb results_exist in
          let a := set_current_index 0 a in
          (header_written,
           load_image_from_disk resize GaussianBlur Contrast_enhance
             Brightness_enhance Image_open a)
      end
  end.

(** The overlay check box: the variable flips, then [render_view] runs. *)
Definition toggle_red_overlay (a : app) : app :=
  state_of
    (render_view resize GaussianBlur Contrast_enhance Brightness_enhance
       (set_show_red_overlay (negb (show_red_overlay a)) a)).

(** [_toggle_cutoff], after the combo box has stored the chosen algorithm. *)
Definition toggle_cutoff (chosen : AlgoMode) (a : app) : app :=
  let a := set_algo_mode chosen a in
  if show_red_overlay a then
    state_of
      (render_view resize GaussianBlur Contrast_enhance Brightness_enhance a)
  else a.

(** What the user can do within one folder: the bindings of the canvas
    and the commands of the widgets of [_setup_ui].  The enabled state of
    the buttons is not consulted here, so the runs of events below include
    all those the window lets through. *)
Inductive ui_event : Type :=
| EvClick (x y : Z)
| EvDrag (x y : Z)
| EvRelease (x y : Z)
| EvClosingGesture
| EvStartDrawing
| EvZoomInButton
| EvZoomOutButton
| EvResetView
| EvAdjust (contrast brightness noise : Q)
| EvToggleOverlay
| EvSelectAlgo (chosen : AlgoMode)
| EvSelectCropMode (chosen : CropMode)
| EvEditCutoff (entry : option pyfloat)
| EvCalculate
| EvSaveAndNext
| EvDiscardAndNext.

Definition handle_event (a : app) (e : ui_event) : app :=
  match e with
  | EvClick x y => on_click x y a
  | EvDrag x y => on_drag x y a
  | EvRelease x y =>
      on_release resize GaussianBlur Contrast_enhance Brightness_enhance x y a
  | EvClosingGesture => finish_polygon a
  | EvStartDrawing =>
      activate_draw_mode resize GaussianBlur Contrast_enhance
        Brightness_enhance a
  | EvZoomInButton => activate_zoom_mode a
  | EvZoomOutButton =>
      zoom_out_step resize GaussianBlur Contrast_enhance Brightness_enhance a
  | EvResetView =>
      state_of
        (reset_current_view resize GaussianBlur Contrast_enhance
           Brightness_enhance a)
  | EvAdjust c b n =>
      update_adjustments resize GaussianBlur Contrast_enhance
        Brightness_enhance c b n a
  | EvToggleOverlay => toggle_red_overlay a
  | EvSelectAlgo chosen => toggle_cutoff chosen a
  | EvSelectCropMode chosen => set_crop_mode chosen a
  | EvEditCutoff entry => set_ent_cutoff entry a
  | EvCalculate =>
      calculate_only GaussianBlur Contrast_enhance Brightness_enhance
        polygon_mask a
  | EvSaveAndNext =>
      save_and_next resize GaussianBlur Contrast_enhance Brightness_enhance
        Image_open a
  | EvDiscardAndNext =>
      discard_and_next resize GaussianBlur Contrast_enhance Brightness_enhance
        Image_open a
  end.

Definition run_events (events : list ui_event) (a : app) : app :=
  fold_left handle_event events a.

(** A run of primary clicks. *)
Definition click_all (points : list (Z * Z)) (a : app) : app :=
  fold_left (fun s p => on_click (fst p) (snd p) s) points a.

End FolderAndEvents.

(** The displayed size [render_view] computes for a crop of [iw] x [ih] on a
    canvas of [cw] x [ch]. *)
Definition fit_scale (cw ch iw ih : Z) : Q :=
  Qmin (inject_Z cw / inject_Z iw) (inject_Z ch / inject_Z ih).

Definition fitted_size (cw ch iw ih : Z) : Z * Z :=
  (py_int (inject_Z iw * fit_scale cw ch iw ih),
   py_int (inject_Z ih * fit_scale cw ch iw ih)).

(** ** Vocabulary of the frame and log properties *)

(** The settings of the side panel and the state of the buttons. *)
Record same_settings (a a' : app) : Prop := {
  same_adj_contrast : adj_contrast a' = adj_contrast a;
  same_adj_brightness : adj_brightness a' = adj_brightness a;
  same_adj_noise : adj_noise a' = adj_noise a;
  same_show_red_overlay : show_red_overlay a' = show_red_overlay a;
  same_crop_mode : crop_mode a' = crop_mode a;
  same_algo_mode : algo_mode a' = algo_mode a;
  same_ent_cutoff : ent_cutoff a' = ent_cutoff a;
  same_zoom_start : zoom_start a' = zoom_start a;
  same_btn_calc : btn_calc a' = btn_calc a;
  same_btn_save : btn_save a' = btn_save a
}.

(** What maps a canvas position to an image position, and the images. *)
Record same_geometry (a a' : app) : Prop := {
  same_display_scale : display_scale a' = display_scale a;
  same_canvas_offset_x : canvas_offset_x a' = canvas_offset_x a;
  same_canvas_offset_y : canvas_offset_y a' = canvas_offset_y a;
  same_view_offset : view_offset a' = view_offset a;
  same_view_crop_raw : view_crop_raw a' = view_crop_raw a;
  same_original_raw_image : original_raw_image a' = original_raw_image a
}.

(** A run of pointer positions reported while the button is held. *)
Definition drag_all (points : list (Z * Z)) (a : app) : app :=
  fold_left (fun s p => on_drag (fst p) (snd p) s) points a.

(** Queue, cursor and log are the same in both states. *)
Definition same_log (a a' : app) : Prop :=
  files a' = files a
  /\ current_index a' = current_index a
  /\ results_rows a' = results_rows a.

(** The queue is [files0], the cursor is not negative, and the rows added
    to [rows0] name, in order, files the cursor has passed. *)
Definition log_inv (files0 : list string) (rows0 : list (string * Q))
    (a : app) : Prop :=
  files a = files0
  /\ 0 <= current_index a
  /\ exists added,
       results_rows a = rows0 ++ added
       /\ subseq (map fst added)
            (firstn (Z.to_nat (current_index a)) files0).

(** A state that shows a 20 x 15 image in full on an 800 x 600 canvas; the
    same state in the drawing mode; and a triangle clicked on it after Start
    Drawing. *)
Definition shown_app : app :=
  set_view_crop_raw (Some (flat_image 20 15 7))
    (loaded_app (flat_image 20 15 7) (800, 600)).

Definition drawing_app : app := set_mode DRAW shown_app.

Definition clicked_app : app :=
  click_all [(100, 100); (400, 100); (400, 300)]
    (activate_draw_mode sample_resize sample_filter sample_filter
       sample_filter shown_app).

(** ** Proof automation *)

(** Linear arithmetic over [Q] with integer atoms: distribute [inject_Z],
    then treat each injected integer as an unknown. *)
Ltac push_inject :=
  unfold Z.sub in *;
  rewrite ?inject_Z_plus, ?inject_Z_opp in *;
  change (inject_Z 0) with 0%Q in *;
  change (inject_Z 1) with 1%Q in *.

Ltac hide_inject :=
  repeat match goal with
  | |- context [inject_Z ?t] =>
      let q := fresh "q" in set (q := inject_Z t) in *; clearbody q
  | H : context [inject_Z ?t] |- _ =>
      let q := fresh "q" in set (q := inject_Z t) in *; clearbody q
  end.

Ltac qlra := push_inject; hide_inject; lra.

Ltac is_app_field p :=
  lazymatch type of p with
  | app -> app => fail
  | app -> _ => idtac
  end.

Ltac is_app_setter s :=
  lazymatch s with
  | set_files => idtac
  | set_current_index => idtac
  | set_original_raw_image => idtac
  | set_adj_contrast => idtac
  | set_adj_brightness => idtac
  | set_adj_noise => idtac
  | set_show_red_overlay => idtac
  | set_view_crop_raw => idtac
  | set_view_offset => idtac
  | set_display_scale => idtac
  | set_canvas_offset_x => idtac
  | set_canvas_offset_y => idtac
  | set_zoom_start => idtac
  | set_mode => idtac
  | set_drawing_points => idtac
  | set_current_calculated_value => idtac
  | set_crop_mode => idtac
  | set_algo_mode => idtac
  | set_ent_cutoff => idtac
  | set_final_display_image => idtac
  | set_canvas_size => idtac
  | set_overlay => idtac
  | set_btn_calc => idtac
  | set_btn_save => idtac
  | set_results_rows => idtac
  | set_messages => idtac
  end.

(** Read a field of an updated state: one rewriting step per update, each
    justified for an arbitrary inner state. *)
Ltac app_read_step :=
  match goal with
  | |- context [?p (?s ?v ?X)] =>
      is_app_field p; is_app_setter s;
      let H := fresh "Hread" in
      first [ assert (H : forall x, p (s v x) = p x) by (intro; reflexivity)
            | assert (H : forall x, p (s v x) = v) by (intro; reflexivity) ];
      rewrite (H X); clear H
  end.

(** The end of a call whose outcome is known. *)
Ltac outcome_step :=
  let H := fresh "Hend" in
  match goal with
  | |- context [state_of (Returned ?x)] =>
      assert (H : forall y, state_of (Returned y) = y) by (intro; reflexivity);
      rewrite (H x); clear H
  | |- context [state_of (Raised ?x)] =>
      assert (H : forall y, state_of (Raised y) = y) by (intro; reflexivity);
      rewrite (H x); clear H
  | |- context [and_then (Returned ?x) ?k] =>
      assert (H : forall y r, and_then (Returned y) r = r y)
        by (intros; reflexivity);
      rewrite (H x k); clear H
  | |- context [and_then (Raised ?x) ?k] =>
      assert (H : forall y r, and_then (Raised y) r = Raised y)
        by (intros; reflexivity);
      rewrite (H x k); clear H
  end.

Ltac app_read :=
  repeat (cbv beta iota zeta; first [app_read_step | outcome_step]).

(** * Properties *)

(** ** Numeric lemmas *)

Lemma Qltb_lt (a b : Q) : Qltb a b = true <-> (a < b)%Q.
Proof.
  unfold Qltb. rewrite negb_true_iff. split; intro H.
  - apply Qnot_le_lt. intro Hle. apply Qle_bool_iff in Hle. congruence.
  - destruct (Qle_bool b a) eqn:E; [|reflexivity].
    apply Qle_bool_iff in E. exfalso. apply (Qlt_not_le _ _ H E).
Qed.

Lemma Qltb_ge (a b : Q) : Qltb a b = false <-> (b <= a)%Q.
Proof.
  unfold Qltb. rewrite negb_false_iff. apply Qle_bool_iff.
Qed.

Lemma Qle_bool_false (a b : Q) : Qle_bool a b = false -> (b < a)%Q.
Proof.
  intro H. apply Qnot_le_lt. intro Hle. apply Qle_bool_iff in Hle. congruence.
Qed.

Lemma Qmin_spec (a b : Q) :
  ((a <= b)%Q /\ Qmin a b = a) \/ ((b < a)%Q /\ Qmin a b = b).
Proof.
  unfold Qmin. destruct (Qle_bool a b) eqn:E.
  - left. split; [apply Qle_bool_iff, E | reflexivity].
  - right. split; [apply Qle_bool_false, E | reflexivity].
Qed.

Lemma Qmax_spec (a b : Q) :
  ((a <= b)%Q /\ Qmax a b = b) \/ ((b < a)%Q /\ Qmax a b = a).
Proof.
  unfold Qmax. destruct (Qle_bool a b) eqn:E.
  - left. split; [apply Qle_bool_iff, E | reflexivity].
  - right. split; [apply Qle_bool_false, E | reflexivity].
Qed.

Lemma py_int_floor (x : Q) : (0 <= x)%Q -> py_int x = Qfloor x.
Proof.
  intro H. unfold py_int. apply Qle_bool_iff in H. now rewrite H.
Qed.

Lemma py_int_ceiling (x : Q) : (x < 0)%Q -> py_int x = Qceiling x.
Proof.
  intro H. unfold py_int. destruct (Qle_bool 0 x) eqn:E; [|reflexivity].
  apply Qle_bool_iff in E. exfalso. apply (Qlt_not_le _ _ H E).
Qed.

Lemma Qceiling_nonpos (x : Q) : (x < 0)%Q -> Qceiling x <= 0.
Proof.
  intro H. change 0 with (Qceiling 0).
  apply Qceiling_resp_le. apply Qlt_le_weak, H.
Qed.

Lemma Qfloor_nonneg (x : Q) : (0 <= x)%Q -> 0 <= Qfloor x.
Proof.
  intro H. change 0 with (Qfloor 0). apply Qfloor_resp_le, H.
Qed.

Lemma py_int_mono (x y : Q) : (x <= y)%Q -> py_int x <= py_int y.
Proof.
  intro H. unfold py_int.
  destruct (Qle_bool 0 x) eqn:Ex; destruct (Qle_bool 0 y) eqn:Ey.
  - apply Qfloor_resp_le, H.
  - apply Qle_bool_iff in Ex. apply Qle_bool_false in Ey.
    exfalso. apply (Qlt_not_le _ _ Ey). eapply Qle_trans; eassumption.
  - apply Qle_bool_false in Ex. apply Qle_bool_iff in Ey.
    pose proof (Qceiling_nonpos x Ex). pose proof (Qfloor_nonneg y Ey). lia.
  - apply Qceiling_resp_le, H.
Qed.

Lemma py_int_inject_Z (z : Z) : py_int (inject_Z z) = z.
Proof.
  unfold py_int. destruct (Qle_bool 0 (inject_Z z)).
  - apply Qfloor_Z.
  - apply Qceiling_Z.
Qed.

(** ** Counting and selection lemmas *)

Lemma count_if_bounds {A} (p : A -> bool) (l : list A) :
  0 <= count_if p l <= Z.of_nat (List.length l).
Proof.
  unfold count_if. split; [lia|].
  apply Nat2Z.inj_le.
  induction l as [|x t IH]; simpl; [lia|].
  destruct (p x); simpl; lia.
Qed.

Lemma count_if_none {A} (p : A -> bool) (l : list A) :
  Forall (fun x => p x = false) l -> count_if p l = 0.
Proof.
  unfold count_if. induction 1 as [|x t Hx Ht IH]; simpl; [reflexivity|].
  rewrite Hx. exact IH.
Qed.

Lemma select_mask_incl (img_data : list Z) (mask : list bool) (p : Z) :
  In p (select_mask img_data mask) -> In p img_data.
Proof.
  unfold select_mask. intro H.
  apply in_map_iff in H. destruct H as [[v b] [Hv Hin]]. simpl in Hv. subst v.
  apply filter_In in Hin. destruct Hin as [Hin _].
  eapply in_combine_l; eassumption.
Qed.

Lemma valid_pixels_incl (roi_pixels : list Z) (p : Z) :
  In p (valid_pixels_of roi_pixels) -> In p roi_pixels /\ 0 < p.
Proof.
  unfold valid_pixels_of. intro H. apply filter_In in H.
  destruct H as [Hin Hp]. split; [exact Hin | now apply Z.ltb_lt].
Qed.

Lemma valid_pixels_all_zero (roi_pixels : list Z) :
  Forall (fun p => p = 0) roi_pixels -> valid_pixels_of roi_pixels = [].
Proof.
  unfold valid_pixels_of. induction 1 as [|x t Hx Ht IH]; simpl; [reflexivity|].
  subst x. simpl. exact IH.
Qed.

Lemma percent_bounds (c n : Z) :
  0 <= c <= n -> 0 < n ->
  (0 <= 100 * (inject_Z c / inject_Z n) <= 100)%Q.
Proof.
  intros [Hc Hcn] Hn.
  assert (Hn' : (0 < inject_Z n)%Q).
  { change 0%Q with (inject_Z 0). rewrite <- Zlt_Qlt. exact Hn. }
  assert (H0 : (0 <= inject_Z c / inject_Z n)%Q).
  { apply Qle_shift_div_l; [exact Hn'|].
    rewrite Qmult_0_l. change 0%Q with (inject_Z 0).
    rewrite <- Zle_Qle. exact Hc. }
  assert (H1 : (inject_Z c / inject_Z n <= 1)%Q).
  { apply Qle_shift_div_r; [exact Hn'|].
    rewrite Qmult_1_l. rewrite <- Zle_Qle. exact Hcn. }
  split; lra.
Qed.

Lemma innervation_index_bounds algo ent_cutoff img_data mask :
  (0 <= innervation_index algo ent_cutoff img_data mask <= 100)%Q.
Proof.
  unfold innervation_index.
  destruct (Z.of_nat (List.length (valid_pixels_of (select_mask img_data mask))) =? 0)
    eqn:E.
  - split; lra.
  - apply Z.eqb_neq in E. apply percent_bounds.
    + apply count_if_bounds.
    + lia.
Qed.


(** ** The default cut-off *)

Lemma pixel_gt_default_cutoff (p : Z) :
  p <= 255 -> pixel_gt p (Finite 2500) = false.
Proof.
  intro Hp. cbn [pixel_gt]. apply Qltb_ge.
  change (inject_Z p <= inject_Z 2500)%Q. rewrite <- Zle_Qle. lia.
Qed.

Lemma initial_ent_cutoff_value : initial_ent_cutoff = Some (Finite 2500).
Proof. reflexivity. Qed.

(** C10.  With the initial text of the cut-off entry, 2500, and pixel data
    that is 8-bit, no pixel passes [pixel > 2500]: the fixed cut-off mode
    yields index 0, in particular when the ROI holds non-zero pixels. *)
Theorem default_cutoff_index_is_zero (img_data : list Z) (mask : list bool) :
  Forall (fun p => 0 <= p <= 255) img_data ->
  count_if (fun p => pixel_gt p (Finite 2500))
    (valid_pixels_of (select_mask img_data mask)) = 0
  /\ (innervation_index CutOff initial_ent_cutoff img_data mask == 0)%Q.
Proof.
  intro H8.
  assert (Hnone : count_if (fun p => pixel_gt p (Finite 2500))
                    (valid_pixels_of (select_mask img_data mask)) = 0).
  { apply count_if_none. apply Forall_forall. intros p Hp.
    apply valid_pixels_incl in Hp. destruct Hp as [Hp _].
    apply select_mask_incl in Hp.
    rewrite Forall_forall in H8. apply pixel_gt_default_cutoff.
    apply (H8 p Hp). }
  split; [exact Hnone|].
  unfold innervation_index. rewrite initial_ent_cutoff_value.
  cbn [measure_threshold]. rewrite Hnone.
  destruct (_ =? 0); [reflexivity|].
  unfold Qdiv. rewrite Qmult_0_l. rewrite Qmult_0_r. reflexivity.
Qed.

(** ** Rounding *)

Lemma new_size_floor (w : Z) :
  0 <= w -> py_int (inject_Z w * (3 # 2)) = 3 * w / 2.
Proof.
  intro Hw. rewrite py_int_floor.
  - unfold Qfloor, Qmult, inject_Z. cbn [Qnum Qden]. f_equal. lia.
  - unfold Qle, Qmult, inject_Z. cbn [Qnum Qden]. lia.
Qed.

Lemma py_round_bounds (x : Q) :
  (x - (1 # 2) <= inject_Z (py_round x) <= x + (1 # 2))%Q.
Proof.
  unfold py_round.
  pose proof (Qfloor_le x) as H1. pose proof (Qlt_floor x) as H2.
  destruct (Qcompare (x - inject_Z (Qfloor x)) (1 # 2)) eqn:E.
  - apply Qeq_alt in E. destruct (Z.even (Qfloor x)); split; qlra.
  - apply Qlt_alt in E. split; qlra.
  - apply Qgt_alt in E. split; qlra.
Qed.

Lemma py_round_inject_Z (z : Z) : py_round (inject_Z z) = z.
Proof.
  unfold py_round. rewrite Qfloor_Z.
  replace (Qcompare (inject_Z z - inject_Z z) (1 # 2)) with Lt; [reflexivity|].
  symmetry. apply (proj1 (Qlt_alt _ _)). hide_inject. lra.
Qed.

Lemma py_round_gap (x y : Q) :
  (x + 10 <= y)%Q -> 9 <= py_round y - py_round x.
Proof.
  intro H.
  pose proof (py_round_bounds x) as [_ Hx].
  pose proof (py_round_bounds y) as [Hy _].
  assert (Hq : (inject_Z (py_round x) + 9 <= inject_Z (py_round y))%Q)
    by (hide_inject; lra).
  assert (Hz : (inject_Z (py_round x + 9) <= inject_Z (py_round y))%Q)
    by (rewrite inject_Z_plus; exact Hq).
  rewrite <- Zle_Qle in Hz. lia.
Qed.

(** ** The edges computed by [zoom_out_step] *)

Lemma zoom_out_halves (w : Z) :
  0 <= w ->
  w / 2 <= (3 * w / 2) / 2
  /\ w <= w / 2 - (3 * w / 2) / 2 + 3 * w / 2
  /\ (4 <= w -> w + 1 <= w / 2 - (3 * w / 2) / 2 + 3 * w / 2)
  /\ 0 <= 3 * w / 2.
Proof.
  intro Hw. Z.to_euclidean_division_equations. lia.
Qed.

Lemma zoom_out_lo_le (off : Q) (w : Z) :
  (0 <= off)%Q -> 0 <= w ->
  0 <= zoom_out_lo off w /\ (inject_Z (zoom_out_lo off w) <= off)%Q.
Proof.
  intros Hoff Hw. unfold zoom_out_lo. cbv zeta. rewrite (new_size_floor w Hw).
  destruct (zoom_out_halves w Hw) as (Hab & _).
  rewrite Zle_Qle in Hab.
  set (t := (off + inject_Z (w / 2) - inject_Z (3 * w / 2 / 2))%Q).
  assert (Ht : (t <= off)%Q) by (unfold t; hide_inject; lra).
  split; [lia|].
  destruct (Z.max_spec 0 (py_int t)) as [[Hlt ->] | [Hge ->]]; [|exact Hoff].
  destruct (Qlt_le_dec t 0) as [Hneg | Hpos].
  - rewrite (py_int_ceiling t Hneg) in Hlt.
    pose proof (Qceiling_nonpos t Hneg). lia.
  - rewrite (py_int_floor t Hpos). pose proof (Qfloor_le t). lra.
Qed.

Lemma zoom_out_hi_ge (off : Q) (w orig_w : Z) :
  (0 <= off)%Q -> 0 <= w ->
  (exists z, (off == inject_Z z)%Q) \/ 4 <= w ->
  (Qmin (off + inject_Z w) (inject_Z orig_w)
   <= inject_Z (zoom_out_hi off w orig_w))%Q.
Proof.
  intros Hoff Hw Hcase. unfold zoom_out_hi. cbv zeta.
  rewrite (new_size_floor w Hw).
  destruct (zoom_out_halves w Hw) as (_ & Hk & Hk4 & _).
  set (A := w / 2) in *. set (B := 3 * w / 2 / 2) in *.
  set (N := 3 * w / 2) in *.
  set (T := (off + inject_Z A - inject_Z B + inject_Z N)%Q).
  assert (HkQ : (inject_Z w <= inject_Z A - inject_Z B + inject_Z N)%Q).
  { rewrite Zle_Qle in Hk. push_inject. exact Hk. }
  assert (HwQ : (0 <= inject_Z w)%Q).
  { change 0%Q with (inject_Z 0). rewrite <- Zle_Qle. exact Hw. }
  assert (HT : (0 <= T)%Q) by (unfold T; hide_inject; lra).
  rewrite (py_int_floor T HT).
  assert (Hfl : (off + inject_Z w <= inject_Z (Qfloor T))%Q).
  { destruct Hcase as [[z Hz'] | H4].
    - assert (HTz : (T == inject_Z (z + A - B + N))%Q).
      { unfold T. rewrite Hz'. push_inject. ring. }
      rewrite HTz, Qfloor_Z. rewrite Hz'.
      rewrite <- inject_Z_plus. rewrite <- Zle_Qle. lia.
    - specialize (Hk4 H4). rewrite Zle_Qle in Hk4.
      pose proof (Qlt_floor T) as Hf. unfold T in *.
      push_inject. hide_inject. lra. }
  destruct (Qmin_spec (off + inject_Z w) (inject_Z orig_w))
    as [[Hm Hq] | [Hm Hq]]; rewrite Hq;
    destruct (Z.min_spec orig_w (Qfloor T)) as [[Hz ->] | [Hz ->]];
    try rewrite Zlt_Qlt in Hz; try rewrite Zle_Qle in Hz; hide_inject; lra.
Qed.

Lemma zoom_out_lo_le_hi (off : Q) (w orig_w : Z) :
  (0 <= off)%Q -> (off <= inject_Z orig_w)%Q -> 0 <= w ->
  zoom_out_lo off w <= zoom_out_hi off w orig_w.
Proof.
  intros Hoff Hin Hw. unfold zoom_out_lo, zoom_out_hi. cbv zeta.
  rewrite (new_size_floor w Hw).
  destruct (zoom_out_halves w Hw) as (Hab & Hk & _ & HN).
  rewrite Zle_Qle in Hab, Hk, HN.
  change (inject_Z 0) with 0%Q in HN.
  set (t := (off + inject_Z (w / 2) - inject_Z (3 * w / 2 / 2))%Q).
  set (T := (t + inject_Z (3 * w / 2))%Q).
  assert (Ht : (t <= off)%Q) by (unfold t; hide_inject; lra).
  assert (HtT : (t <= T)%Q) by (unfold T; hide_inject; lra).
  assert (HwQ : (0 <= inject_Z w)%Q).
  { change 0%Q with (inject_Z 0). rewrite <- Zle_Qle. exact Hw. }
  assert (HT : (0 <= T)%Q).
  { unfold T, t. push_inject. hide_inject. lra. }
  pose proof (py_int_mono t T HtT) as H1.
  assert (H2 : py_int t <= orig_w).
  { rewrite <- (py_int_inject_Z orig_w). apply py_int_mono. lra. }
  assert (H3 : 0 <= py_int T).
  { rewrite (py_int_floor T HT). apply Qfloor_nonneg, HT. }
  assert (H4 : 0 <= orig_w).
  { rewrite Zle_Qle. change (inject_Z 0) with 0%Q. lra. }
  lia.
Qed.

(** ** ImageNormalizer *)

Lemma insert_sorted_In (v x : Z) (l : list Z) :
  In x (insert_sorted v l) <-> x = v \/ In x l.
Proof.
  induction l as [|y t IH]; cbn [insert_sorted].
  - cbn. intuition.
  - destruct (v <=? y); cbn [In]; [intuition|].
    rewrite IH. intuition.
Qed.

Lemma insert_sorted_sorted (v : Z) (l : list Z) :
  StronglySorted Z.le l -> StronglySorted Z.le (insert_sorted v l).
Proof.
  induction 1 as [|y t Ht IH Hy]; cbn [insert_sorted].
  - constructor; constructor.
  - destruct (v <=? y) eqn:E.
    + apply Z.leb_le in E. constructor.
      * constructor; assumption.
      * constructor; [exact E|].
        rewrite Forall_forall in *. intros x Hx. specialize (Hy x Hx). lia.
    + apply Z.leb_gt in E. constructor; [exact IH|].
      rewrite Forall_forall in *. intros x Hx.
      apply insert_sorted_In in Hx. destruct Hx as [-> | Hx]; [lia|].
      apply Hy, Hx.
Qed.

Lemma sort_sorted (l : list Z) : StronglySorted Z.le (sort l).
Proof.
  unfold sort. induction l as [|x t IH]; cbn [fold_right].
  - constructor.
  - apply insert_sorted_sorted, IH.
Qed.

Lemma sorted_nth_le (l : list Z) :
  StronglySorted Z.le l ->
  forall i j, (i <= j)%nat -> (j < List.length l)%nat ->
  nth i l 0 <= nth j l 0.
Proof.
  induction 1 as [|x t Ht IH Hx]; intros i j Hij Hj; [cbn in Hj; lia|].
  destruct i as [|i]; destruct j as [|j]; cbn [nth]; try lia.
  - rewrite Forall_forall in Hx. apply Hx. apply nth_In. cbn in Hj. lia.
  - apply IH; [lia | cbn in Hj; lia].
Qed.

Lemma inject_Z_minus (x y : Z) :
  inject_Z (x - y) = (inject_Z x - inject_Z y)%Q.
Proof.
  unfold Z.sub, Qminus. rewrite inject_Z_plus, inject_Z_opp. reflexivity.
Qed.

Lemma lerp_bounds (a b g : Q) :
  (a <= b)%Q -> (0 <= g)%Q -> (g <= 1)%Q ->
  (a <= a + g * (b - a))%Q /\ (a + g * (b - a) <= b)%Q.
Proof.
  intros Hab Hg0 Hg1.
  assert (H0 : (0 <= g * (b - a))%Q) by (apply Qmult_le_0_compat; lra).
  assert (H1 : (g * (b - a) <= 1 * (b - a))%Q)
    by (apply Qmult_le_compat_r; lra).
  split; lra.
Qed.

(** The percentile interpolated at a rank between 0 and the last one. *)
Lemma percentile_mono_ranks (s : list Z) (v1 v2 : Q) :
  StronglySorted Z.le s ->
  (0 <= v1)%Q -> (v1 <= v2)%Q ->
  (v2 <= inject_Z (Z.of_nat (List.length s) - 1))%Q ->
  let n := Z.of_nat (List.length s) in
  let interp := fun v : Q =>
    let lo := Qfloor v in
    let hi := Z.min (lo + 1) (n - 1) in
    (inject_Z (nth (Z.to_nat lo) s 0%Z)
     + (v - inject_Z lo)
       * inject_Z (nth (Z.to_nat hi) s 0%Z - nth (Z.to_nat lo) s 0%Z))%Q in
  (interp v1 <= interp v2)%Q.
Proof.
  intros Hs H0 H12 Hn n interp. unfold interp. clear interp.
  pose proof (Qfloor_le v1) as F1. pose proof (Qlt_floor v1) as G1.
  pose proof (Qfloor_le v2) as F2. pose proof (Qlt_floor v2) as G2.
  pose proof (Qfloor_nonneg v1 H0) as N1.
  pose proof (Qfloor_resp_le v1 v2 H12) as L12.
  assert (L2 : Qfloor v2 <= n - 1).
  { rewrite <- (Qfloor_Z (n - 1)). apply Qfloor_resp_le. exact Hn. }
  set (lo1 := Qfloor v1) in *. set (lo2 := Qfloor v2) in *.
  set (hi1 := Z.min (lo1 + 1) (n - 1)). set (hi2 := Z.min (lo2 + 1) (n - 1)).
  assert (Hnth : forall i j, 0 <= i -> i <= j -> j <= n - 1 ->
                 nth (Z.to_nat i) s 0 <= nth (Z.to_nat j) s 0).
  { intros i j Hi Hij Hj. apply sorted_nth_le; [exact Hs | lia | unfold n in Hj; lia]. }
  set (a1 := nth (Z.to_nat lo1) s 0). set (b1 := nth (Z.to_nat hi1) s 0).
  set (a2 := nth (Z.to_nat lo2) s 0). set (b2 := nth (Z.to_nat hi2) s 0).
  assert (Hab1 : a1 <= b1) by (apply Hnth; unfold hi1; lia).
  assert (Hab2 : a2 <= b2) by (apply Hnth; unfold hi2; lia).
  rewrite Zle_Qle in Hab1, Hab2.
  assert (Hg1 : (0 <= v1 - inject_Z lo1 <= 1)%Q) by (split; qlra).
  assert (Hg2 : (0 <= v2 - inject_Z lo2 <= 1)%Q) by (split; qlra).
  fold a1 b1 a2 b2. rewrite !inject_Z_minus.
  destruct (lerp_bounds (inject_Z a1) (inject_Z b1) (v1 - inject_Z lo1))
    as [P1lo P1hi]; [exact Hab1 | apply Hg1 | apply Hg1 |].
  destruct (lerp_bounds (inject_Z a2) (inject_Z b2) (v2 - inject_Z lo2))
    as [P2lo P2hi]; [exact Hab2 | apply Hg2 | apply Hg2 |].
  unfold Qminus in *.
  destruct (Z.eq_dec lo1 lo2) as [Heq | Hne].
  - assert (Ea : a1 = a2) by (unfold a1, a2; rewrite Heq; reflexivity).
    assert (Eb : b1 = b2)
      by (unfold b1, b2, hi1, hi2; rewrite Heq; reflexivity).
    rewrite <- Ea, <- Eb, <- Heq in *.
    assert (Hm : ((v1 + - inject_Z lo1) * (inject_Z b1 + - inject_Z a1)
                  <= (v2 + - inject_Z lo1) * (inject_Z b1 + - inject_Z a1))%Q)
      by (apply Qmult_le_compat_r; lra).
    lra.
  - assert (Hba : b1 <= a2) by (apply Hnth; unfold hi1; lia).
    rewrite Zle_Qle in Hba. lra.
Qed.

Lemma percentile_2_le_98 (arr : list Z) :
  (percentile arr 2 <= percentile arr 98)%Q.
Proof.
  destruct (sort arr) as [|x t] eqn:Es.
  - unfold percentile. rewrite Es. cbv zeta.
    assert (Hnil : forall k, nth k (@nil Z) 0 = 0) by (intros [|k]; reflexivity).
    rewrite !Hnil. change (inject_Z (0 - 0)) with 0%Q.
    rewrite !Qmult_0_r. apply Qle_refl.
  - pose proof (percentile_mono_ranks (sort arr)
                  (2 / 100 * inject_Z (Z.of_nat (List.length (sort arr)) - 1))
                  (98 / 100 * inject_Z (Z.of_nat (List.length (sort arr)) - 1))
                  (sort_sorted arr)) as H.
    assert (Hm : (0 <= inject_Z (Z.of_nat (List.length (sort arr)) - 1))%Q).
    { change 0%Q with (inject_Z 0). rewrite <- Zle_Qle.
      rewrite Es. cbn [List.length]. lia. }
    unfold percentile. cbv zeta. cbv zeta in H.
    assert (E2 : (2 / 100 == 1 # 50)%Q) by reflexivity.
    assert (E98 : (98 / 100 == 49 # 50)%Q) by reflexivity.
    apply H; set (m := inject_Z _) in *; clearbody m; rewrite ?E2, ?E98; lra.
Qed.

Lemma range_val_pos (p2 p98 : Q) :
  (p2 <= p98)%Q -> (0 < range_val p2 p98)%Q.
Proof.
  intro H. unfold range_val.
  destruct (Qeq_bool (p98 - p2) 0) eqn:E; [reflexivity|].
  apply Qeq_bool_neq in E.
  destruct (Qlt_le_dec 0 (p98 - p2)) as [Hpos | Hle]; [exact Hpos|].
  exfalso. apply E. lra.
Qed.

Lemma Qmin_case (a b : Q) (P : Q -> Prop) :
  ((a <= b)%Q -> P a) -> ((b < a)%Q -> P b) -> P (Qmin a b).
Proof.
  intros Ha Hb. destruct (Qmin_spec a b) as [[H ->] | [H ->]]; auto.
Qed.

Lemma Qmax_case (a b : Q) (P : Q -> Prop) :
  ((a <= b)%Q -> P b) -> ((b < a)%Q -> P a) -> P (Qmax a b).
Proof.
  intros Ha Hb. destruct (Qmax_spec a b) as [[H ->] | [H ->]]; auto.
Qed.

Lemma clip255_bounds (x : Q) : (0 <= clip255 x <= 255)%Q.
Proof.
  unfold clip255.
  repeat match goal with
  | |- context [Qmin ?a ?b] =>
      pattern (Qmin a b); apply Qmin_case; cbv beta; intro
  | |- context [Qmax ?a ?b] =>
      pattern (Qmax a b); apply Qmax_case; cbv beta; intro
  end; split; lra.
Qed.

Lemma clip255_mono (x y : Q) : (x <= y)%Q -> (clip255 x <= clip255 y)%Q.
Proof.
  intro H. unfold clip255.
  repeat match goal with
  | |- context [Qmin ?a ?b] =>
      pattern (Qmin a b); apply Qmin_case; cbv beta; intro
  | |- context [Qmax ?a ?b] =>
      pattern (Qmax a b); apply Qmax_case; cbv beta; intro
  end; lra.
Qed.

Lemma calibrate_value_floor (p2 rv : Q) (v : Z) :
  calibrate_value p2 rv v
  = Qfloor (clip255 ((inject_Z v - p2) / rv * 255)).
Proof.
  unfold calibrate_value, astype_uint8. apply py_int_floor.
  apply clip255_bounds.
Qed.

Lemma calibrate_value_bounds (p2 rv : Q) (v : Z) :
  0 <= calibrate_value p2 rv v <= 255.
Proof.
  rewrite calibrate_value_floor.
  destruct (clip255_bounds ((inject_Z v - p2) / rv * 255)) as [H0 H1].
  split.
  - apply Qfloor_nonneg, H0.
  - rewrite <- (Qfloor_Z 255). apply Qfloor_resp_le. exact H1.
Qed.

Lemma calibrate_value_mono (p2 rv : Q) (v v' : Z) :
  (0 < rv)%Q -> v <= v' ->
  calibrate_value p2 rv v <= calibrate_value p2 rv v'.
Proof.
  intros Hrv Hv. unfold calibrate_value, astype_uint8.
  apply py_int_mono, clip255_mono.
  apply Qmult_le_compat_r; [|lra].
  unfold Qdiv. apply Qmult_le_compat_r.
  - rewrite Zle_Qle in Hv. lra.
  - apply Qlt_le_weak, Qinv_lt_0_compat, Hrv.
Qed.

(** C7 (as amended).  The calibrated value of a pixel is the linear map
    of [p2, p98] onto [0, 255] with the range replaced by 1 when the two
    percentiles are equal, clipped to [0, 255] and cut down to its integer
    part by the 8-bit cast; it lies in [0, 255] and never decreases when the
    source intensity grows. *)
Theorem calibration_range_and_monotone (arr : list Z) :
  let p2 := percentile arr 2 in
  let p98 := percentile arr 98 in
  let rv := range_val p2 p98 in
  normalize_array arr
  = map (fun v => Qfloor (clip255 ((inject_Z v - p2) / rv * 255))) arr
  /\ (rv == (if Qeq_bool (p98 - p2) 0 then 1 else p98 - p2))%Q
  /\ Forall (fun c => 0 <= c <= 255) (normalize_array arr)
  /\ (forall v v' : Z,
        v <= v' -> calibrate_value p2 rv v <= calibrate_value p2 rv v').
Proof.
  intros p2 p98 rv. split.
  - unfold normalize_array. fold p2 p98 rv. apply map_ext.
    intro v. apply calibrate_value_floor.
  - split; [unfold rv, range_val; destruct (Qeq_bool _ _); reflexivity|].
    split.
    + unfold normalize_array. apply Forall_forall. intros c Hc.
      apply in_map_iff in Hc. destruct Hc as (v & <- & _).
      apply calibrate_value_bounds.
    + intros v v' Hv. apply calibrate_value_mono; [|exact Hv].
      apply range_val_pos, percentile_2_le_98.
Qed.

(** ** Otsu threshold *)

Lemma calculate_otsu_threshold_argmax (pixels : list Z) :
  pixels <> [] ->
  calculate_otsu_threshold pixels = argmax (otsu_between_var pixels).
Proof.
  intro Hne. unfold calculate_otsu_threshold, otsu_between_var. cbv zeta.
  destruct pixels as [|p ps]; [congruence|].
  destruct (Z.of_nat (List.length (p :: ps)) =? 0) eqn:E;
    [cbn [List.length] in E; apply Z.eqb_eq in E; lia|].
  reflexivity.
Qed.

Lemma forallb_Forall {A} (f : A -> bool) (P : A -> Prop) (l : list A) :
  (forall x, f x = true -> P x) -> forallb f l = true -> Forall P l.
Proof.
  intros H Hl. apply Forall_forall. intros x Hx.
  apply H. rewrite forallb_forall in Hl. now apply Hl.
Qed.

(** C5 (as amended).  On 1000 samples of value 10 and 1000 of value 200
    the threshold is the argmax of the between-class variances; these are
    9025 on every candidate from 10 to 199 and 0 on the others (so below
    9025 before 10 and at most 9025 everywhere), and the first maximal
    candidate, 10, is returned: at the lower value and below the upper one.
    With [pixel > t] it separates the two groups: exactly the samples of
    value 200 are above it. *)
Theorem otsu_bimodal_threshold :
  let between_var := otsu_between_var bimodal_sample in
  let t := calculate_otsu_threshold bimodal_sample in
  t = argmax between_var
  /\ t = 10
  /\ 10 <= t < 200
  /\ List.length between_var = 256%nat
  /\ Forall (fun v => v == 9025)%Q (firstn 190 (skipn 10 between_var))
  /\ Forall (fun v => v == 0)%Q (firstn 10 between_var)
  /\ Forall (fun v => v == 0)%Q (skipn 200 between_var)
  /\ Forall (fun v => v < 9025)%Q (firstn 10 between_var)
  /\ Forall (fun v => v <= 9025)%Q between_var
  /\ filter (fun p => pixel_gt p (Finite (inject_Z t))) bimodal_sample
     = repeat 200 1000
  /\ filter (fun p => negb (pixel_gt p (Finite (inject_Z t)))) bimodal_sample
     = repeat 10 1000.
Proof.
  intros between_var t.
  assert (Ht : t = 10) by (vm_compute; reflexivity).
  assert (Hne : bimodal_sample <> []) by (unfold bimodal_sample; discriminate).
  split; [apply calculate_otsu_threshold_argmax, Hne|].
  split; [exact Ht|]. split; [rewrite Ht; lia|].
  split; [vm_compute; reflexivity|].
  split.
  { apply (forallb_Forall (fun v => Qeq_bool v 9025)).
    - intros v Hv. now apply Qeq_bool_iff.
    - vm_compute. reflexivity. }
  split.
  { apply (forallb_Forall (fun v => Qeq_bool v 0)).
    - intros v Hv. now apply Qeq_bool_iff.
    - vm_compute. reflexivity. }
  split.
  { apply (forallb_Forall (fun v => Qeq_bool v 0)).
    - intros v Hv. now apply Qeq_bool_iff.
    - vm_compute. reflexivity. }
  split.
  { apply (forallb_Forall (fun v => Qltb v 9025)).
    - intros v Hv. now apply Qltb_lt.
    - vm_compute. reflexivity. }
  split.
  { apply (forallb_Forall (fun v => Qle_bool v 9025)).
    - intros v Hv. now apply Qle_bool_iff.
    - vm_compute. reflexivity. }
  rewrite Ht. split; vm_compute; reflexivity.
Qed.

(** ** Frame properties of the callbacks *)

Section Properties.

Variable resize : image -> Z * Z -> image.
Variable GaussianBlur : Q -> image -> image.
Variable Contrast_enhance : Q -> image -> image.
Variable Brightness_enhance : Q -> image -> image.
Variable polygon_mask : Z -> Z -> list (Q * Q) -> list bool.
Variable Image_open : string -> option image.

Local Abbreviation filters :=
  (apply_filters_to_image GaussianBlur Contrast_enhance Brightness_enhance).
Local Abbreviation render a :=
  (state_of
     (render_view resize GaussianBlur Contrast_enhance Brightness_enhance a)).
Local Abbreviation reset a :=
  (state_of
     (reset_current_view resize GaussianBlur Contrast_enhance
        Brightness_enhance a)).
Local Abbreviation load :=
  (load_image_from_disk resize GaussianBlur Contrast_enhance
     Brightness_enhance Image_open).
Local Abbreviation zoom_out :=
  (zoom_out_step resize GaussianBlur Contrast_enhance Brightness_enhance).
Local Abbreviation zoom_in start end_ a :=
  (state_of
     (apply_zoom resize GaussianBlur Contrast_enhance Brightness_enhance
        start end_ a)).
Local Abbreviation draw_mode :=
  (activate_draw_mode resize GaussianBlur Contrast_enhance Brightness_enhance).
Local Abbreviation calculate :=
  (calculate_only GaussianBlur Contrast_enhance Brightness_enhance
     polygon_mask).
Local Abbreviation save :=
  (save_and_next resize GaussianBlur Contrast_enhance Brightness_enhance
     Image_open).
Local Abbreviation discard :=
  (discard_and_next resize GaussianBlur Contrast_enhance Brightness_enhance
     Image_open).
Local Abbreviation run_ops :=
  (run_zoom_ops resize GaussianBlur Contrast_enhance Brightness_enhance).

Lemma render_view_frame (a : app) : same_session a (render a).
Proof.
  unfold render_view, canvas_geometry, image_size.
  destruct (view_crop_raw a) as [view|] eqn:E; [|now constructor].
  app_read.
  destruct (canvas_size a) as [cw ch] eqn:Ec.
  destruct (cw <? 10); app_read;
    destruct ((width view =? 0) || (height view =? 0)); app_read;
    try (constructor; app_read; auto; fail);
    (destruct ((fst _ <? 1) || (snd _ <? 1)); app_read;
     [constructor; app_read; auto|]);
    destruct (show_red_overlay a); constructor; app_read; auto.
Qed.

Lemma reset_current_view_frame (a : app) :
  results_rows (reset a) = results_rows a
  /\ current_index (reset a) = current_index a
  /\ files (reset a) = files a
  /\ messages (reset a) = messages a.
Proof.
  unfold reset_current_view. app_read.
  destruct (original_raw_image a); [|app_read; auto].
  match goal with
  | |- context [render ?s] => destruct (render_view_frame s) as [F1 F2 _ _ _ _ _ F3 F4 _]
  end.
  rewrite F1, F2, F3, F4. app_read. auto.
Qed.

Lemma load_image_from_disk_frame (a : app) :
  results_rows (load a) = results_rows a
  /\ current_index (load a) = current_index a
  /\ files (load a) = files a.
Proof.
  unfold load_image_from_disk. app_read.
  destruct (Z.of_nat (List.length (files a)) <=? current_index a);
    [app_read; auto|].
  destruct (Image_open _); [|app_read; auto].
  app_read.
  match goal with
  | |- context [reset_current_view ?r ?g ?c ?b ?s] =>
      destruct (reset_current_view_frame s) as (F1 & F2 & F3 & _);
      destruct (reset_current_view r g c b s) as [a'|a']
  end; cbn [state_of] in F1, F2, F3; app_read; rewrite F1, F2, F3;
    app_read; auto.
Qed.

(** What [calculate_only] stores when the guard passes, the crop succeeds
    and is not empty, and the polygon has the two points it needs. *)
Lemma calculate_only_result (a : app) (orig roi_crop : image)
    (min_x min_y max_x max_y : Z) :
  2 <= Z.of_nat (List.length (drawing_points a)) ->
  original_raw_image a = Some orig ->
  roi_bounding_box (real_points_of a) = (min_x, min_y, max_x, max_y) ->
  crop orig (inject_Z min_x, inject_Z min_y, inject_Z max_x, inject_Z max_y)
  = Some roi_crop ->
  0 < width roi_crop -> 0 < height roi_crop ->
  current_calculated_value (calculate a)
  = Some (innervation_index (algo_mode a) (ent_cutoff a)
            (image_array
               (filters roi_crop (adj_contrast a) (adj_brightness a)
                  (adj_noise a)))
            (polygon_mask (width roi_crop) (height roi_crop)
               (map (fun '(rx, ry) =>
                       ((rx - inject_Z min_x)%Q, (ry - inject_Z min_y)%Q))
                    (real_points_of a))))
  /\ messages (calculate a) = messages a.
Proof.
  intros Hpts Horig Hbox Hcrop _ _. unfold calculate_only.
  assert (Hlen : (Z.of_nat (List.length
                    (map (fun '(rx, ry) =>
                            ((rx - inject_Z min_x)%Q, (ry - inject_Z min_y)%Q))
                         (real_points_of a))) <? 2) = false).
  { apply Z.ltb_ge. unfold real_points_of. now rewrite !length_map. }
  destruct (drawing_points a) as [|p ps]; [cbn [List.length] in Hpts; lia|].
  rewrite Hbox, Horig, Hcrop. cbv beta iota zeta. rewrite Hlen.
  app_read. split; reflexivity.
Qed.

(** Whatever [calculate_only] stores is an index it computed, unless it
    stored nothing new. *)
Lemma calculate_only_value (a : app) :
  current_calculated_value (calculate a) = current_calculated_value a
  \/ exists img_data mask,
       current_calculated_value (calculate a)
       = Some (innervation_index (algo_mode a) (ent_cutoff a) img_data mask).
Proof.
  unfold calculate_only.
  destruct (drawing_points a) as [|p ps]; [left; app_read; reflexivity|].
  destruct (roi_bounding_box (real_points_of a)) as [[[min_x min_y] max_x] max_y].
  destruct (original_raw_image a) as [orig|]; [|left; reflexivity].
  destruct (crop orig _) as [roi_crop|]; [|left; reflexivity].
  destruct (Z.of_nat (List.length _) <? 2); [left; reflexivity|].
  right. app_read. eexists. eexists. reflexivity.
Qed.


(** ** IndexCalculator *)

(** C2.  Whatever the mask, the adjusted pixel data and the threshold
    configuration, the index is a number in [0, 100]; when every selected
    pixel is 0 it is exactly 0; and a value that [calculate_only] stores over
    an empty slot is such an index. *)
Theorem index_in_range (a : app) (algo : AlgoMode)
    (ent : option pyfloat) (img_data : list Z) (mask : list bool) :
  (0 <= innervation_index algo ent img_data mask <= 100)%Q
  /\ (Forall (fun p => p = 0) (select_mask img_data mask) ->
      innervation_index algo ent img_data mask = 0%Q)
  /\ (forall v,
        current_calculated_value a = None ->
        current_calculated_value (calculate a) = Some v ->
        (0 <= v <= 100)%Q).
Proof.
  split; [apply innervation_index_bounds|]. split.
  - intro Hz. unfold innervation_index.
    rewrite (valid_pixels_all_zero _ Hz). reflexivity.
  - intros v Hnone Hv.
    destruct (calculate_only_value a) as [Hsame | (d & m & Hidx)].
    + rewrite Hsame, Hnone in Hv. discriminate.
    + rewrite Hidx in Hv. injection Hv as <-. apply innervation_index_bounds.
Qed.

(** ** BatchController *)

(** C6.  With a computed value and a current file, Save-and-next appends
    exactly one row after the rows already written and moves the cursor by
    one; Discard-and-next moves the cursor by one and leaves the rows as they
    are. *)
Theorem save_and_discard_advance (a : app) (v : Q) (filename : string) :
  current_calculated_value a = Some v ->
  nth_error (files a) (Z.to_nat (current_index a)) = Some filename ->
  (results_rows (save a) = results_rows a ++ [(filename, v)]
   /\ current_index (save a) = current_index a + 1)
  /\ (results_rows (discard a) = results_rows a
      /\ current_index (discard a) = current_index a + 1).
Proof.
  intros Hv Hfile. split.
  - unfold save_and_next. rewrite Hv, Hfile. app_read.
    match goal with
    | |- context [load ?s] =>
        destruct (load_image_from_disk_frame s) as (F1 & F2 & _)
    end.
    rewrite F1, F2. app_read. split; reflexivity.
  - unfold discard_and_next. app_read.
    match goal with
    | |- context [load ?s] =>
        destruct (load_image_from_disk_frame s) as (F1 & F2 & _)
    end.
    rewrite F1, F2. app_read. split; reflexivity.
Qed.

(** ** ThresholdEngine: the adjustment pipeline *)





(** ** ROIEditor *)

(** C3 (the run that shows the divergence).  After two clicks the closing
    gesture changes nothing: no polygon is drawn, the two points stay.  The
    Calculate button is enabled and [calculate_only] then shows no warning
    and stores a computed value. *)
Theorem two_point_roi_is_measured :
  let a := two_point_roi resize GaussianBlur Contrast_enhance
             Brightness_enhance in
  drawing_points a = [(300, 100); (400, 200)]
  /\ overlay a = [Oval 300 100; Oval 400 200; Line 300 100 400 200]
  /\ btn_calc a = true
  /\ current_calculated_value a = None
  /\ messages (calculate a) = []
  /\ exists v, current_calculated_value (calculate a) = Some v.
Proof.
  intro a.
  assert (Hpts : drawing_points a = [(300, 100); (400, 200)])
    by (vm_compute; reflexivity).
  split; [exact Hpts|].
  split; [vm_compute; reflexivity|].
  split; [vm_compute; reflexivity|].
  split; [vm_compute; reflexivity|].
  assert (Hne : 2 <= Z.of_nat (List.length (drawing_points a)))
    by (rewrite Hpts; cbn [List.length]; lia).
  assert (Horig : original_raw_image a = Some (flat_image 40 60 100))
    by (vm_compute; reflexivity).
  assert (Hbox : roi_bounding_box (real_points_of a) = (10, 10, 20, 20))
    by (vm_compute; reflexivity).
  assert (Hsize : option_map image_size
                    (crop (flat_image 40 60 100)
                       (inject_Z 10, inject_Z 10, inject_Z 20, inject_Z 20))
                  = Some (10, 10)) by (vm_compute; reflexivity).
  destruct (crop (flat_image 40 60 100)
              (inject_Z 10, inject_Z 10, inject_Z 20, inject_Z 20))
    as [roi_crop|] eqn:Hcrop; [|discriminate].
  cbn [option_map] in Hsize. unfold image_size in Hsize.
  injection Hsize as Hw Hh.
  destruct (calculate_only_result a _ roi_crop _ _ _ _ Hne Horig Hbox Hcrop)
    as [Hval Hmsg]; [lia | lia |].
  split.
  - rewrite Hmsg. vm_compute. reflexivity.
  - eexists. exact Hval.
Qed.

(** C1 (the run that shows the divergence).  For a triangle whose right
    side lies right of a 40-pixel-wide image, the lower ends of the bounding
    box are clamped at 0 but its right end, 50, is past the image width. *)
Theorem roi_box_exceeds_image :
  let a := roi_past_right_edge resize GaussianBlur Contrast_enhance
             Brightness_enhance in
  option_map image_size (original_raw_image a) = Some (40, 60)
  /\ roi_bounding_box (real_points_of a) = (10, 10, 50, 50)
  /\ 40 < 50.
Proof.
  intro a. split; [vm_compute; reflexivity|].
  split; [vm_compute; reflexivity|lia].
Qed.

(** ** ViewTransform *)

(** C4 (the run that shows the divergence).  One zoom-in on the full view
    of a 200 x 150 image, from canvas x = 401 to the right edge: the stored
    origin is 100.25, the crop is 100 wide, and their sum is past 200. *)
Theorem zoom_in_breaks_view_bounds :
  let a := fractional_zoom_in resize GaussianBlur Contrast_enhance
             Brightness_enhance in
  option_map image_size (original_raw_image a) = Some (200, 150)
  /\ option_map image_size (view_crop_raw a) = Some (100, 150)
  /\ (fst (view_offset a) == 401 # 4)%Q
  /\ ~ (fst (view_offset a) + 100 <= 200)%Q.
Proof.
  intro a. split; [vm_compute; reflexivity|].
  split; [vm_compute; reflexivity|].
  split; [vm_compute; reflexivity|].
  vm_compute. intro H. apply H. reflexivity.
Qed.

(** ** What the zoom callbacks do to the view state *)

Lemma zoom_out_step_spec (a : app) (view orig : image) :
  view_crop_raw a = Some view ->
  original_raw_image a = Some orig ->
  zoom_out a = a
  \/ (original_raw_image (zoom_out a) = Some orig
      /\ view_offset (zoom_out a)
         = (inject_Z (zoom_out_lo (fst (view_offset a)) (width view)),
            inject_Z (zoom_out_lo (snd (view_offset a)) (height view)))
      /\ ((exists c,
              view_crop_raw (zoom_out a) = Some c
              /\ width c
                 = zoom_out_hi (fst (view_offset a)) (width view) (width orig)
                   - zoom_out_lo (fst (view_offset a)) (width view)
              /\ height c
                 = zoom_out_hi (snd (view_offset a)) (height view) (height orig)
                   - zoom_out_lo (snd (view_offset a)) (height view)
              /\ 0 <= width c /\ 0 <= height c)
          \/ (view_crop_raw (zoom_out a) = Some view
              /\ (zoom_out_hi (fst (view_offset a)) (width view) (width orig)
                  < zoom_out_lo (fst (view_offset a)) (width view)
                  \/ zoom_out_hi (snd (view_offset a)) (height view) (height orig)
                     < zoom_out_lo (snd (view_offset a)) (height view))))).
Proof.
  intros Hv Ho. unfold zoom_out_step. rewrite Hv, Ho.
  unfold image_size, zoom_out_lo, zoom_out_hi. cbv beta iota zeta.
  destruct ((width orig <=? width view) && (height orig <=? height view));
    [left; reflexivity|].
  right.
  set (x1 := Z.max 0 _). set (y1 := Z.max 0 _).
  set (x2 := Z.min (width orig) _). set (y2 := Z.min (height orig) _).
  unfold crop.
  destruct (Qltb (inject_Z x2) (inject_Z x1) || Qltb (inject_Z y2) (inject_Z y1))
    eqn:E.
  - app_read. split; [exact Ho|]. split; [reflexivity|]. right.
    split; [exact Hv|].
    apply orb_true_iff in E.
    destruct E as [E|E]; apply Qltb_lt in E; rewrite <- Zlt_Qlt in E; auto.
  - apply orb_false_iff in E. destruct E as [Ex Ey].
    apply Qltb_ge in Ex, Ey. rewrite <- Zle_Qle in Ex, Ey.
    match goal with
    | |- context [render ?s] => destruct (render_view_frame s) as [_ _ F1 F2 F3 _ _ _ _ _]
    end.
    rewrite F1, F2, F3. app_read.
    split; [exact Ho|]. split; [reflexivity|]. left.
    eexists. split; [reflexivity|]. cbn [width height].
    rewrite !py_round_inject_Z. repeat split; lia.
Qed.

Lemma zoom_in_lo_nonneg (w : Z) (p1 p2 : Q) : (0 <= zoom_in_lo w p1 p2)%Q.
Proof.
  unfold zoom_in_lo.
  destruct (Qmin_spec (Qmax 0 (Qmin (inject_Z w) p1))
                      (Qmax 0 (Qmin (inject_Z w) p2))) as [[_ ->] | [_ ->]].
  - destruct (Qmax_spec 0 (Qmin (inject_Z w) p1)) as [[H ->] | [H ->]]; lra.
  - destruct (Qmax_spec 0 (Qmin (inject_Z w) p2)) as [[H ->] | [H ->]]; lra.
Qed.

Lemma zoom_in_lo_le_hi (w : Z) (p1 p2 : Q) :
  (zoom_in_lo w p1 p2 <= zoom_in_hi w p1 p2)%Q.
Proof.
  unfold zoom_in_lo, zoom_in_hi.
  set (c1 := Qmax 0 (Qmin (inject_Z w) p1)).
  set (c2 := Qmax 0 (Qmin (inject_Z w) p2)).
  destruct (Qmin_spec c1 c2) as [[H1 ->] | [H1 ->]];
    destruct (Qmax_spec c1 c2) as [[H2 ->] | [H2 ->]]; lra.
Qed.

Lemma apply_zoom_spec (a : app) (view : image) (start end_ : Z * Z) :
  view_crop_raw a = Some view ->
  let px := fun p => (inject_Z (p - canvas_offset_x a) / display_scale a)%Q in
  let py := fun p => (inject_Z (p - canvas_offset_y a) / display_scale a)%Q in
  let x1 := zoom_in_lo (width view) (px (fst start)) (px (fst end_)) in
  let x2 := zoom_in_hi (width view) (px (fst start)) (px (fst end_)) in
  let y1 := zoom_in_lo (height view) (py (snd start)) (py (snd end_)) in
  let y2 := zoom_in_hi (height view) (py (snd start)) (py (snd end_)) in
  (original_raw_image (zoom_in start end_ a) = original_raw_image a
   /\ view_crop_raw (zoom_in start end_ a) = Some view
   /\ view_offset (zoom_in start end_ a) = view_offset a)
  \/ ((x1 + 10 <= x2)%Q /\ (y1 + 10 <= y2)%Q
      /\ original_raw_image (zoom_in start end_ a) = original_raw_image a
      /\ view_offset (zoom_in start end_ a)
         = ((fst (view_offset a) + x1)%Q, (snd (view_offset a) + y1)%Q)
      /\ exists c,
          view_crop_raw (zoom_in start end_ a) = Some c
          /\ width c = py_round x2 - py_round x1
          /\ height c = py_round y2 - py_round y1).
Proof.
  intros Hv. cbv zeta. unfold apply_zoom. rewrite Hv.
  unfold image_size, clamp_to. cbv beta iota zeta.
  set (p1 := (inject_Z (fst start - canvas_offset_x a) / display_scale a)%Q).
  set (p2 := (inject_Z (fst end_ - canvas_offset_x a) / display_scale a)%Q).
  set (r1 := (inject_Z (snd start - canvas_offset_y a) / display_scale a)%Q).
  set (r2 := (inject_Z (snd end_ - canvas_offset_y a) / display_scale a)%Q).
  fold (zoom_in_lo (width view) p1 p2). fold (zoom_in_hi (width view) p1 p2).
  fold (zoom_in_lo (height view) r1 r2). fold (zoom_in_hi (height view) r1 r2).
  set (x1 := zoom_in_lo (width view) p1 p2).
  set (x2 := zoom_in_hi (width view) p1 p2).
  set (y1 := zoom_in_lo (height view) r1 r2).
  set (y2 := zoom_in_hi (height view) r1 r2).
  destruct (Qltb (x2 - x1) 10 || Qltb (y2 - y1) 10) eqn:E.
  - left. app_read. auto.
  - right. apply orb_false_iff in E. destruct E as [Ex Ey].
    apply Qltb_ge in Ex, Ey.
    pose proof (zoom_in_lo_le_hi (width view) p1 p2) as Hx.
    pose proof (zoom_in_lo_le_hi (height view) r1 r2) as Hy.
    fold x1 x2 in Hx. fold y1 y2 in Hy.
    unfold crop.
    assert (Ex' : Qltb x2 x1 = false) by (apply Qltb_ge; exact Hx).
    assert (Ey' : Qltb y2 y1 = false) by (apply Qltb_ge; exact Hy).
    rewrite Ex', Ey'. cbn [orb]. app_read.
    match goal with
    | |- context [and_then (render_view ?r ?g ?c ?b ?s) ?k] =>
        destruct (render_view_frame s) as [_ _ F1 F2 F3 _ _ _ _ _];
        destruct (render_view r g c b s) as [a'|a']
    end; cbn [state_of] in F1, F2, F3; app_read; rewrite F1, F2, F3; app_read;
      (split; [lra|]); (split; [lra|]); (split; [reflexivity|]);
      (split; [reflexivity|]);
      eexists; (split; [reflexivity|]); cbn [width height]; split; reflexivity.
Qed.

(** ** The invariant of zoom sequences *)

Lemma reset_current_view_inv (a : app) (orig : image) :
  original_raw_image a = Some orig ->
  0 <= width orig -> 0 <= height orig ->
  view_inv orig (reset a).
Proof.
  intros Ho Hw Hh. unfold reset_current_view. app_read. rewrite Ho.
  match goal with
  | |- context [render ?s] => destruct (render_view_frame s) as [_ _ F1 F2 F3 _ _ _ _ _]
  end.
  unfold view_inv. rewrite F1, F2, F3. app_read.
  split; [exact Ho|]. exists orig. split; [reflexivity|].
  cbn [fst snd]. repeat split; try assumption; try lra.
  left. exists 0, 0. split; reflexivity.
Qed.

Lemma apply_zoom_inv (a : app) (orig : image) (start end_ : Z * Z) :
  view_inv orig a -> view_inv orig (zoom_in start end_ a).
Proof.
  intros (Ho & view & Hv & Hw & Hh & Hx & Hy & Hcase).
  destruct (apply_zoom_spec a view start end_ Hv)
    as [(E1 & E2 & E3) | (Gx & Gy & E1 & E3 & c & E2 & Wc & Hc)].
  - unfold view_inv. rewrite E1, E2, E3. split; [exact Ho|].
    exists view. auto 10.
  - unfold view_inv. rewrite E1, E2, E3. split; [exact Ho|].
    exists c. split; [reflexivity|]. cbn [fst snd].
    pose proof (py_round_gap _ _ Gx) as Px.
    pose proof (py_round_gap _ _ Gy) as Py.
    rewrite <- Wc in Px. rewrite <- Hc in Py.
    match type of Gx with
    | (zoom_in_lo ?w ?p ?q + _ <= _)%Q =>
        pose proof (zoom_in_lo_nonneg w p q) as Nx
    end.
    match type of Gy with
    | (zoom_in_lo ?w ?p ?q + _ <= _)%Q =>
        pose proof (zoom_in_lo_nonneg w p q) as Ny
    end.
    split; [lia|]. split; [lia|]. split; [lra|]. split; [lra|].
    right. split; lia.
Qed.

Lemma zoom_out_step_inv (a : app) (orig : image) :
  view_inv orig a -> view_inv orig (zoom_out a).
Proof.
  intros Hinv. pose proof Hinv as (Ho & view & Hv & Hw & Hh & Hx & Hy & Hcase).
  destruct (zoom_out_step_spec a view orig Hv Ho)
    as [E | (E1 & E3 & [(c & E2 & _ & _ & Wc & Hc) | (E2 & _)])].
  - rewrite E. exact Hinv.
  - unfold view_inv. rewrite E1, E2, E3. split; [reflexivity|].
    exists c. split; [reflexivity|]. cbn [fst snd].
    destruct (zoom_out_lo_le _ _ Hx Hw) as [Lx _].
    destruct (zoom_out_lo_le _ _ Hy Hh) as [Ly _].
    rewrite Zle_Qle in Lx, Ly.
    repeat split; try assumption.
    left. eexists. eexists. split; reflexivity.
  - unfold view_inv. rewrite E1, E2, E3. split; [reflexivity|].
    exists view. split; [reflexivity|]. cbn [fst snd].
    destruct (zoom_out_lo_le _ _ Hx Hw) as [Lx _].
    destruct (zoom_out_lo_le _ _ Hy Hh) as [Ly _].
    rewrite Zle_Qle in Lx, Ly.
    repeat split; try assumption.
    left. eexists. eexists. split; reflexivity.
Qed.

Lemma run_zoom_ops_inv (ops : list zoom_op) (a : app) (orig : image) :
  0 <= width orig -> 0 <= height orig ->
  view_inv orig a -> view_inv orig (run_ops ops a).
Proof.
  intros Hw Hh. revert a. unfold run_zoom_ops.
  induction ops as [|op ops IH]; intros a Hinv; [exact Hinv|].
  cbn [fold_left]. apply IH. destruct op as [|start end_|]; cbn [run_zoom_op].
  - destruct Hinv as (Ho & _). now apply reset_current_view_inv.
  - now apply apply_zoom_inv.
  - now apply zoom_out_step_inv.
Qed.

Lemma reset_current_view_spec (a : app) (orig : image) :
  original_raw_image a = Some orig ->
  view_crop_raw (reset a) = Some orig /\ view_offset (reset a) = (0%Q, 0%Q).
Proof.
  intro Ho. unfold reset_current_view. app_read. rewrite Ho.
  match goal with
  | |- context [render ?s] => destruct (render_view_frame s) as [_ _ _ F2 F3 _ _ _ _ _]
  end.
  rewrite F2, F3. app_read. split; reflexivity.
Qed.

Lemma zoom_in_lo_le_size (w : Z) (p1 p2 : Q) :
  0 <= w -> (zoom_in_lo w p1 p2 <= inject_Z w)%Q.
Proof.
  intro Hw. rewrite Zle_Qle in Hw. change (inject_Z 0) with 0%Q in Hw.
  unfold zoom_in_lo. set (q := inject_Z w) in *. clearbody q.
  repeat match goal with
  | |- context [Qmin ?a ?b] =>
      pattern (Qmin a b); apply Qmin_case; cbv beta; intro
  | |- context [Qmax ?a ?b] =>
      pattern (Qmax a b); apply Qmax_case; cbv beta; intro
  end; lra.
Qed.

(** After one zoom-in on the full view the stored origin lies inside the
    image. *)
Lemma zoom_in_from_full_view_origin (a0 : app) (orig : image)
    (start end_ : Z * Z) :
  original_raw_image a0 = Some orig ->
  0 <= width orig -> 0 <= height orig ->
  origin_in_image orig (run_ops [ZoomIn start end_] (reset a0)).
Proof.
  intros Ho Hw Hh. unfold run_zoom_ops. cbn [fold_left run_zoom_op].
  destruct (reset_current_view_spec a0 orig Ho) as [Hv Hoff].
  assert (HwQ : (0 <= inject_Z (width orig))%Q).
  { change 0%Q with (inject_Z 0). rewrite <- Zle_Qle. exact Hw. }
  assert (HhQ : (0 <= inject_Z (height orig))%Q).
  { change 0%Q with (inject_Z 0). rewrite <- Zle_Qle. exact Hh. }
  unfold origin_in_image.
  destruct (apply_zoom_spec (reset a0) orig start end_ Hv)
    as [(_ & _ & E3) | (_ & _ & _ & E3 & _)]; rewrite E3, Hoff; cbn [fst snd].
  - split; assumption.
  - match goal with
    | |- ((0 + zoom_in_lo ?w ?p ?q <= _)%Q /\ (0 + zoom_in_lo ?h ?r ?t <= _)%Q) =>
        pose proof (zoom_in_lo_le_size w p q Hw);
        pose proof (zoom_in_lo_le_size h r t Hh)
    end.
    split; lra.
Qed.

Lemma zoom_out_covers_reached (a0 : app) (orig : image) (ops : list zoom_op) :
  original_raw_image a0 = Some orig ->
  0 <= width orig -> 0 <= height orig ->
  origin_in_image orig (run_ops ops (reset a0)) ->
  covers_within (width orig) (height orig)
    (view_rect (zoom_out (run_ops ops (reset a0))))
    (view_rect (run_ops ops (reset a0))).
Proof.
  intros Ho Hw Hh Hin.
  pose proof (run_zoom_ops_inv ops _ orig Hw Hh
                (reset_current_view_inv a0 orig Ho Hw Hh)) as Hinv.
  set (s := run_ops ops (reset a0)) in *.
  destruct Hinv as (Hso & view & Hv & Hvw & Hvh & Hx & Hy & Hcase).
  destruct Hin as [Hix Hiy].
  destruct (zoom_out_step_spec s view orig Hv Hso)
    as [E | (E1 & E3 & [(c & E2 & Wc & Hc & _ & _) | (E2 & Hbad)])].
  - rewrite E. unfold view_rect, covers_within. rewrite Hv.
    destruct (view_offset s) as [ox oy].
    split; [lra|]. split; [lra|]. split.
    + destruct (Qmin_spec (ox + inject_Z (width view)) (inject_Z (width orig)))
        as [[? ->] | [? ->]]; lra.
    + destruct (Qmin_spec (oy + inject_Z (height view)) (inject_Z (height orig)))
        as [[? ->] | [? ->]]; lra.
  - unfold view_rect, covers_within. rewrite E2, E3, Hv.
    destruct (view_offset s) as [ox oy] eqn:Eo. cbn [fst snd] in *.
    destruct (zoom_out_lo_le ox (width view) Hx Hvw) as [_ Lx].
    destruct (zoom_out_lo_le oy (height view) Hy Hvh) as [_ Ly].
    assert (Cx : (exists z, (ox == inject_Z z)%Q) \/ 4 <= width view).
    { destruct Hcase as [(zx & zy & Ex & Ey) | [? ?]];
        [left; exists zx; exact Ex | right; lia]. }
    assert (Cy : (exists z, (oy == inject_Z z)%Q) \/ 4 <= height view).
    { destruct Hcase as [(zx & zy & Ex & Ey) | [? ?]];
        [left; exists zy; exact Ey | right; lia]. }
    pose proof (zoom_out_hi_ge ox (width view) (width orig) Hx Hvw Cx) as Ux.
    pose proof (zoom_out_hi_ge oy (height view) (height orig) Hy Hvh Cy) as Uy.
    rewrite Wc, Hc.
    split; [exact Lx|]. split; [exact Ly|].
    split; push_inject.
    + eapply Qle_trans; [exact Ux|]. hide_inject. lra.
    + eapply Qle_trans; [exact Uy|]. hide_inject. lra.
  - exfalso. destruct (view_offset s) as [ox oy] eqn:Eo. cbn [fst snd] in *.
    pose proof (zoom_out_lo_le_hi ox (width view) (width orig) Hx Hix Hvw).
    pose proof (zoom_out_lo_le_hi oy (height view) (height orig) Hy Hiy Hvh).
    lia.
Qed.

(** In every view state reached from the full view by resets, zoom-ins
    and zoom-outs whose stored crop origin lies inside the image, a zoom-out
    step gives a crop rectangle that covers the one it replaces up to clamping
    at the image boundary; and a zoom-out right after a zoom-in on the full
    view always covers the zoomed-in crop. *)
Theorem zoom_out_covers_previous_crop (a0 : app) (orig : image) :
  original_raw_image a0 = Some orig ->
  0 <= width orig -> 0 <= height orig ->
  (forall ops : list zoom_op,
      origin_in_image orig (run_ops ops (reset a0)) ->
      covers_within (width orig) (height orig)
        (view_rect (zoom_out (run_ops ops (reset a0))))
        (view_rect (run_ops ops (reset a0))))
  /\ (forall start end_ : Z * Z,
        covers_within (width orig) (height orig)
          (view_rect (zoom_out (zoom_in start end_ (reset a0))))
          (view_rect (zoom_in start end_ (reset a0)))).
Proof.
  intros Ho Hw Hh. split.
  - intros ops Hin. now apply zoom_out_covers_reached.
  - intros start end_.
    apply (zoom_out_covers_reached a0 orig [ZoomIn start end_] Ho Hw Hh).
    now apply zoom_in_from_full_view_origin.
Qed.

Lemma covers_within_decide (orig_w orig_h : Z) (new old : Q * Q * Q * Q) :
  covers_within orig_w orig_h new old ->
  covers_withinb orig_w orig_h new old = true.
Proof.
  destruct new as [[[nx0 ny0] nx1] ny1]. destruct old as [[[ox0 oy0] ox1] oy1].
  unfold covers_within, covers_withinb. intros (H1 & H2 & H3 & H4).
  apply Qle_bool_iff in H1, H2, H3, H4. rewrite H1, H2, H3, H4. reflexivity.
Qed.

(** C9 (the run that shows the divergence).  After the forty zoom-ins of
    [drifted_view] the crop is still the 11 x 75 pixels at (189, 20) but the
    stored origin has moved to (204, 20), outside the 200-pixel-wide image.
    The zoom-out step then computes the box (201, 1, 200, 113), stores the
    origin (201, 1) and the crop call refuses the inverted box: the crop
    rectangle becomes (201, 1)-(212, 76), which does not reach down to row
    95 of the rectangle it replaces. *)
Theorem zoom_out_after_drift_loses_crop :
  let s := drifted_view resize GaussianBlur Contrast_enhance
             Brightness_enhance in
  option_map image_size (original_raw_image s) = Some (200, 150)
  /\ option_map image_size (view_crop_raw s) = Some (11, 75)
  /\ (fst (view_offset s) == 204)%Q /\ (snd (view_offset s) == 20)%Q
  /\ view_offset (zoom_out s) = (inject_Z 201, inject_Z 1)
  /\ option_map image_size (view_crop_raw (zoom_out s)) = Some (11, 75)
  /\ ~ covers_within 200 150 (view_rect (zoom_out s)) (view_rect s).
Proof.
  intro s.
  split; [vm_compute; reflexivity|].
  split; [vm_compute; reflexivity|].
  split; [vm_compute; reflexivity|].
  split; [vm_compute; reflexivity|].
  split; [vm_compute; reflexivity|].
  split; [vm_compute; reflexivity|].
  assert (Hb : covers_withinb 200 150 (view_rect (zoom_out s)) (view_rect s)
               = false) by (vm_compute; reflexivity).
  intro H. apply covers_within_decide in H. rewrite Hb in H. discriminate.
Qed.

End Properties.

(** * Concrete instances *)

(** C5: the returned threshold is 10 itself, not a value above 10. *)
Lemma otsu_bimodal_not_strictly_between :
  calculate_otsu_threshold bimodal_sample = 10
  /\ ~ (10 < calculate_otsu_threshold bimodal_sample < 200).
Proof.
  assert (H : calculate_otsu_threshold bimodal_sample = 10)
    by (vm_compute; reflexivity).
  split; [exact H|]. rewrite H. lia.
Qed.

(** C7: on the intensities 0, 1, 2, 3 the third pixel maps to 171.77...;
    the cast keeps 171 where rounding to the nearest integer gives 172. *)
Lemma cast_truncates_where_rounding_differs :
  normalize_array ramp_sample = [0; 83; 171; 255]
  /\ normalize_array_spec ramp_sample = [0; 83; 172; 255]
  /\ normalize_array ramp_sample <> normalize_array_spec ramp_sample.
Proof.
  assert (H1 : normalize_array ramp_sample = [0; 83; 171; 255])
    by (vm_compute; reflexivity).
  assert (H2 : normalize_array_spec ramp_sample = [0; 83; 172; 255])
    by (vm_compute; reflexivity).
  split; [exact H1|]. split; [exact H2|]. rewrite H1, H2. discriminate.
Qed.


Lemma index_in_range_witness :
  Forall (fun p => p = 0) (select_mask [0; 0; 7] [true; true; false])
  /\ innervation_index Otsu None [0; 0; 7] [true; true; false] = 0%Q.
Proof.
  assert (H : Forall (fun p => p = 0) (select_mask [0; 0; 7] [true; true; false]))
    by (repeat constructor).
  split; [exact H|].
  exact (proj1 (proj2 (index_in_range sample_filter sample_filter sample_filter
                         sample_polygon_mask measured_app Otsu None
                         [0; 0; 7] [true; true; false])) H).
Defined.

Lemma default_cutoff_index_is_zero_witness :
  Forall (fun p => 0 <= p <= 255) [0; 10; 200; 255]
  /\ count_if (fun p => pixel_gt p (Finite 2500))
       (valid_pixels_of (select_mask [0; 10; 200; 255] [true; true; true; false]))
     = 0
  /\ (innervation_index CutOff initial_ent_cutoff [0; 10; 200; 255]%Z
        [true; true; true; false] == 0)%Q.
Proof.
  assert (H : Forall (fun p => 0 <= p <= 255) [0; 10; 200; 255])
    by (repeat constructor; lia).
  split; [exact H|].
  exact (default_cutoff_index_is_zero [0; 10; 200; 255]
           [true; true; true; false] H).
Defined.

Lemma save_and_discard_advance_witness :
  current_calculated_value measured_app = Some (25 # 2)
  /\ nth_error (files measured_app) (Z.to_nat (current_index measured_app))
     = Some "a.tif"%string
  /\ (results_rows
        (save_and_next sample_resize sample_filter sample_filter sample_filter
           sample_disk measured_app)
      = results_rows measured_app ++ [("a.tif"%string, 25 # 2)]
      /\ current_index
           (save_and_next sample_resize sample_filter sample_filter
              sample_filter sample_disk measured_app)
         = current_index measured_app + 1)
  /\ (results_rows
        (discard_and_next sample_resize sample_filter sample_filter
           sample_filter sample_disk measured_app)
      = results_rows measured_app
      /\ current_index
           (discard_and_next sample_resize sample_filter sample_filter
              sample_filter sample_disk measured_app)
         = current_index measured_app + 1).
Proof.
  split; [reflexivity|]. split; [reflexivity|].
  exact (save_and_discard_advance sample_resize sample_filter sample_filter
           sample_filter sample_disk measured_app (25 # 2) "a.tif"%string
           eq_refl eq_refl).
Defined.

Lemma calibration_range_and_monotone_witness :
  1 <= 2
  /\ calibrate_value (percentile ramp_sample 2)
       (range_val (percentile ramp_sample 2) (percentile ramp_sample 98)) 1
     <= calibrate_value (percentile ramp_sample 2)
          (range_val (percentile ramp_sample 2) (percentile ramp_sample 98)) 2.
Proof.
  assert (H : 1 <= 2) by lia.
  split; [exact H|].
  exact (proj2 (proj2 (proj2 (calibration_range_and_monotone ramp_sample)))
           1 2 H).
Defined.


Lemma zoom_out_covers_previous_crop_witness :
  original_raw_image (loaded_app (flat_image 200 150 100) (800, 600))
  = Some (flat_image 200 150 100)
  /\ origin_in_image (flat_image 200 150 100)
       (run_zoom_ops sample_resize sample_filter sample_filter sample_filter
          [ZoomIn (401, 0) (800, 600)]
          (state_of
             (reset_current_view sample_resize sample_filter sample_filter
                sample_filter
                (loaded_app (flat_image 200 150 100) (800, 600)))))
  /\ covers_within (width (flat_image 200 150 100))
       (height (flat_image 200 150 100))
       (view_rect
          (zoom_out_step sample_resize sample_filter sample_filter sample_filter
             (run_zoom_ops sample_resize sample_filter sample_filter
                sample_filter [ZoomIn (401, 0) (800, 600)]
                (state_of
                   (reset_current_view sample_resize sample_filter
                      sample_filter sample_filter
                      (loaded_app (flat_image 200 150 100) (800, 600)))))))
       (view_rect
          (run_zoom_ops sample_resize sample_filter sample_filter sample_filter
             [ZoomIn (401, 0) (800, 600)]
             (state_of
                (reset_current_view sample_resize sample_filter sample_filter
                   sample_filter
                   (loaded_app (flat_image 200 150 100) (800, 600)))))).
Proof.
  assert (Hin : origin_in_image (flat_image 200 150 100)
       (run_zoom_ops sample_resize sample_filter sample_filter sample_filter
          [ZoomIn (401, 0) (800, 600)]
          (state_of
             (reset_current_view sample_resize sample_filter sample_filter
                sample_filter
                (loaded_app (flat_image 200 150 100) (800, 600)))))).
  { split; vm_compute; discriminate. }
  assert (Hw : 0 <= width (flat_image 200 150 100)) by (cbn; lia).
  assert (Hh : 0 <= height (flat_image 200 150 100)) by (cbn; lia).
  split; [reflexivity|]. split; [exact Hin|].
  exact (proj1 (zoom_out_covers_previous_crop sample_resize sample_filter
                  sample_filter sample_filter
                  (loaded_app (flat_image 200 150 100) (800, 600))
                  (flat_image 200 150 100) eq_refl Hw Hh)
           [ZoomIn (401, 0) (800, 600)] Hin).
Defined.

(** * Further properties of the code *)

(** ** [calculate_otsu_threshold]: range and degenerate samples *)

Lemma argmax_from_bounds (l : list Q) : forall (i best_i : Z) (best : Q),
  0 <= best_i < i ->
  0 <= argmax_from i best_i best l < i + Z.of_nat (List.length l).
Proof.
  induction l as [|x t IH]; intros i best_i best Hb.
  - simpl. lia.
  - cbn [argmax_from List.length]. rewrite Nat2Z.inj_succ.
    destruct (Qltb best x).
    + specialize (IH (i + 1) i x). lia.
    + specialize (IH (i + 1) best_i best). lia.
Qed.

Lemma argmax_bounds (l : list Q) :
  l <> [] -> 0 <= argmax l < Z.of_nat (List.length l).
Proof.
  destruct l as [|x t]; [congruence|]. intros _.
  unfold argmax. cbn [List.length]. rewrite Nat2Z.inj_succ.
  pose proof (argmax_from_bounds t 1 0 x). lia.
Qed.

Lemma cumsum_from_length (l : list Q) : forall acc,
  List.length (cumsum_from acc l) = List.length l.
Proof.
  induction l as [|x t IH]; intro acc; [reflexivity|].
  cbn [cumsum_from List.length]. cbv zeta. cbn [List.length].
  now rewrite IH.
Qed.

Lemma arange256_length : List.length arange256 = 256%nat.
Proof. unfold arange256. now rewrite length_map, length_seq. Qed.

Lemma otsu_from_hist_norm_range (hist_norm : list Q) :
  List.length hist_norm = 256%nat ->
  0 <= otsu_from_hist_norm hist_norm <= 255.
Proof.
  intro Hlen. unfold otsu_from_hist_norm. cbv zeta.
  match goal with |- _ <= argmax ?l <= _ => set (bv := l) end.
  assert (Hbv : List.length bv = 256%nat).
  { unfold bv. rewrite length_map, length_combine.
    unfold cumsum. rewrite !cumsum_from_length.
    rewrite length_map, length_combine, arange256_length, Hlen.
    reflexivity. }
  clearbody bv.
  assert (Hne : bv <> []) by (intro E; rewrite E in Hbv; discriminate).
  pose proof (argmax_bounds bv Hne) as B. rewrite Hbv in B.
  change (Z.of_nat 256) with 256 in B. lia.
Qed.

Lemma calculate_otsu_threshold_unfold (pixels : list Z) :
  calculate_otsu_threshold pixels =
  if Z.of_nat (List.length pixels) =? 0 then 0
  else otsu_from_hist_norm
         (map (fun h => Qred (inject_Z h /
                              inject_Z (Z.of_nat (List.length pixels))))
              (histogram256 pixels)).
Proof.
  unfold calculate_otsu_threshold, otsu_from_hist_norm. cbv zeta.
  destruct (Z.of_nat (List.length pixels) =? 0); reflexivity.
Qed.

(** X1. Whatever the sample (empty, out of the 0..256 range, of any length),
    the threshold [calculate_otsu_threshold] returns is a grey level between
    0 and 255. *)
Theorem otsu_threshold_range (pixels : list Z) :
  0 <= calculate_otsu_threshold pixels <= 255.
Proof.
  rewrite calculate_otsu_threshold_unfold.
  destruct (Z.of_nat (List.length pixels) =? 0); [lia|].
  apply otsu_from_hist_norm_range.
  rewrite length_map. unfold histogram256.
  rewrite length_map. apply arange256_length.
Qed.

Lemma count_if_single_value (v i : Z) (pixels : list Z) :
  0 <= v <= 255 -> Forall (eq v) pixels ->
  count_if (in_bin i) pixels =
  if i =? v then Z.of_nat (List.length pixels) else 0.
Proof.
  intros Hv Hall.
  assert (E : in_bin i v = (i =? v)).
  { unfold in_bin. rewrite (Z.eqb_sym v i).
    destruct (Z.eqb_spec v 256); [lia|].
    now rewrite andb_false_r, orb_false_r. }
  unfold count_if. destruct (i =? v).
  - induction Hall as [|p t Hp Ht IH]; [reflexivity|].
    subst p. cbn [filter]. rewrite E. cbn [List.length]. lia.
  - induction Hall as [|p t Hp Ht IH]; [reflexivity|].
    subst p. cbn [filter]. rewrite E. exact IH.
Qed.

Lemma single_value_hist_norm_eq (v : Z) (pixels : list Z) :
  0 <= v <= 255 -> pixels <> [] -> Forall (eq v) pixels ->
  map (fun h => Qred (inject_Z h / inject_Z (Z.of_nat (List.length pixels))))
      (histogram256 pixels) = single_value_hist_norm v.
Proof.
  intros Hv Hne Hall. unfold histogram256, single_value_hist_norm.
  rewrite map_map. apply map_ext. intro i.
  rewrite (count_if_single_value v i pixels Hv Hall).
  assert (Hn : ~ inject_Z (Z.of_nat (List.length pixels)) == 0).
  { destruct pixels; [congruence|]. cbn [List.length].
    unfold Qeq. simpl. lia. }
  destruct (i =? v).
  - change 1%Q with (Qred 1). apply Qred_complete. now field.
  - change 0%Q with (Qred 0). apply Qred_complete.
    change (inject_Z 0) with 0%Q. now field.
Qed.

Lemma otsu_single_value_table :
  forallb (fun v => otsu_from_hist_norm (single_value_hist_norm v) =? 0)
          arange256 = true.
Proof. vm_compute. reflexivity. Qed.

Lemma In_arange256 (v : Z) : 0 <= v <= 255 -> In v arange256.
Proof.
  intro Hv. unfold arange256. apply in_map_iff.
  exists (Z.to_nat v). split; [lia|]. apply in_seq. lia.
Qed.

Lemma otsu_single_value_zero (v : Z) (pixels : list Z) :
  0 <= v <= 255 -> Forall (eq v) pixels ->
  calculate_otsu_threshold pixels = 0.
Proof.
  intros Hv Hall. rewrite calculate_otsu_threshold_unfold.
  destruct (Z.of_nat (List.length pixels) =? 0) eqn:E; [reflexivity|].
  assert (Hne : pixels <> []) by (intro H0; subst; discriminate).
  rewrite (single_value_hist_norm_eq v pixels Hv Hne Hall).
  pose proof otsu_single_value_table as T.
  rewrite forallb_forall in T.
  apply Z.eqb_eq. apply T. now apply In_arange256.
Qed.

Lemma count_if_all {A} (p : A -> bool) (l : list A) :
  Forall (fun x => p x = true) l -> count_if p l = Z.of_nat (List.length l).
Proof.
  intro H. unfold count_if. induction H as [|x t Hx Ht IH]; [reflexivity|].
  cbn [filter]. rewrite Hx. cbn [List.length]. lia.
Qed.

(** X2. A sample whose values are all the same grey level (0..255) has no
    second class to separate: every between-class variance is 0 and
    [calculate_otsu_threshold] returns 0.  So in Otsu mode a region whose
    selected pixels are either 0 or one common grey level [v] gets the
    index 100: the zeros are dropped, the threshold of what remains is 0 and
    every remaining pixel exceeds it. *)
Theorem otsu_single_value_region :
  (forall (v : Z) (pixels : list Z),
      0 <= v <= 255 -> Forall (eq v) pixels ->
      calculate_otsu_threshold pixels = 0)
  /\ (forall (ent_cutoff : option pyfloat) (img_data : list Z)
             (mask : list bool) (v : Z),
        1 <= v <= 255 ->
        Forall (fun p => p = 0 \/ p = v) (select_mask img_data mask) ->
        In v (select_mask img_data mask) ->
        (innervation_index Otsu ent_cutoff img_data mask == 100)%Q).
Proof.
  split; [exact otsu_single_value_zero|].
  intros ent_cutoff img_data mask v Hv Hall Hin.
  unfold innervation_index. cbv zeta.
  set (valid := valid_pixels_of (select_mask img_data mask)).
  assert (Hvalid : Forall (eq v) valid).
  { unfold valid, valid_pixels_of. apply Forall_forall. intros p Hp.
    apply filter_In in Hp. destruct Hp as [Hp Hpos].
    rewrite Forall_forall in Hall. destruct (Hall p Hp); lia. }
  assert (Hne : In v valid).
  { unfold valid, valid_pixels_of. apply filter_In. split; [exact Hin|].
    apply Z.ltb_lt. lia. }
  destruct (Z.of_nat (List.length valid) =? 0) eqn:E.
  - destruct valid; [destruct Hne|discriminate].
  - unfold measure_threshold.
    rewrite (otsu_single_value_zero v valid) by (auto; lia).
    rewrite count_if_all.
    + apply Z.eqb_neq in E.
      assert (Hn : ~ inject_Z (Z.of_nat (List.length valid)) == 0).
      { unfold Qeq. simpl. lia. }
      now field.
    + apply Forall_forall. intros p Hp.
      rewrite Forall_forall in Hvalid. rewrite <- (Hvalid p Hp).
      unfold pixel_gt. apply Qltb_lt. rewrite <- Zlt_Qlt. lia.
Qed.

(** ** The index as a function of the cut-off and of the pixels *)


Lemma count_if_mono {A} (p q : A -> bool) (l : list A) :
  (forall x, p x = true -> q x = true) -> count_if p l <= count_if q l.
Proof.
  intro H. unfold count_if. apply Nat2Z.inj_le.
  induction l as [|x t IH]; [reflexivity|]. cbn [filter].
  destruct (p x) eqn:E.
  - rewrite (H x E). cbn [List.length]. lia.
  - destruct (q x); cbn [List.length]; lia.
Qed.

Lemma percent_mono (c1 c2 n : Z) :
  c1 <= c2 -> 0 < n ->
  (100 * (inject_Z c1 / inject_Z n) <= 100 * (inject_Z c2 / inject_Z n))%Q.
Proof.
  intros Hc Hn.
  assert (Hn' : (0 < inject_Z n)%Q).
  { change 0%Q with (inject_Z 0). rewrite <- Zlt_Qlt. exact Hn. }
  assert (H : (inject_Z c1 / inject_Z n <= inject_Z c2 / inject_Z n)%Q).
  { unfold Qdiv. apply Qmult_le_compat_r.
    - rewrite <- Zle_Qle. exact Hc.
    - apply Qlt_le_weak, Qinv_lt_0_compat, Hn'. }
  lra.
Qed.

(** X3. In the fixed cut-off mode the index never grows when the cut-off is
    raised: a pixel above the higher cut-off is above the lower one. *)
Theorem cutoff_index_antitone (img_data : list Z) (mask : list bool)
    (t1 t2 : Q) :
  (t1 <= t2)%Q ->
  (innervation_index CutOff (Some (Finite t2)) img_data mask
   <= innervation_index CutOff (Some (Finite t1)) img_data mask)%Q.
Proof.
  intro Ht. unfold innervation_index. cbv zeta.
  set (valid := valid_pixels_of (select_mask img_data mask)).
  destruct (Z.of_nat (List.length valid) =? 0) eqn:E; [apply Qle_refl|].
  apply Z.eqb_neq in E. cbn [measure_threshold].
  apply percent_mono; [|lia].
  apply count_if_mono. intros p Hp. cbn [pixel_gt] in *.
  apply Qltb_lt in Hp. apply Qltb_lt. lra.
Qed.

Lemma count_if_perm {A} (p : A -> bool) (l l' : list A) :
  Permutation l l' -> count_if p l = count_if p l'.
Proof.
  intro H. unfold count_if. f_equal.
  induction H as [| x l l' H IH | x y l | l l' l'' H1 IH1 H2 IH2].
  - reflexivity.
  - cbn [filter]. destruct (p x); cbn [List.length]; lia.
  - cbn [filter]. destruct (p x); destruct (p y); reflexivity.
  - lia.
Qed.

Lemma calculate_otsu_threshold_perm (l l' : list Z) :
  Permutation l l' ->
  calculate_otsu_threshold l = calculate_otsu_threshold l'.
Proof.
  intro H. unfold calculate_otsu_threshold. cbv zeta.
  rewrite (Permutation_length H).
  assert (Hh : histogram256 l = histogram256 l').
  { unfold histogram256. apply map_ext. intro i. now apply count_if_perm. }
  rewrite Hh. reflexivity.
Qed.

(** X4. The index depends only on which non-zero values the mask selects
    and how often, in both threshold modes: not on where in the region the
    pixels lie, and not on the selected zeros. *)
Theorem index_depends_on_nonzero_pixels (algo : AlgoMode)
    (ent_cutoff : option pyfloat) (img1 img2 : list Z) (mask1 mask2 : list bool) :
  Permutation (valid_pixels_of (select_mask img1 mask1))
              (valid_pixels_of (select_mask img2 mask2)) ->
  innervation_index algo ent_cutoff img1 mask1
  = innervation_index algo ent_cutoff img2 mask2.
Proof.
  intro H. unfold innervation_index. cbv zeta.
  set (v1 := valid_pixels_of (select_mask img1 mask1)) in *.
  set (v2 := valid_pixels_of (select_mask img2 mask2)) in *.
  clearbody v1 v2.
  rewrite (Permutation_length H).
  assert (Ht : measure_threshold algo ent_cutoff v1
               = measure_threshold algo ent_cutoff v2).
  { destruct algo; cbn [measure_threshold]; [reflexivity|].
    now rewrite (calculate_otsu_threshold_perm v1 v2 H). }
  rewrite Ht. rewrite (count_if_perm _ v1 v2 H). reflexivity.
Qed.

(** ** Calibration: percentiles and saturation *)

Lemma insert_sorted_length (v : Z) (l : list Z) :
  List.length (insert_sorted v l) = S (List.length l).
Proof.
  induction l as [|x t IH]; cbn [insert_sorted]; [reflexivity|].
  destruct (v <=? x); cbn [List.length]; [reflexivity|]. now rewrite IH.
Qed.

Lemma sort_length (l : list Z) : List.length (sort l) = List.length l.
Proof.
  unfold sort. induction l as [|x t IH]; cbn [fold_right]; [reflexivity|].
  rewrite insert_sorted_length. cbn [List.length]. now rewrite IH.
Qed.

Lemma sort_In (l : list Z) (x : Z) : In x (sort l) <-> In x l.
Proof.
  unfold sort. induction l as [|y t IH]; cbn [fold_right]; [reflexivity|].
  rewrite insert_sorted_In, IH. cbn [In]. intuition.
Qed.

Lemma percentile_between (arr : list Z) (q : Q) (m M : Z) :
  arr <> [] -> (0 <= q)%Q -> (q <= 100)%Q ->
  Forall (fun v => m <= v <= M) arr ->
  (inject_Z m <= percentile arr q)%Q /\ (percentile arr q <= inject_Z M)%Q.
Proof.
  intros Hne Hq0 Hq1 Hall. unfold percentile. cbv zeta.
  pose proof (sort_sorted arr) as Hs.
  assert (Hin : forall x, In x (sort arr) -> m <= x <= M).
  { intros x Hx. rewrite Forall_forall in Hall.
    exact (Hall x (proj1 (sort_In arr x) Hx)). }
  assert (Hn : 1 <= Z.of_nat (List.length (sort arr))).
  { rewrite sort_length. destruct arr; [congruence|]. cbn [List.length]. lia. }
  set (s := sort arr) in *. clearbody s.
  set (n := Z.of_nat (List.length s)) in *.
  assert (Hr0 : (0 <= q / 100)%Q).
  { apply Qle_shift_div_l; [reflexivity|]. lra. }
  assert (Hr1 : (q / 100 <= 1)%Q).
  { apply Qle_shift_div_r; [reflexivity|]. lra. }
  set (r := (q / 100)%Q) in *. clearbody r.
  assert (Hm : (0 <= inject_Z (n - 1))%Q).
  { change 0%Q with (inject_Z 0). rewrite <- Zle_Qle. lia. }
  assert (Hv0 : (0 <= r * inject_Z (n - 1))%Q)
    by (apply Qmult_le_0_compat; assumption).
  assert (Hv1 : (r * inject_Z (n - 1) <= inject_Z (n - 1))%Q).
  { rewrite <- (Qmult_1_l (inject_Z (n - 1))) at 2.
    apply Qmult_le_compat_r; assumption. }
  set (vi := (r * inject_Z (n - 1))%Q) in *. clearbody vi.
  pose proof (Qfloor_le vi) as F. pose proof (Qlt_floor vi) as G.
  pose proof (Qfloor_nonneg vi Hv0) as N.
  assert (L : Qfloor vi <= n - 1).
  { rewrite <- (Qfloor_Z (n - 1)). apply Qfloor_resp_le. exact Hv1. }
  set (lo := Qfloor vi) in *. clearbody lo.
  set (hi := Z.min (lo + 1) (n - 1)).
  assert (Hhi : lo <= hi <= n - 1) by (unfold hi; lia).
  clearbody hi.
  assert (Hab : nth (Z.to_nat lo) s 0 <= nth (Z.to_nat hi) s 0).
  { apply sorted_nth_le; [exact Hs | lia | unfold n in *; lia]. }
  assert (Ha : m <= nth (Z.to_nat lo) s 0 <= M).
  { apply Hin, nth_In. unfold n in *. lia. }
  assert (Hb : m <= nth (Z.to_nat hi) s 0 <= M).
  { apply Hin, nth_In. unfold n in *. lia. }
  set (a := nth (Z.to_nat lo) s 0) in *. clearbody a.
  set (b := nth (Z.to_nat hi) s 0) in *. clearbody b.
  rewrite inject_Z_minus.
  destruct (lerp_bounds (inject_Z a) (inject_Z b) (vi - inject_Z lo))
    as [P1 P2].
  - rewrite <- Zle_Qle. exact Hab.
  - qlra.
  - qlra.
  - destruct Ha as [Ha1 Ha2]. destruct Hb as [Hb1 Hb2].
    rewrite Zle_Qle in Ha1, Ha2, Hb1, Hb2.
    split; lra.
Qed.

(** X5. A percentile of a non-empty array lies between the smallest and
    the largest element: interpolating between two ranks never leaves the
    data range. *)
Theorem percentile_within_data (arr : list Z) (q : Q) (m M : Z) :
  arr <> [] -> (0 <= q <= 100)%Q ->
  Forall (fun v => m <= v <= M) arr ->
  (inject_Z m <= percentile arr q <= inject_Z M)%Q.
Proof.
  intros Hne [Hq0 Hq1] Hall.
  exact (percentile_between arr q m M Hne Hq0 Hq1 Hall).
Qed.

Lemma clip255_low (x : Q) : (x <= 0)%Q -> (clip255 x == 0)%Q.
Proof.
  intro H. unfold clip255.
  repeat match goal with
  | |- context [Qmin ?a ?b] =>
      pattern (Qmin a b); apply Qmin_case; cbv beta; intro
  | |- context [Qmax ?a ?b] =>
      pattern (Qmax a b); apply Qmax_case; cbv beta; intro
  end; lra.
Qed.

Lemma clip255_high (x : Q) : (255 <= x)%Q -> (clip255 x == 255)%Q.
Proof.
  intro H. unfold clip255.
  repeat match goal with
  | |- context [Qmin ?a ?b] =>
      pattern (Qmin a b); apply Qmin_case; cbv beta; intro
  | |- context [Qmax ?a ?b] =>
      pattern (Qmax a b); apply Qmax_case; cbv beta; intro
  end; lra.
Qed.

Lemma calibrate_value_low (p2 rv : Q) (v : Z) :
  (0 < rv)%Q -> (inject_Z v <= p2)%Q -> calibrate_value p2 rv v = 0.
Proof.
  intros Hrv Hv. rewrite calibrate_value_floor.
  assert (H : ((inject_Z v - p2) / rv * 255 <= 0)%Q).
  { assert (H1 : ((inject_Z v - p2) / rv <= 0 / rv)%Q).
    { unfold Qdiv. apply Qmult_le_compat_r; [lra|].
      apply Qlt_le_weak, Qinv_lt_0_compat, Hrv. }
    unfold Qdiv in H1 at 2. rewrite Qmult_0_l in H1.
    set (z := ((inject_Z v - p2) / rv)%Q) in *. clearbody z. lra. }
  rewrite (Qfloor_comp _ _ (clip255_low _ H)). reflexivity.
Qed.

Lemma calibrate_value_high (p2 rv : Q) (v : Z) :
  (0 < rv)%Q -> (p2 + rv <= inject_Z v)%Q -> calibrate_value p2 rv v = 255.
Proof.
  intros Hrv Hv. rewrite calibrate_value_floor.
  assert (H : (255 <= (inject_Z v - p2) / rv * 255)%Q).
  { assert (H1 : (1 <= (inject_Z v - p2) / rv)%Q).
    { apply Qle_shift_div_l; [exact Hrv|]. lra. }
    set (z := ((inject_Z v - p2) / rv)%Q) in *. clearbody z. lra. }
  rewrite (Qfloor_comp _ _ (clip255_high _ H)). reflexivity.
Qed.

(** X6. The calibration saturates at both ends: a source intensity at or
    below the 2nd percentile becomes 0, and, when the two percentiles
    differ, an intensity at or above the 98th percentile becomes 255. *)
Theorem calibration_saturates (arr : list Z) (v : Z) :
  let p2 := percentile arr 2 in
  let p98 := percentile arr 98 in
  let rv := range_val p2 p98 in
  ((inject_Z v <= p2)%Q -> calibrate_value p2 rv v = 0)
  /\ (~ (p98 == p2)%Q -> (p98 <= inject_Z v)%Q ->
      calibrate_value p2 rv v = 255).
Proof.
  intros p2 p98 rv.
  assert (Hle : (p2 <= p98)%Q) by apply percentile_2_le_98.
  assert (Hrv : (0 < rv)%Q) by (apply range_val_pos, Hle).
  split.
  - intro Hv. now apply calibrate_value_low.
  - intros Hne Hv. apply calibrate_value_high; [exact Hrv|].
    unfold rv, range_val.
    destruct (Qeq_bool (p98 - p2) 0) eqn:E.
    + apply Qeq_bool_iff in E. exfalso. apply Hne. lra.
    + lra.
Qed.

(** X7. An image whose pixels all have the same value loses it in the
    calibration: both percentiles equal that value, the range is replaced
    by 1, and every calibrated pixel is 0. *)
Theorem uniform_array_calibrates_to_zero (arr : list Z) (v : Z) :
  Forall (eq v) arr -> Forall (eq 0) (normalize_array arr).
Proof.
  intro Hall. destruct arr as [|x t] eqn:Earr; [constructor|].
  rewrite <- Earr in *.
  assert (Hne : arr <> []) by (rewrite Earr; discriminate).
  assert (Hb : Forall (fun u => v <= u <= v) arr).
  { eapply Forall_impl; [|exact Hall]. intros u Hu. cbv beta in Hu. lia. }
  assert (Hq2 : (0 <= 2)%Q /\ (2 <= 100)%Q) by (split; discriminate).
  assert (Hq98 : (0 <= 98)%Q /\ (98 <= 100)%Q) by (split; discriminate).
  destruct (percentile_between arr 2 v v Hne (proj1 Hq2) (proj2 Hq2) Hb)
    as [A1 A2].
  destruct (percentile_between arr 98 v v Hne (proj1 Hq98) (proj2 Hq98) Hb)
    as [B1 B2].
  unfold normalize_array. cbv zeta.
  set (p2 := percentile arr 2) in *. set (p98 := percentile arr 98) in *.
  clearbody p2 p98.
  apply Forall_forall. intros c Hc. apply in_map_iff in Hc.
  destruct Hc as (u & Hu & Hin). subst c.
  rewrite Forall_forall in Hall. rewrite <- (Hall u Hin).
  symmetry. apply calibrate_value_low.
  - apply range_val_pos. lra.
  - lra.
Qed.

Lemma percent_full (n : Z) :
  0 < n -> (100 * (inject_Z n / inject_Z n) == 100)%Q.
Proof.
  intro Hn.
  assert (Hq : ~ (inject_Z n == 0)%Q).
  { intro H. assert (Hlt : (0 < inject_Z n)%Q)
      by (change 0%Q with (inject_Z 0); rewrite <- Zlt_Qlt; exact Hn).
    lra. }
  now field.
Qed.

(** X8. The ends of the fixed cut-off scale.  With a cut-off below 1
    (negative numbers and [-inf] included) every non-zero pixel of the
    region counts and the index is 100 as soon as the region has one; with
    a cut-off at or above the largest pixel value, or [inf], or [nan], no
    pixel counts and the index is 0. *)
Theorem cutoff_index_extremes (img_data : list Z) (mask : list bool) :
  (forall t, (t < 1)%Q ->
     valid_pixels_of (select_mask img_data mask) <> [] ->
     (innervation_index CutOff (Some (Finite t)) img_data mask == 100)%Q)
  /\ (valid_pixels_of (select_mask img_data mask) <> [] ->
      (innervation_index CutOff (Some NegInf) img_data mask == 100)%Q)
  /\ (forall t M, Forall (fun p => p <= M) img_data -> (inject_Z M <= t)%Q ->
        (innervation_index CutOff (Some (Finite t)) img_data mask == 0)%Q)
  /\ (innervation_index CutOff (Some PosInf) img_data mask == 0)%Q
  /\ (innervation_index CutOff (Some NaN) img_data mask == 0)%Q.
Proof.
  unfold innervation_index. cbv zeta.
  assert (Hin : forall p, In p (valid_pixels_of (select_mask img_data mask)) ->
                          In p img_data /\ 0 < p).
  { intros p Hp. apply valid_pixels_incl in Hp. destruct Hp as [Hp H0].
    split; [now apply select_mask_incl in Hp | exact H0]. }
  set (valid := valid_pixels_of (select_mask img_data mask)) in *.
  clearbody valid.
  assert (Hlen : valid <> [] -> 0 < Z.of_nat (List.length valid)).
  { destruct valid; [congruence|]. intros _. cbn [List.length]. lia. }
  assert (Hzero : forall thresh,
    Forall (fun p => pixel_gt p thresh = false) valid ->
    ((if Z.of_nat (List.length valid) =? 0 then 0
      else 100 * (inject_Z (count_if (fun p => pixel_gt p thresh) valid)
                  / inject_Z (Z.of_nat (List.length valid)))) == 0)%Q).
  { intros thresh H. destruct (_ =? 0); [reflexivity|].
    rewrite (count_if_none _ _ H). unfold Qdiv. rewrite Qmult_0_l.
    rewrite Qmult_0_r. reflexivity. }
  assert (Hfull : forall thresh, valid <> [] ->
    Forall (fun p => pixel_gt p thresh = true) valid ->
    ((if Z.of_nat (List.length valid) =? 0 then 0
      else 100 * (inject_Z (count_if (fun p => pixel_gt p thresh) valid)
                  / inject_Z (Z.of_nat (List.length valid)))) == 100)%Q).
  { intros thresh Hne H. specialize (Hlen Hne).
    destruct (Z.eqb_spec (Z.of_nat (List.length valid)) 0); [lia|].
    rewrite (count_if_all _ _ H). now apply percent_full. }
  split; [|split; [|split; [|split]]].
  - intros t Ht Hne. cbn [measure_threshold]. apply Hfull; [exact Hne|].
    apply Forall_forall. intros p Hp. destruct (Hin p Hp) as [_ H0].
    cbn [pixel_gt]. apply Qltb_lt.
    assert (H1 : (1 <= inject_Z p)%Q)
      by (change 1%Q with (inject_Z 1); rewrite <- Zle_Qle; lia).
    lra.
  - intro Hne. cbn [measure_threshold]. apply Hfull; [exact Hne|].
    apply Forall_forall. intros p Hp. reflexivity.
  - intros t M HM Ht. cbn [measure_threshold]. apply Hzero.
    apply Forall_forall. intros p Hp. destruct (Hin p Hp) as [Hp' _].
    rewrite Forall_forall in HM. specialize (HM p Hp').
    cbn [pixel_gt]. apply Qltb_ge.
    rewrite Zle_Qle in HM. lra.
  - cbn [measure_threshold]. apply Hzero.
    apply Forall_forall. intros p Hp. reflexivity.
  - cbn [measure_threshold]. apply Hzero.
    apply Forall_forall. intros p Hp. reflexivity.
Qed.

(** ** Subsequences *)

Lemma subseq_app_r {A} (l1 l2 l3 : list A) :
  subseq l1 l2 -> subseq l1 (l2 ++ l3).
Proof.
  induction 1 as [l | x l1 l2 H IH | x l1 l2 H IH]; cbn [List.app].
  - constructor.
  - now apply subseq_skip.
  - now apply subseq_take.
Qed.

Lemma subseq_snoc {A} (l1 l2 : list A) (x : A) :
  subseq l1 l2 -> subseq (l1 ++ [x]) (l2 ++ [x]).
Proof.
  induction 1 as [l | y l1 l2 H IH | y l1 l2 H IH]; cbn [List.app].
  - induction l as [|y l IH]; cbn [List.app].
    + apply subseq_take. constructor.
    + now apply subseq_skip.
  - now apply subseq_skip.
  - now apply subseq_take.
Qed.

Lemma subseq_In {A} (l1 l2 : list A) (x : A) :
  subseq l1 l2 -> In x l1 -> In x l2.
Proof.
  induction 1 as [l | y l1 l2 H IH | y l1 l2 H IH]; cbn [In]; intuition.
Qed.

Lemma subseq_NoDup {A} (l1 l2 : list A) :
  subseq l1 l2 -> NoDup l2 -> NoDup l1.
Proof.
  induction 1 as [l | y l1 l2 H IH | y l1 l2 H IH]; intro Hnd.
  - constructor.
  - inversion Hnd; subst. auto.
  - inversion Hnd as [|? ? Hy Hl]; subst. constructor; [|auto].
    intro Hin. apply Hy. eapply subseq_In; eassumption.
Qed.

Lemma subseq_length {A} (l1 l2 : list A) :
  subseq l1 l2 -> (List.length l1 <= List.length l2)%nat.
Proof.
  induction 1 as [l | y l1 l2 H IH | y l1 l2 H IH]; cbn [List.length]; lia.
Qed.

Lemma firstn_succ {A} (l : list A) : forall n,
  firstn (S n) l
  = firstn n l ++ match nth_error l n with Some x => [x] | None => [] end.
Proof.
  induction l as [|y l IH]; intro n.
  - destruct n; reflexivity.
  - destruct n as [|n]; [reflexivity|].
    change (firstn (S (S n)) (y :: l)) with (y :: firstn (S n) l).
    rewrite IH. reflexivity.
Qed.

(** ** The size of the displayed image *)

Lemma py_int_le_self (x : Q) : (0 <= x)%Q -> (inject_Z (py_int x) <= x)%Q.
Proof. intro H. rewrite (py_int_floor x H). apply Qfloor_le. Qed.

Lemma py_int_nonneg (x : Q) : (0 <= x)%Q -> 0 <= py_int x.
Proof.
  intro H. rewrite (py_int_floor x H). now apply Qfloor_nonneg.
Qed.

Lemma fit_scale_spec (cw ch iw ih : Z) :
  0 < iw -> 0 < ih -> 0 < cw -> 0 < ch ->
  (0 < fit_scale cw ch iw ih)%Q
  /\ (inject_Z iw * fit_scale cw ch iw ih <= inject_Z cw)%Q
  /\ (inject_Z ih * fit_scale cw ch iw ih <= inject_Z ch)%Q.
Proof.
  intros Hiw Hih Hcw Hch.
  assert (Qiw : (0 < inject_Z iw)%Q)
    by (change 0%Q with (inject_Z 0); rewrite <- Zlt_Qlt; exact Hiw).
  assert (Qih : (0 < inject_Z ih)%Q)
    by (change 0%Q with (inject_Z 0); rewrite <- Zlt_Qlt; exact Hih).
  assert (Qcw : (0 < inject_Z cw)%Q)
    by (change 0%Q with (inject_Z 0); rewrite <- Zlt_Qlt; exact Hcw).
  assert (Qch : (0 < inject_Z ch)%Q)
    by (change 0%Q with (inject_Z 0); rewrite <- Zlt_Qlt; exact Hch).
  assert (Px : (0 < inject_Z cw / inject_Z iw)%Q)
    by (apply Qlt_shift_div_l; [exact Qiw | lra]).
  assert (Py : (0 < inject_Z ch / inject_Z ih)%Q)
    by (apply Qlt_shift_div_l; [exact Qih | lra]).
  assert (Ex : (inject_Z iw * (inject_Z cw / inject_Z iw) == inject_Z cw)%Q)
    by (apply Qmult_div_r; lra).
  assert (Ey : (inject_Z ih * (inject_Z ch / inject_Z ih) == inject_Z ch)%Q)
    by (apply Qmult_div_r; lra).
  unfold fit_scale.
  set (sx := (inject_Z cw / inject_Z iw)%Q) in *.
  set (sy := (inject_Z ch / inject_Z ih)%Q) in *.
  clearbody sx sy.
  pattern (Qmin sx sy); apply Qmin_case; cbv beta; intro Hmin.
  - split; [exact Px|]. split; [rewrite Ex; apply Qle_refl|].
    rewrite <- Ey. apply Qmult_le_l; assumption.
  - split; [exact Py|]. split; [|rewrite Ey; apply Qle_refl].
    rewrite <- Ex. apply Qmult_le_l; [assumption|]. lra.
Qed.

Lemma fitted_size_bounds (cw ch iw ih : Z) :
  0 < iw -> 0 < ih -> 0 < cw -> 0 < ch ->
  0 <= fst (fitted_size cw ch iw ih) <= cw
  /\ 0 <= snd (fitted_size cw ch iw ih) <= ch
  /\ (inject_Z (fst (fitted_size cw ch iw ih))
      <= inject_Z iw * fit_scale cw ch iw ih)%Q
  /\ (inject_Z (snd (fitted_size cw ch iw ih))
      <= inject_Z ih * fit_scale cw ch iw ih)%Q.
Proof.
  intros Hiw Hih Hcw Hch.
  destruct (fit_scale_spec cw ch iw ih Hiw Hih Hcw Hch) as (Hs & Hx & Hy).
  unfold fitted_size. cbn [fst snd].
  set (sc := fit_scale cw ch iw ih) in *. clearbody sc.
  assert (Qiw : (0 <= inject_Z iw)%Q)
    by (change 0%Q with (inject_Z 0); rewrite <- Zle_Qle; lia).
  assert (Qih : (0 <= inject_Z ih)%Q)
    by (change 0%Q with (inject_Z 0); rewrite <- Zle_Qle; lia).
  assert (Nx : (0 <= inject_Z iw * sc)%Q)
    by (apply Qmult_le_0_compat; [exact Qiw | lra]).
  assert (Ny : (0 <= inject_Z ih * sc)%Q)
    by (apply Qmult_le_0_compat; [exact Qih | lra]).
  pose proof (py_int_mono _ _ Hx) as Mx. rewrite py_int_inject_Z in Mx.
  pose proof (py_int_mono _ _ Hy) as My. rewrite py_int_inject_Z in My.
  pose proof (py_int_nonneg _ Nx). pose proof (py_int_nonneg _ Ny).
  split; [lia|]. split; [lia|].
  split; apply py_int_le_self; assumption.
Qed.

(** ** Rounding against whole bounds *)




(** ** The bounding box of the drawn points *)

Lemma fold_left_Qmin_le (l : list Q) : forall x,
  (fold_left Qmin l x <= x)%Q
  /\ forall y, In y l -> (fold_left Qmin l x <= y)%Q.
Proof.
  induction l as [|z t IH]; intro x; cbn [fold_left].
  - split; [apply Qle_refl | intros y []].
  - destruct (IH (Qmin x z)) as [H1 H2].
    assert (Hx : (Qmin x z <= x)%Q /\ (Qmin x z <= z)%Q).
    { pattern (Qmin x z); apply Qmin_case; cbv beta; intro; split; lra. }
    split; [lra|]. intros y [<- | Hy]; [lra | now apply H2].
Qed.

Lemma fold_left_Qmax_ge (l : list Q) : forall x,
  (x <= fold_left Qmax l x)%Q
  /\ forall y, In y l -> (y <= fold_left Qmax l x)%Q.
Proof.
  induction l as [|z t IH]; intro x; cbn [fold_left].
  - split; [apply Qle_refl | intros y []].
  - destruct (IH (Qmax x z)) as [H1 H2].
    assert (Hx : (x <= Qmax x z)%Q /\ (z <= Qmax x z)%Q).
    { pattern (Qmax x z); apply Qmax_case; cbv beta; intro; split; lra. }
    split; [lra|]. intros y [<- | Hy]; [lra | now apply H2].
Qed.

Lemma Qlist_min_le (l : list Q) (x : Q) : In x l -> (Qlist_min l <= x)%Q.
Proof.
  destruct l as [|z t]; [intros []|]. unfold Qlist_min.
  destruct (fold_left_Qmin_le t z) as [H1 H2].
  intros [<- | Hx]; [exact H1 | now apply H2].
Qed.

Lemma Qlist_max_ge (l : list Q) (x : Q) : In x l -> (x <= Qlist_max l)%Q.
Proof.
  destruct l as [|z t]; [intros []|]. unfold Qlist_max.
  destruct (fold_left_Qmax_ge t z) as [H1 H2].
  intros [<- | Hx]; [exact H1 | now apply H2].
Qed.

Lemma box_axis_spec (l : list Q) (x : Q) :
  In x l -> (0 <= x)%Q ->
  let lo := Z.max 0 (py_int (Qlist_min l)) in
  let hi := py_int (Qlist_max l) in
  0 <= lo /\ lo <= hi
  /\ (inject_Z lo <= x)%Q /\ (x < inject_Z hi + 1)%Q.
Proof.
  intros Hin Hx lo hi.
  pose proof (Qlist_min_le l x Hin) as Hmin.
  pose proof (Qlist_max_ge l x Hin) as Hmax.
  assert (Hmax0 : (0 <= Qlist_max l)%Q) by lra.
  pose proof (py_int_mono _ _ Hmin) as M1.
  pose proof (py_int_mono _ _ Hmax) as M2.
  pose proof (py_int_nonneg x Hx) as N.
  pose proof (py_int_le_self x Hx) as L.
  assert (Hhi : (Qlist_max l < inject_Z hi + 1)%Q).
  { unfold hi. rewrite (py_int_floor _ Hmax0).
    pose proof (Qlt_floor (Qlist_max l)) as G.
    rewrite inject_Z_plus in G. exact G. }
  assert (Hlo : (inject_Z lo <= x)%Q).
  { unfold lo. destruct (Z.max_spec 0 (py_int (Qlist_min l))) as [[_ ->] | [_ ->]].
    - eapply Qle_trans; [|exact L]. rewrite <- Zle_Qle. exact M1.
    - exact Hx. }
  split; [unfold lo; lia|]. split; [unfold lo, hi; lia|].
  split; [exact Hlo|]. lra.
Qed.

(** X9. When one of the drawn points lies at non-negative image
    coordinates, the bounding box [calculate_only] computes is well formed:
    its lower ends are not negative and not above its upper ends, so
    [Image.crop] accepts it and the ROI crop has the size of the box; and
    the box holds every such point, up to the fraction that is cut off at
    the upper ends. *)
Theorem roi_box_covers_points (orig : image) (real_points : list (Q * Q))
    (min_x min_y max_x max_y : Z) :
  roi_bounding_box real_points = (min_x, min_y, max_x, max_y) ->
  (exists p, In p real_points /\ (0 <= fst p)%Q /\ (0 <= snd p)%Q) ->
  0 <= min_x <= max_x /\ 0 <= min_y <= max_y
  /\ (exists roi_crop,
        crop orig (inject_Z min_x, inject_Z min_y,
                   inject_Z max_x, inject_Z max_y) = Some roi_crop
        /\ width roi_crop = max_x - min_x
        /\ height roi_crop = max_y - min_y)
  /\ forall p, In p real_points -> (0 <= fst p)%Q -> (0 <= snd p)%Q ->
       (inject_Z min_x <= fst p)%Q /\ (fst p < inject_Z max_x + 1)%Q
       /\ (inject_Z min_y <= snd p)%Q /\ (snd p < inject_Z max_y + 1)%Q.
Proof.
  intros Hbox (p0 & Hp0 & Hx0 & Hy0).
  unfold roi_bounding_box in Hbox. cbv zeta in Hbox.
  injection Hbox as E1 E2 E3 E4.
  assert (Hxs : forall p, In p real_points -> In (fst p) (map fst real_points))
    by (intros p Hp; now apply in_map).
  assert (Hys : forall p, In p real_points -> In (snd p) (map snd real_points))
    by (intros p Hp; now apply in_map).
  destruct (box_axis_spec _ _ (Hxs p0 Hp0) Hx0) as (Ax1 & Ax2 & _).
  destruct (box_axis_spec _ _ (Hys p0 Hp0) Hy0) as (Ay1 & Ay2 & _).
  rewrite E1 in Ax1, Ax2. rewrite E3 in Ax2.
  rewrite E2 in Ay1, Ay2. rewrite E4 in Ay2.
  split; [lia|]. split; [lia|]. split.
  - unfold crop.
    assert (Fx : Qltb (inject_Z max_x) (inject_Z min_x) = false)
      by (apply Qltb_ge; rewrite <- Zle_Qle; exact Ax2).
    assert (Fy : Qltb (inject_Z max_y) (inject_Z min_y) = false)
      by (apply Qltb_ge; rewrite <- Zle_Qle; exact Ay2).
    rewrite Fx, Fy. cbn [orb]. eexists. split; [reflexivity|].
    cbn [width height]. rewrite !py_round_inject_Z. split; reflexivity.
  - intros p Hp Hx Hy.
    destruct (box_axis_spec _ _ (Hxs p Hp) Hx) as (_ & _ & Bx1 & Bx2).
    destruct (box_axis_spec _ _ (Hys p Hp) Hy) as (_ & _ & By1 & By2).
    rewrite E1 in Bx1. rewrite E3 in Bx2. rewrite E2 in By1. rewrite E4 in By2.
    auto.
Qed.

(** ** File names: the extension test and the order of the queue *)

Lemma string_length_append (s t : string) :
  String.length (String.append s t) = (String.length s + String.length t)%nat.
Proof.
  induction s as [|c s IH]; cbn [String.append String.length]; [reflexivity|].
  now rewrite IH.
Qed.

Lemma lower_append (s t : string) :
  lower (String.append s t) = String.append (lower s) (lower t).
Proof.
  induction s as [|c s IH]; cbn [String.append lower]; [reflexivity|].
  now rewrite IH.
Qed.

Lemma lower_length (s : string) : String.length (lower s) = String.length s.
Proof.
  induction s as [|c s IH]; cbn [lower String.length]; [reflexivity|].
  now rewrite IH.
Qed.

Lemma lower_ascii_idem (c : ascii) : lower_ascii (lower_ascii c) = lower_ascii c.
Proof. destruct c as [[] [] [] [] [] [] [] []]; reflexivity. Qed.

Lemma lower_idem (s : string) : lower (lower s) = lower s.
Proof.
  induction s as [|c s IH]; cbn [lower]; [reflexivity|].
  now rewrite lower_ascii_idem, IH.
Qed.

Lemma substring_skip (s t : string) (n m : nat) :
  substring (String.length s + n) m (String.append s t) = substring n m t.
Proof.
  induction s as [|c s IH]; cbn [String.append String.length Nat.add];
    [reflexivity|].
  cbn [substring]. exact IH.
Qed.

Lemma substring_all (t : string) : substring 0 (String.length t) t = t.
Proof.
  induction t as [|c t IH]; cbn [String.length substring]; [reflexivity|].
  now rewrite IH.
Qed.

Lemma endswith_append (s t suffix : string) :
  (String.length suffix <= String.length t)%nat ->
  endswith (String.append s t) suffix = endswith t suffix.
Proof.
  intro Hk. unfold endswith. cbv zeta. rewrite string_length_append.
  replace (String.length s + String.length t - String.length suffix)%nat
    with (String.length s + (String.length t - String.length suffix))%nat
    by lia.
  rewrite substring_skip.
  apply Nat.leb_le in Hk. rewrite Hk.
  assert (Hk' : (String.length suffix
                 <=? String.length s + String.length t)%nat = true)
    by (apply Nat.leb_le; apply Nat.leb_le in Hk; lia).
  rewrite Hk'. reflexivity.
Qed.

Lemma endswith_self (t : string) : endswith t t = true.
Proof.
  unfold endswith. cbv zeta. rewrite Nat.leb_refl, Nat.sub_diag.
  rewrite substring_all. apply String.eqb_refl.
Qed.

Lemma endswith_short (s suffix : string) :
  (String.length s < String.length suffix)%nat -> endswith s suffix = false.
Proof.
  intro H. unfold endswith. cbv zeta.
  apply Nat.leb_gt in H. now rewrite H.
Qed.

Lemma image_extensions_length (e : string) :
  In e image_extensions ->
  (4 <= String.length e)%nat /\ (String.length e <= 5)%nat.
Proof.
  unfold image_extensions. cbn [In].
  intros [<- | [<- | [<- | [<- | []]]]]; cbn; lia.
Qed.

Lemma existsb_endswith_append (s t : string) (l : list string) :
  (forall x, In x l -> (String.length x <= String.length t)%nat) ->
  existsb (endswith (String.append s t)) l = existsb (endswith t) l.
Proof.
  induction l as [|x l IH]; intro H; cbn [existsb]; [reflexivity|].
  rewrite IH by (intros y Hy; apply H; now right).
  rewrite endswith_append by (apply H; now left). reflexivity.
Qed.

Lemma has_image_extension_append (stem e : string) :
  (5 <= String.length e)%nat ->
  has_image_extension (String.append stem e) = has_image_extension e.
Proof.
  intro He. unfold has_image_extension. rewrite lower_append.
  apply existsb_endswith_append. intros x Hx.
  rewrite lower_length. destruct (image_extensions_length x Hx). lia.
Qed.

(** X10. The extension test of [load_folder] looks at the end of the name
    only and ignores case: a name ending in one of .tif, .tiff, .png, .jpg
    in any mix of cases is accepted whatever precedes it; for an ending of
    five characters or more the stem does not matter; names shorter than
    four characters are rejected; and so is every name ending in .jpeg. *)
Theorem extension_test_reads_name_end :
  (forall stem e, In (lower e) image_extensions ->
     has_image_extension (String.append stem e) = true)
  /\ (forall stem e, (5 <= String.length e)%nat ->
        has_image_extension (String.append stem e) = has_image_extension e)
  /\ (forall f, (String.length f < 4)%nat -> has_image_extension f = false)
  /\ (forall f, has_image_extension (lower f) = has_image_extension f)
  /\ (forall stem, has_image_extension (String.append stem ".jpeg") = false).
Proof.
  split; [|split; [|split; [|split]]].
  - intros stem e He. unfold has_image_extension.
    apply existsb_exists. exists (lower e). split; [exact He|].
    rewrite lower_append, endswith_append by lia. apply endswith_self.
  - exact has_image_extension_append.
  - intros f Hf. unfold has_image_extension.
    apply not_true_is_false. intro H. apply existsb_exists in H.
    destruct H as (x & Hx & Hend).
    rewrite endswith_short in Hend; [discriminate|].
    rewrite lower_length. destruct (image_extensions_length x Hx). lia.
  - intro f. unfold has_image_extension. now rewrite lower_idem.
  - intro stem. rewrite has_image_extension_append by (cbn; lia).
    reflexivity.
Qed.

Lemma insert_name_perm (v : string) (l : list string) :
  Permutation (insert_name v l) (v :: l).
Proof.
  induction l as [|x t IH]; cbn [insert_name]; [reflexivity|].
  destruct (String.leb v x); [reflexivity|].
  rewrite IH. apply perm_swap.
Qed.

Lemma sort_names_perm (l : list string) : Permutation (sort_names l) l.
Proof.
  unfold sort_names. induction l as [|x t IH]; cbn [fold_right]; [reflexivity|].
  rewrite insert_name_perm. now constructor.
Qed.

Lemma insert_name_sorted (v : string) (l : list string) :
  Sorted (fun x y => String.leb x y = true) l ->
  Sorted (fun x y => String.leb x y = true) (insert_name v l).
Proof.
  induction 1 as [|x t Ht IH Hx]; cbn [insert_name].
  - repeat constructor.
  - destruct (String.leb v x) eqn:E.
    + constructor; [now constructor|]. now constructor.
    + assert (Hxv : String.leb x v = true).
      { destruct (String.leb_total x v) as [H|H]; [exact H|congruence]. }
      constructor; [exact IH|].
      destruct t as [|y t]; cbn [insert_name]; [now constructor|].
      destruct (String.leb v y); constructor; [exact Hxv|].
      now inversion Hx.
Qed.

Lemma sort_names_sorted (l : list string) :
  Sorted (fun x y => String.leb x y = true) (sort_names l).
Proof.
  unfold sort_names. induction l as [|x t IH]; cbn [fold_right].
  - constructor.
  - now apply insert_name_sorted.
Qed.

Section FurtherProperties.

Variable resize : image -> Z * Z -> image.
Variable GaussianBlur : Q -> image -> image.
Variable Contrast_enhance : Q -> image -> image.
Variable Brightness_enhance : Q -> image -> image.
Variable polygon_mask : Z -> Z -> list (Q * Q) -> list bool.
Variable Image_open : string -> option image.

Local Abbreviation filters :=
  (apply_filters_to_image GaussianBlur Contrast_enhance Brightness_enhance).
Local Abbreviation render a :=
  (state_of
     (render_view resize GaussianBlur Contrast_enhance Brightness_enhance a)).
Local Abbreviation reset a :=
  (state_of
     (reset_current_view resize GaussianBlur Contrast_enhance
        Brightness_enhance a)).
Local Abbreviation load :=
  (load_image_from_disk resize GaussianBlur Contrast_enhance
     Brightness_enhance Image_open).
Local Abbreviation zoom_out :=
  (zoom_out_step resize GaussianBlur Contrast_enhance Brightness_enhance).
Local Abbreviation zoom_in start end_ a :=
  (state_of
     (apply_zoom resize GaussianBlur Contrast_enhance Brightness_enhance
        start end_ a)).
Local Abbreviation draw_mode :=
  (activate_draw_mode resize GaussianBlur Contrast_enhance Brightness_enhance).
Local Abbreviation adjust :=
  (update_adjustments resize GaussianBlur Contrast_enhance Brightness_enhance).
Local Abbreviation release :=
  (on_release resize GaussianBlur Contrast_enhance Brightness_enhance).
Local Abbreviation calculate :=
  (calculate_only GaussianBlur Contrast_enhance Brightness_enhance
     polygon_mask).
Local Abbreviation save :=
  (save_and_next resize GaussianBlur Contrast_enhance Brightness_enhance
     Image_open).
Local Abbreviation discard :=
  (discard_and_next resize GaussianBlur Contrast_enhance Brightness_enhance
     Image_open).
Local Abbreviation toggle_overlay :=
  (toggle_red_overlay resize GaussianBlur Contrast_enhance Brightness_enhance).
Local Abbreviation select_algo :=
  (toggle_cutoff resize GaussianBlur Contrast_enhance Brightness_enhance).
Local Abbreviation handle :=
  (handle_event resize GaussianBlur Contrast_enhance Brightness_enhance
     polygon_mask Image_open).
Local Abbreviation run :=
  (run_events resize GaussianBlur Contrast_enhance Brightness_enhance
     polygon_mask Image_open).
Local Abbreviation open_folder :=
  (load_folder resize GaussianBlur Contrast_enhance Brightness_enhance
     Image_open).

(** ** What [render_view] changes and what it keeps *)

Lemma render_view_settings (a : app) : same_settings a (render a).
Proof.
  unfold render_view, canvas_geometry, image_size.
  destruct (view_crop_raw a) as [view|] eqn:E; [|now constructor].
  app_read.
  destruct (canvas_size a) as [cw ch] eqn:Ec.
  destruct (cw <? 10); app_read;
    destruct ((width view =? 0) || (height view =? 0)); app_read;
    try (constructor; app_read; auto; fail);
    (destruct ((fst _ <? 1) || (snd _ <? 1)); app_read;
     [constructor; app_read; auto|]);
    destruct (show_red_overlay a) eqn:Es; constructor; app_read; auto.
Qed.

Lemma render_view_clears (a : app) (view : image) :
  view_crop_raw a = Some view ->
  drawing_points (render a) = [] /\ overlay (render a) = [].
Proof.
  intro Hv. unfold render_view, canvas_geometry, image_size. rewrite Hv.
  app_read.
  destruct (canvas_size a) as [cw ch] eqn:Ec.
  destruct (cw <? 10); app_read;
    destruct ((width view =? 0) || (height view =? 0)); app_read;
    try (auto; fail);
    (destruct ((fst _ <? 1) || (snd _ <? 1)); app_read; [auto|]);
    destruct (show_red_overlay a); app_read; auto.
Qed.

(** The two ways [render_view] ends on a crop that is not empty: the fitted
    size is one [Image.resize] accepts and the image is shown centred, or it
    is not and the call raises with the scale already stored. *)
Lemma render_view_geometry (a : app) (view : image) :
  view_crop_raw a = Some view ->
  width view <> 0 -> height view <> 0 ->
  let cw := fst (canvas_geometry a) in
  let ch := snd (canvas_geometry a) in
  let shown := fitted_size cw ch (width view) (height view) in
  display_scale (render a) = fit_scale cw ch (width view) (height view)
  /\ ((1 <= fst shown /\ 1 <= snd shown
       /\ render_view resize GaussianBlur Contrast_enhance Brightness_enhance a
          = Returned (render a)
       /\ canvas_offset_x (render a) = (cw - fst shown) / 2
       /\ canvas_offset_y (render a) = (ch - snd shown) / 2)
      \/ ((fst shown < 1 \/ snd shown < 1)
          /\ render_view resize GaussianBlur Contrast_enhance
               Brightness_enhance a
             = Raised (render a)
          /\ canvas_offset_x (render a) = canvas_offset_x a
          /\ canvas_offset_y (render a) = canvas_offset_y a
          /\ final_display_image (render a) = final_display_image a)).
Proof.
  intros Hv Hw Hh. cbv zeta.
  unfold render_view, canvas_geometry, image_size, fitted_size, fit_scale.
  rewrite Hv. app_read.
  destruct (canvas_size a) as [cw ch].
  apply Z.eqb_neq in Hw, Hh. rewrite Hw, Hh. cbn [orb].
  destruct (cw <? 10); cbn [fst snd];
    match goal with
    | |- context [(?x <? 1) || (?y <? 1)] =>
        destruct (Z.ltb_spec x 1) as [Hx|Hx];
        [|destruct (Z.ltb_spec y 1) as [Hy|Hy]]
    end; cbn [orb]; app_read;
    try (split; [reflexivity|]; right; split; [lia|]; auto; fail);
    destruct (show_red_overlay a); app_read;
    (split; [reflexivity|]); left; auto.
Qed.

(** ** The callbacks that leave the file queue and the log alone *)

Lemma same_log_refl (a : app) : same_log a a.
Proof. unfold same_log. auto. Qed.

Lemma same_log_trans (a b c : app) :
  same_log a b -> same_log b c -> same_log a c.
Proof.
  unfold same_log. intros (F1 & I1 & R1) (F2 & I2 & R2).
  rewrite F2, I2, R2. auto.
Qed.

Lemma render_view_log (a : app) : same_log a (render a).
Proof.
  destruct (render_view_frame resize GaussianBlur Contrast_enhance
              Brightness_enhance a) as [F I _ _ _ _ _ R _ _].
  unfold same_log. auto.
Qed.

Lemma render_after_log (a s : app) : same_log a s -> same_log a (render s).
Proof. intro H. eapply same_log_trans; [exact H | apply render_view_log]. Qed.

Lemma reset_current_view_log (a : app) : same_log a (reset a).
Proof.
  destruct (reset_current_view_frame resize GaussianBlur Contrast_enhance
              Brightness_enhance a) as (R & I & F & _).
  unfold same_log. auto.
Qed.

Lemma update_adjustments_log (c b n : Q) (a : app) : same_log a (adjust c b n a).
Proof.
  unfold update_adjustments. apply render_after_log.
  unfold same_log. app_read. auto.
Qed.

Lemma activate_draw_mode_log (a : app) : same_log a (draw_mode a).
Proof.
  unfold activate_draw_mode. apply render_after_log.
  unfold same_log. app_read. auto.
Qed.

Lemma toggle_red_overlay_log (a : app) : same_log a (toggle_overlay a).
Proof.
  unfold toggle_red_overlay. apply render_after_log.
  unfold same_log. app_read. auto.
Qed.

Lemma toggle_cutoff_log (chosen : AlgoMode) (a : app) :
  same_log a (select_algo chosen a).
Proof.
  unfold toggle_cutoff. cbv zeta.
  assert (H : same_log a (set_algo_mode chosen a))
    by (unfold same_log; app_read; auto).
  destruct (show_red_overlay (set_algo_mode chosen a));
    [apply render_after_log|]; exact H.
Qed.

Lemma zoom_out_step_log (a : app) : same_log a (zoom_out a).
Proof.
  unfold zoom_out_step, image_size.
  destruct (view_crop_raw a) as [view|]; [|apply same_log_refl].
  destruct (original_raw_image a) as [orig|]; [|apply same_log_refl].
  cbv beta iota zeta.
  destruct ((width orig <=? width view) && (height orig <=? height view));
    [apply same_log_refl|].
  destruct (crop orig _) as [c|].
  - apply render_after_log. unfold same_log. app_read. auto.
  - unfold same_log. app_read. auto.
Qed.

Lemma apply_zoom_log (start end_ : Z * Z) (a : app) :
  same_log a (zoom_in start end_ a).
Proof.
  unfold apply_zoom, image_size.
  destruct (view_crop_raw a) as [view|]; [|apply same_log_refl].
  cbv beta iota zeta.
  destruct (Qltb _ 10 || Qltb _ 10); [unfold same_log; app_read; auto|].
  destruct (crop view _) as [c|].
  - match goal with
    | |- context [and_then (render_view ?r ?g ?c0 ?b ?s) ?k] =>
        assert (H : same_log a (render s))
          by (apply render_after_log; unfold same_log; app_read; auto);
        destruct (render_view r g c0 b s) as [a'|a']
    end; cbn [state_of] in H; unfold same_log in *; app_read; exact H.
  - unfold same_log. app_read. auto.
Qed.

Lemma add_segment_to_log (x y : Z) (a : app) : same_log a (add_segment_to x y a).
Proof.
  unfold add_segment_to.
  destruct (1 <? Z.of_nat (List.length (drawing_points a)));
    [|apply same_log_refl].
  destruct (last_point _) as [x0 y0].
  unfold same_log. app_read. auto.
Qed.

Lemma on_click_log (x y : Z) (a : app) : same_log a (on_click x y a).
Proof.
  unfold on_click.
  destruct (mode a); [apply same_log_refl | | unfold same_log; app_read; auto].
  cbv zeta.
  match goal with
  | |- same_log a (set_btn_calc true ?s) =>
      assert (H : same_log a s)
  end.
  { destruct (CropMode_eqb _ Polygon).
    - eapply same_log_trans; [|apply add_segment_to_log].
      unfold same_log. app_read. auto.
    - unfold same_log. app_read. auto. }
  unfold same_log in *. app_read. exact H.
Qed.

Lemma finish_polygon_log (a : app) : same_log a (finish_polygon a).
Proof.
  unfold finish_polygon.
  destruct (negb (Mode_eqb (mode a) DRAW)
            || (Z.of_nat (List.length (drawing_points a)) <? 3));
    [apply same_log_refl|].
  destruct (last_point (drawing_points a)) as [x0 y0].
  destruct (hd (0, 0) (drawing_points a)) as [x1 y1].
  unfold same_log. app_read. auto.
Qed.

Lemma on_drag_log (x y : Z) (a : app) : same_log a (on_drag x y a).
Proof.
  unfold on_drag.
  assert (H : same_log a
    (if Mode_eqb (mode a) DRAW && CropMode_eqb (crop_mode a) Freehand
     then add_segment_to x y
            (set_drawing_points (drawing_points a ++ [(x, y)]) a)
     else a)).
  { destruct (Mode_eqb (mode a) DRAW && CropMode_eqb (crop_mode a) Freehand);
      [|apply same_log_refl].
    eapply same_log_trans; [|apply add_segment_to_log].
    unfold same_log. app_read. auto. }
  destruct (mode a); try exact H.
  destruct (zoom_start a); [apply same_log_refl | exact H].
Qed.

Lemma on_release_log (x y : Z) (a : app) : same_log a (release x y a).
Proof.
  unfold on_release.
  assert (H : same_log a
    (if Mode_eqb (mode a) DRAW && CropMode_eqb (crop_mode a) Freehand
     then finish_polygon a else a)).
  { destruct (Mode_eqb (mode a) DRAW && CropMode_eqb (crop_mode a) Freehand);
      [apply finish_polygon_log | apply same_log_refl]. }
  destruct (mode a); try exact H.
  destruct (zoom_start a) as [start|]; [|exact H].
  cbv zeta.
  pose proof (apply_zoom_log start (x, y) a) as Hz.
  destruct (apply_zoom _ _ _ _ start (x, y) a) as [a'|a'];
    cbn [state_of] in Hz; unfold same_log in *; app_read; exact Hz.
Qed.

Lemma calculate_only_log (a : app) : same_log a (calculate a).
Proof.
  unfold calculate_only.
  destruct (drawing_points a) as [|p ps]; [unfold same_log; app_read; auto|].
  destruct (roi_bounding_box (real_points_of a)) as [[[min_x min_y] max_x] max_y].
  destruct (original_raw_image a) as [orig|]; [|apply same_log_refl].
  destruct (crop orig _) as [roi_crop|]; [|apply same_log_refl].
  destruct (Z.of_nat (List.length _) <? 2); [apply same_log_refl|].
  unfold same_log. app_read. auto.
Qed.

Lemma load_image_from_disk_log (a : app) : same_log a (load a).
Proof.
  destruct (load_image_from_disk_frame resize GaussianBlur Contrast_enhance
              Brightness_enhance Image_open a) as (R & I & F).
  unfold same_log. auto.
Qed.

(** ** The log over a run of events *)

(** One event either leaves queue, cursor and log alone, or moves the
    cursor one file on, with at most one new row: the file under the cursor
    with the value computed for it. *)
Lemma handle_event_log_step (a : app) (e : ui_event) :
  same_log a (handle a e)
  \/ (files (handle a e) = files a
      /\ current_index (handle a e) = current_index a + 1
      /\ (results_rows (handle a e) = results_rows a
          \/ exists f v,
               nth_error (files a) (Z.to_nat (current_index a)) = Some f
               /\ current_calculated_value a = Some v
               /\ results_rows (handle a e) = results_rows a ++ [(f, v)])).
Proof.
  destruct e; cbn [handle_event];
    try (left;
         first [ apply on_click_log | apply on_drag_log | apply on_release_log
               | apply finish_polygon_log | apply activate_draw_mode_log
               | apply zoom_out_step_log | apply reset_current_view_log
               | apply update_adjustments_log | apply toggle_red_overlay_log
               | apply toggle_cutoff_log | apply calculate_only_log
               | solve [ unfold same_log; try unfold activate_zoom_mode;
                         app_read; auto ] ]).
  - unfold save_and_next.
    destruct (current_calculated_value a) as [v|] eqn:Ev;
      [|left; apply same_log_refl].
    destruct (nth_error (files a) (Z.to_nat (current_index a))) as [f|] eqn:Ef;
      [|left; apply same_log_refl].
    right. cbv zeta.
    match goal with
    | |- context [load ?s] =>
        destruct (load_image_from_disk_log s) as (F & I & R)
    end.
    rewrite F, I, R. app_read.
    split; [reflexivity|]. split; [reflexivity|].
    right. exists f, v. auto.
  - right. unfold discard_and_next. cbv zeta.
    match goal with
    | |- context [load ?s] =>
        destruct (load_image_from_disk_log s) as (F & I & R)
    end.
    rewrite F, I, R. app_read. auto.
Qed.

Lemma handle_event_log_inv (files0 : list string) (rows0 : list (string * Q))
    (a : app) (e : ui_event) :
  log_inv files0 rows0 a -> log_inv files0 rows0 (handle a e).
Proof.
  intros (Hf & Hi & added & Hr & Hs).
  destruct (handle_event_log_step a e)
    as [(F & I & R) | (F & I & [R | (f & v & Ef & _ & R)])];
    unfold log_inv; rewrite F, I, R.
  - split; [exact Hf|]. split; [exact Hi|]. exists added. auto.
  - split; [exact Hf|]. split; [lia|]. exists added. split; [exact Hr|].
    rewrite Z2Nat.inj_add by lia. rewrite Nat.add_1_r.
    rewrite firstn_succ. now apply subseq_app_r.
  - split; [exact Hf|]. split; [lia|]. exists (added ++ [(f, v)]).
    split; [rewrite Hr; now rewrite app_assoc|].
    rewrite Z2Nat.inj_add by lia. rewrite Nat.add_1_r.
    rewrite firstn_succ. rewrite <- Hf, Ef.
    rewrite map_app. cbn [map fst]. apply subseq_snoc.
    rewrite Hf. exact Hs.
Qed.

Lemma run_events_log_inv (files0 : list string) (rows0 : list (string * Q))
    (events : list ui_event) : forall a,
  log_inv files0 rows0 a -> log_inv files0 rows0 (run events a).
Proof.
  unfold run_events.
  induction events as [|e events IH]; intros a H; [exact H|].
  cbn [fold_left]. apply IH. now apply handle_event_log_inv.
Qed.

Lemma run_events_index_mono (events : list ui_event) : forall a,
  current_index a <= current_index (run events a).
Proof.
  unfold run_events.
  induction events as [|e events IH]; intro a; [cbn [fold_left]; lia|].
  cbn [fold_left]. specialize (IH (handle a e)).
  destruct (handle_event_log_step a e) as [(_ & I & _) | (_ & I & _)]; lia.
Qed.

(** X11. Within one folder, whatever the user does (clicks, drags, zooming,
    adjustments, Calculate, Save, Discard, in any order and number), the
    queue is never changed, the cursor never moves back, old rows of the log
    are never touched, and the file names of the rows added are a
    subsequence of the files the cursor has passed: rows come in queue
    order, at most one per queue position, so no more rows than files and
    no name twice when the folder listing has none twice. *)
Theorem log_follows_queue (events : list ui_event) (a0 : app) :
  0 <= current_index a0 ->
  files (run events a0) = files a0
  /\ current_index a0 <= current_index (run events a0)
  /\ exists added,
       results_rows (run events a0) = results_rows a0 ++ added
       /\ subseq (map fst added)
            (firstn (Z.to_nat (current_index (run events a0))) (files a0))
       /\ (List.length added <= List.length (files a0))%nat
       /\ (NoDup (files a0) -> NoDup (map fst added)).
Proof.
  intro H0.
  assert (Hinit : log_inv (files a0) (results_rows a0) a0).
  { unfold log_inv. split; [reflexivity|]. split; [exact H0|].
    exists []. split; [now rewrite app_nil_r | constructor]. }
  destruct (run_events_log_inv _ _ events a0 Hinit)
    as (Hf & Hi & added & Hr & Hs).
  split; [exact Hf|]. split; [apply run_events_index_mono|].
  exists added. split; [exact Hr|]. split; [exact Hs|].
  assert (Hq : subseq (map fst added) (files a0)).
  { rewrite <- (firstn_skipn (Z.to_nat (current_index (run events a0)))
                  (files a0)).
    now apply subseq_app_r. }
  split.
  - rewrite <- (length_map fst added). now apply subseq_length.
  - intro Hnd. eapply subseq_NoDup; eassumption.
Qed.

(** ** Re-rendering and the drawn region *)

Lemma render_then_calculate (s : app) (view : image) :
  view_crop_raw s = Some view ->
  drawing_points (render s) = []
  /\ btn_calc (render s) = btn_calc s
  /\ messages (calculate (render s))
     = messages s ++ [ShowWarning "Error" "Please draw an area first!"]
  /\ current_calculated_value (calculate (render s))
     = current_calculated_value s
  /\ results_rows (calculate (render s)) = results_rows s.
Proof.
  intro Hv.
  destruct (render_view_clears s view Hv) as (Hp & _).
  destruct (render_view_frame resize GaussianBlur Contrast_enhance
              Brightness_enhance s) as [_ _ _ _ _ _ Fv Fr Fm _].
  destruct (render_view_settings s) as [_ _ _ _ _ _ _ _ Fb _].
  split; [exact Hp|]. split; [exact Fb|].
  unfold calculate_only. rewrite Hp. app_read.
  rewrite Fv, Fr, Fm. auto.
Qed.

(** X12. Every change of an adjustment slider and every toggle of the
    threshold overlay re-renders the view and thereby discards the region
    drawn so far, while the Calculate button keeps its state: Calculate then
    only shows the warning, and the value computed before and the log
    stay.  This holds for both, whether or not the rendering raises. *)
Theorem rerender_discards_region (a : app) (view : image) (c b n : Q) :
  view_crop_raw a = Some view ->
  (drawing_points (adjust c b n a) = []
   /\ btn_calc (adjust c b n a) = btn_calc a
   /\ messages (calculate (adjust c b n a))
      = messages a ++ [ShowWarning "Error" "Please draw an area first!"]
   /\ current_calculated_value (calculate (adjust c b n a))
      = current_calculated_value a
   /\ results_rows (calculate (adjust c b n a)) = results_rows a)
  /\ (drawing_points (toggle_overlay a) = []
      /\ btn_calc (toggle_overlay a) = btn_calc a
      /\ messages (calculate (toggle_overlay a))
         = messages a ++ [ShowWarning "Error" "Please draw an area first!"]
      /\ current_calculated_value (calculate (toggle_overlay a))
         = current_calculated_value a
      /\ results_rows (calculate (toggle_overlay a)) = results_rows a).
Proof.
  intro Hv. split.
  - unfold update_adjustments. cbv zeta.
    match goal with
    | |- context [render ?s] =>
        assert (Hs : view_crop_raw s = Some view) by (app_read; exact Hv);
        destruct (render_then_calculate s view Hs) as (H1 & H2 & H3 & H4 & H5)
    end.
    rewrite H1, H2, H3, H4, H5. app_read. auto.
  - unfold toggle_red_overlay.
    match goal with
    | |- context [render ?s] =>
        assert (Hs : view_crop_raw s = Some view) by (app_read; exact Hv);
        destruct (render_then_calculate s view Hs) as (H1 & H2 & H3 & H4 & H5)
    end.
    rewrite H1, H2, H3, H4, H5. app_read. auto.
Qed.

(** ** Drawing a region *)

Lemma on_click_draw (x y : Z) (a : app) :
  mode a = DRAW ->
  drawing_points (on_click x y a) = drawing_points a ++ [(x, y)]
  /\ mode (on_click x y a) = DRAW
  /\ btn_calc (on_click x y a) = true
  /\ same_geometry a (on_click x y a).
Proof.
  intro Hm. unfold on_click. rewrite Hm. cbv zeta. unfold add_segment_to.
  destruct (CropMode_eqb _ Polygon); app_read;
    [destruct (1 <? _); app_read; [destruct (last_point _) as [x0 y0]|]|];
    app_read; (split; [reflexivity|]); (split; [exact Hm|]);
    (split; [reflexivity|]); constructor; app_read; reflexivity.
Qed.

Lemma click_all_draw (points : list (Z * Z)) : forall a,
  mode a = DRAW ->
  drawing_points (click_all points a) = drawing_points a ++ points
  /\ mode (click_all points a) = DRAW
  /\ (btn_calc a = true \/ points <> [] -> btn_calc (click_all points a) = true)
  /\ same_geometry a (click_all points a).
Proof.
  unfold click_all.
  induction points as [|[x y] points IH]; intros a Hm.
  - cbn [fold_left]. rewrite app_nil_r. split; [reflexivity|].
    split; [exact Hm|]. split; [intros [H|H]; [exact H|congruence]|].
    now constructor.
  - cbn [fold_left fst snd].
    destruct (on_click_draw x y a Hm) as (Hp & Hm' & Hb & Hg).
    destruct (IH _ Hm') as (IHp & IHm & IHb & IHg).
    rewrite IHp, Hp, <- app_assoc. split; [reflexivity|].
    split; [exact IHm|]. split; [intros _; apply IHb; now left|].
    destruct Hg, IHg. constructor; congruence.
Qed.

Lemma click_all_view (points : list (Z * Z)) (a : app) :
  mode a = VIEW -> click_all points a = a.
Proof.
  intro Hm. unfold click_all.
  induction points as [|[x y] points IH]; [reflexivity|].
  cbn [fold_left fst snd]. unfold on_click at 2. rewrite Hm. exact IH.
Qed.

Lemma activate_draw_mode_spec (a : app) :
  drawing_points (draw_mode a) = [] /\ mode (draw_mode a) = DRAW.
Proof.
  unfold activate_draw_mode. cbv zeta.
  match goal with
  | |- context [render ?s] =>
      destruct (render_view_frame resize GaussianBlur Contrast_enhance
                  Brightness_enhance s) as [_ _ _ _ _ Fm _ _ _ _]
  end.
  rewrite Fm. app_read. split; [|reflexivity].
  destruct (view_crop_raw (set_drawing_points [] (set_mode DRAW a)))
    as [view|] eqn:Ev.
  - exact (proj1 (render_view_clears _ view Ev)).
  - unfold render_view. rewrite Ev. app_read. reflexivity.
Qed.

(** X13. Clicks made after Start Drawing are recorded in order; the closing
    gesture needs three points and then adds the closing line and the
    polygon without changing the points; with fewer it does nothing; and
    clicks outside the drawing and zoom modes are ignored. *)
Theorem drawing_records_clicks (a : app) (points : list (Z * Z)) :
  let s := click_all points (draw_mode a) in
  drawing_points s = points
  /\ mode s = DRAW
  /\ (points <> [] -> btn_calc s = true)
  /\ (3 <= Z.of_nat (List.length points) ->
      drawing_points (finish_polygon s) = points
      /\ overlay (finish_polygon s)
         = overlay s
           ++ [Line (fst (last_point points)) (snd (last_point points))
                    (fst (hd (0, 0) points)) (snd (hd (0, 0) points));
               PolygonItem points])
  /\ (Z.of_nat (List.length points) < 3 -> finish_polygon s = s)
  /\ (forall v, mode v = VIEW -> click_all points v = v).
Proof.
  intro s.
  destruct (activate_draw_mode_spec a) as (Hp0 & Hm0).
  destruct (click_all_draw points (draw_mode a) Hm0) as (Hp & Hm & Hb & _).
  fold s in Hp, Hm, Hb. rewrite Hp0 in Hp. cbn [List.app] in Hp.
  clearbody s.
  split; [exact Hp|]. split; [exact Hm|].
  split; [intro Hne; apply Hb; now right|].
  split; [|split].
  - intro Hlen. unfold finish_polygon. rewrite Hm, Hp.
    apply Z.ltb_ge in Hlen. rewrite Hlen. cbn [Mode_eqb negb orb].
    destruct (last_point points) as [x0 y0].
    destruct (hd (0, 0) points) as [x1 y1].
    app_read. rewrite Hp. cbn [fst snd].
    split; [reflexivity|]. now rewrite <- app_assoc.
  - intro Hlen. unfold finish_polygon. rewrite Hp.
    apply Z.ltb_lt in Hlen. rewrite Hlen. now rewrite orb_true_r.
  - intros v Hv. now apply click_all_view.
Qed.

(** ** Where the image is shown and where a click lands *)

Lemma canvas_geometry_width (a : app) : 10 <= fst (canvas_geometry a).
Proof.
  unfold canvas_geometry. destruct (canvas_size a) as [cw ch].
  destruct (cw <? 10) eqn:E; cbn [fst]; [lia|]. now apply Z.ltb_ge in E.
Qed.


(** X15. A click on the displayed image maps to an image point inside the
    current crop: for points clicked after Start Drawing within the shown
    rectangle, the coordinates [calculate_only] derives lie between the crop
    origin and the crop origin plus the crop size. *)
Theorem clicks_on_image_map_into_crop (a : app) (view : image)
    (points : list (Z * Z)) :
  view_crop_raw a = Some view ->
  0 < width view -> 0 < height view ->
  0 < snd (canvas_geometry a) ->
  let s := click_all points (draw_mode a) in
  let shown :=
    fitted_size (fst (canvas_geometry a)) (snd (canvas_geometry a))
      (width view) (height view) in
  Forall (fun p =>
            canvas_offset_x s <= fst p <= canvas_offset_x s + fst shown
            /\ canvas_offset_y s <= snd p <= canvas_offset_y s + snd shown)
         points ->
  Forall (fun r =>
            (fst (view_offset a) <= fst r)%Q
            /\ (fst r <= fst (view_offset a) + inject_Z (width view))%Q
            /\ (snd (view_offset a) <= snd r)%Q
            /\ (snd r <= snd (view_offset a) + inject_Z (height view))%Q)
         (real_points_of s).
Proof.
  intros Hv Hw Hh Hch s shown Hin.
  set (cw := fst (canvas_geometry a)) in *.
  set (ch := snd (canvas_geometry a)) in *.
  pose proof (canvas_geometry_width a) as Hcw. fold cw in Hcw.
  assert (Hcw' : 0 < cw) by lia.
  destruct (fit_scale_spec cw ch (width view) (height view) Hw Hh Hcw' Hch)
    as (Hs & _).
  destruct (fitted_size_bounds cw ch (width view) (height view)
              Hw Hh Hcw' Hch) as (_ & _ & Bx & By).
  fold shown in Bx, By.
  destruct (activate_draw_mode_spec a) as (Hp0 & Hm0).
  destruct (click_all_draw points (draw_mode a) Hm0) as (Hp & _ & _ & Hg).
  fold s in Hp, Hg. rewrite Hp0 in Hp. cbn [List.app] in Hp.
  assert (Hd : display_scale (draw_mode a)
               = fit_scale cw ch (width view) (height view)
               /\ view_offset (draw_mode a) = view_offset a).
  { unfold activate_draw_mode. cbv zeta.
    match goal with
    | |- context [render ?s0] =>
        assert (Hv0 : view_crop_raw s0 = Some view) by (app_read; exact Hv);
        assert (Hg0 : canvas_geometry s0 = canvas_geometry a)
          by (unfold canvas_geometry; app_read; reflexivity);
        destruct (render_view_geometry s0 view Hv0) as (Es & _);
          [lia | lia |];
        destruct (render_view_frame resize GaussianBlur Contrast_enhance
                    Brightness_enhance s0) as [_ _ _ _ Fo _ _ _ _ _]
    end.
    rewrite Hg0 in Es. fold cw ch in Es. rewrite Es, Fo. app_read.
    split; reflexivity. }
  destruct Hd as (Hscale & Hoff).
  destruct Hg as [Gs Gx Gy Go _ _].
  rewrite Hscale in Gs. rewrite Hoff in Go.
  unfold real_points_of. rewrite Hp, Gs, Go.
  set (sc := fit_scale cw ch (width view) (height view)) in *.
  set (offx := canvas_offset_x s) in *. set (offy := canvas_offset_y s) in *.
  clearbody sc offx offy s shown.
  apply Forall_forall. intros r Hr. apply in_map_iff in Hr.
  destruct Hr as ([cx cy] & Er & Hc). subst r. cbn [fst snd].
  rewrite Forall_forall in Hin. specialize (Hin (cx, cy) Hc).
  cbn [fst snd] in Hin. destruct Hin as ((Hx1 & Hx2) & (Hy1 & Hy2)).
  assert (Ax : (0 <= inject_Z (cx - offx) / sc)%Q).
  { apply Qle_shift_div_l; [exact Hs|]. rewrite Qmult_0_l.
    change 0%Q with (inject_Z 0). rewrite <- Zle_Qle. lia. }
  assert (Ay : (0 <= inject_Z (cy - offy) / sc)%Q).
  { apply Qle_shift_div_l; [exact Hs|]. rewrite Qmult_0_l.
    change 0%Q with (inject_Z 0). rewrite <- Zle_Qle. lia. }
  assert (Bx' : (inject_Z (cx - offx) / sc <= inject_Z (width view))%Q).
  { apply Qle_shift_div_r; [exact Hs|].
    eapply Qle_trans; [|exact Bx]. rewrite <- Zle_Qle. lia. }
  assert (By' : (inject_Z (cy - offy) / sc <= inject_Z (height view))%Q).
  { apply Qle_shift_div_r; [exact Hs|].
    eapply Qle_trans; [|exact By]. rewrite <- Zle_Qle. lia. }
  set (vx := (inject_Z (cx - offx) / sc)%Q) in *.
  set (vy := (inject_Z (cy - offy) / sc)%Q) in *.
  clearbody vx vy.
  repeat split; lra.
Qed.

(** ** The zoom gesture *)



(** ** Reset View and loading an image *)

Lemma reset_current_view_unfold (a : app) (orig : image) :
  original_raw_image a = Some orig ->
  reset a
  = render (set_view_crop_raw (Some orig) (set_view_offset (0%Q, 0%Q) a)).
Proof.
  intro Ho. unfold reset_current_view. app_read. rewrite Ho. reflexivity.
Qed.

Lemma reset_current_view_state (a : app) (orig : image) :
  original_raw_image a = Some orig ->
  view_crop_raw (reset a) = Some orig
  /\ view_offset (reset a) = (0%Q, 0%Q)
  /\ original_raw_image (reset a) = Some orig
  /\ drawing_points (reset a) = []
  /\ mode (reset a) = mode a
  /\ current_calculated_value (reset a) = current_calculated_value a
  /\ messages (reset a) = messages a
  /\ same_settings a (reset a).
Proof.
  intro Ho. rewrite (reset_current_view_unfold a orig Ho).
  set (s := set_view_crop_raw (Some orig) (set_view_offset (0%Q, 0%Q) a)).
  assert (Hv : view_crop_raw s = Some orig) by (unfold s; app_read; reflexivity).
  destruct (render_view_frame resize GaussianBlur Contrast_enhance
              Brightness_enhance s) as [_ _ F1 F2 F3 F4 F5 _ F6 _].
  destruct (render_view_clears s orig Hv) as (Hc & _).
  destruct (render_view_settings s) as [S1 S2 S3 S4 S5 S6 S7 S8 S9 S10].
  assert (Hset : same_settings a (render s)).
  { constructor;
      [rewrite S1 | rewrite S2 | rewrite S3 | rewrite S4 | rewrite S5
      | rewrite S6 | rewrite S7 | rewrite S8 | rewrite S9 | rewrite S10];
      unfold s; app_read; reflexivity. }
  rewrite F1, F2, F3, F4, F5, F6, Hc.
  unfold s at 1 2 3 4 5 6. app_read.
  split; [reflexivity|]. split; [reflexivity|]. split; [exact Ho|].
  split; [reflexivity|]. split; [reflexivity|]. split; [reflexivity|].
  split; [reflexivity|]. exact Hset.
Qed.

(** X17. Reset View undoes any zoom history: after any sequence of zoom
    operations it shows the whole calibrated image again at origin (0, 0),
    with the drawn points discarded, and Zoom Out right after it changes
    nothing. *)
Theorem reset_view_restores_full_image (ops : list zoom_op) (a : app)
    (orig : image) :
  original_raw_image a = Some orig ->
  0 <= width orig -> 0 <= height orig ->
  let r :=
    reset (run_zoom_ops resize GaussianBlur Contrast_enhance
             Brightness_enhance ops (reset a)) in
  view_crop_raw r = Some orig
  /\ view_offset r = (0%Q, 0%Q)
  /\ drawing_points r = []
  /\ zoom_out r = r.
Proof.
  intros Ho Hw Hh r.
  pose proof (reset_current_view_inv resize GaussianBlur Contrast_enhance
                Brightness_enhance a orig Ho Hw Hh) as Hinv.
  pose proof (run_zoom_ops_inv resize GaussianBlur Contrast_enhance
                Brightness_enhance ops _ orig Hw Hh Hinv) as (Ho' & _).
  destruct (reset_current_view_state _ orig Ho')
    as (Hv & Hoff & Hor & Hdp & _).
  fold r in Hv, Hoff, Hor, Hdp. clearbody r.
  split; [exact Hv|]. split; [exact Hoff|]. split; [exact Hdp|].
  unfold zoom_out_step. rewrite Hv, Hor. unfold image_size.
  rewrite !Z.leb_refl. reflexivity.
Qed.



(** ** Choosing a folder *)

Lemma load_folder_files (c : ascii) (path : string) (listing : list string)
    (results_exist : bool) (a : app) :
  let r := open_folder (String c path) listing results_exist a in
  let queue := sort_names (filter has_image_extension listing) in
  files (snd r) = queue
  /\ results_rows (snd r) = results_rows a
  /\ (queue = [] -> r = (false, set_files [] a))
  /\ (queue <> [] ->
      fst r = negb results_exist /\ current_index (snd r) = 0).
Proof.
  cbv zeta. unfold load_folder. cbv zeta. app_read.
  destruct (sort_names (filter has_image_extension listing)) as [|f q] eqn:Eq.
  - cbn [fst snd]. app_read. split; [reflexivity|]. split; [reflexivity|].
    split; [reflexivity|]. congruence.
  - cbn [fst snd].
    match goal with
    | |- context [load ?s] =>
        destruct (load_image_from_disk_log s) as (F & I & R)
    end.
    rewrite F, I, R. app_read. split; [reflexivity|]. split; [reflexivity|].
    split; [discriminate|]. auto.
Qed.

(** X19. Load Folder: a cancelled dialog changes nothing.  Otherwise the
    queue becomes exactly the names of the listing that pass the extension
    test, each as often as listed, in ascending lexicographic order; rows
    already logged are never touched; the header is written exactly when
    the queue is not empty and the results file does not exist yet; with a
    non-empty queue the cursor is on its first file, and with an empty one
    the queue is emptied while the image shown before stays. *)
Theorem load_folder_builds_sorted_queue (path : string)
    (listing : list string) (results_exist : bool) (a : app) :
  let r := open_folder path listing results_exist a in
  (path = EmptyString -> r = (false, a))
  /\ (path <> EmptyString ->
      Sorted (fun x y => String.leb x y = true) (files (snd r))
      /\ Permutation (files (snd r)) (filter has_image_extension listing)
      /\ (forall f, In f (files (snd r))
                    <-> In f listing /\ has_image_extension f = true)
      /\ (NoDup listing -> NoDup (files (snd r)))
      /\ results_rows (snd r) = results_rows a
      /\ (fst r = true <-> files (snd r) <> [] /\ results_exist = false)
      /\ (files (snd r) <> [] -> current_index (snd r) = 0)
      /\ (files (snd r) = [] ->
          original_raw_image (snd r) = original_raw_image a
          /\ view_crop_raw (snd r) = view_crop_raw a
          /\ current_index (snd r) = current_index a)).
Proof.
  intro r. split.
  - intro Hp. unfold r. rewrite Hp. reflexivity.
  - intro Hp. destruct path as [|c path]; [congruence|].
    destruct (load_folder_files c path listing results_exist a)
      as (Hf & Hr & Hempty & Hfull).
    fold r in Hf, Hr, Hempty, Hfull. clearbody r.
    pose proof (sort_names_perm (filter has_image_extension listing)) as Hperm.
    pose proof (sort_names_sorted (filter has_image_extension listing)) as Hs.
    rewrite <- Hf in Hperm, Hs, Hempty, Hfull.
    split; [exact Hs|]. split; [exact Hperm|]. split; [|split].
    + intro f. rewrite <- filter_In. split; intro H.
      * eapply Permutation_in; [exact Hperm | exact H].
      * eapply Permutation_in; [symmetry; exact Hperm | exact H].
    + intro Hnd. eapply Permutation_NoDup; [symmetry; exact Hperm|].
      now apply NoDup_filter.
    + split; [exact Hr|]. split; [|split].
      * split.
        -- intro Ht. destruct (files (snd r)) as [|f q] eqn:Ef.
           ++ rewrite Hempty in Ht by reflexivity. discriminate.
           ++ split; [discriminate|].
              destruct Hfull as (Hh & _); [discriminate|].
              rewrite Hh in Ht. now destruct results_exist.
        -- intros (Hne & He). destruct (Hfull Hne) as (Hh & _).
           rewrite Hh, He. reflexivity.
      * intro Hne. apply Hfull, Hne.
      * intro He. rewrite (Hempty He). cbn [snd]. app_read.
        split; [reflexivity|]. split; reflexivity.
Qed.

(** ** Freehand strokes *)

Lemma on_drag_freehand (x y : Z) (a : app) :
  mode a = DRAW -> crop_mode a = Freehand ->
  drawing_points (on_drag x y a) = drawing_points a ++ [(x, y)]
  /\ mode (on_drag x y a) = DRAW
  /\ crop_mode (on_drag x y a) = Freehand.
Proof.
  intros Hm Hc. unfold on_drag. rewrite Hm, Hc.
  cbn [Mode_eqb CropMode_eqb andb]. unfold add_segment_to.
  destruct (1 <? _); app_read; [destruct (last_point _) as [x0 y0]|];
    app_read; auto.
Qed.

Lemma drag_all_freehand (points : list (Z * Z)) : forall a,
  mode a = DRAW -> crop_mode a = Freehand ->
  drawing_points (drag_all points a) = drawing_points a ++ points
  /\ mode (drag_all points a) = DRAW
  /\ crop_mode (drag_all points a) = Freehand.
Proof.
  unfold drag_all.
  induction points as [|[x y] points IH]; intros a Hm Hc.
  - cbn [fold_left]. rewrite app_nil_r. auto.
  - cbn [fold_left fst snd].
    destruct (on_drag_freehand x y a Hm Hc) as (Hp & Hm' & Hc').
    destruct (IH _ Hm' Hc') as (IHp & IHm & IHc).
    rewrite IHp, Hp, <- app_assoc. auto.
Qed.

Lemma drag_all_polygon (points : list (Z * Z)) (a : app) :
  mode a = DRAW -> crop_mode a = Polygon -> drag_all points a = a.
Proof.
  intros Hm Hc. unfold drag_all.
  induction points as [|[x y] points IH]; [reflexivity|].
  cbn [fold_left fst snd]. unfold on_drag at 2. rewrite Hm, Hc.
  cbn [Mode_eqb CropMode_eqb andb]. exact IH.
Qed.

(** X20. In Freehand mode one stroke records the press position and then
    every reported drag position, in order, and the release closes the
    region when it has at least three points, without changing them.  In
    Polygon mode dragging records nothing. *)
Theorem freehand_stroke_records_path (a : app) (x y x' y' : Z)
    (path : list (Z * Z)) :
  mode a = DRAW ->
  (crop_mode a = Freehand ->
   let s := drag_all path (on_click x y a) in
   drawing_points s = drawing_points a ++ (x, y) :: path
   /\ drawing_points (release x' y' s) = drawing_points s
   /\ (3 <= Z.of_nat (List.length (drawing_points s)) ->
       exists earlier,
         overlay (release x' y' s)
         = earlier ++ [PolygonItem (drawing_points s)]))
  /\ (crop_mode a = Polygon -> drag_all path a = a).
Proof.
  intro Hm. split; [|now apply drag_all_polygon].
  intros Hc s.
  destruct (on_click_draw x y a Hm) as (Hp1 & Hm1 & _ & _).
  assert (Hc1 : crop_mode (on_click x y a) = Freehand).
  { unfold on_click. rewrite Hm. cbv zeta. app_read. rewrite Hc.
    cbn [CropMode_eqb]. app_read. exact Hc. }
  destruct (drag_all_freehand path _ Hm1 Hc1) as (Hp & Hms & Hcs).
  fold s in Hp, Hms, Hcs. rewrite Hp1, <- app_assoc in Hp. cbn [List.app] in Hp.
  split; [exact Hp|].
  assert (Er : release x' y' s = finish_polygon s).
  { unfold on_release. rewrite Hms, Hcs. reflexivity. }
  rewrite Er. clearbody s. unfold finish_polygon. rewrite Hms.
  cbn [Mode_eqb negb orb].
  destruct (Z.of_nat (List.length (drawing_points s)) <? 3) eqn:E.
  - split; [reflexivity|]. intro H. apply Z.ltb_lt in E. lia.
  - destruct (last_point (drawing_points s)) as [x0 y0].
    destruct (hd (0, 0) (drawing_points s)) as [x1 y1].
    app_read. split; [reflexivity|]. intros _. eexists. reflexivity.
Qed.

(** ** Calculate *)

Lemma calculate_only_reads (a b : app) :
  drawing_points b = drawing_points a ->
  same_geometry a b ->
  adj_contrast b = adj_contrast a -> adj_brightness b = adj_brightness a ->
  adj_noise b = adj_noise a -> algo_mode b = algo_mode a ->
  ent_cutoff b = ent_cutoff a ->
  drawing_points a <> [] ->
  current_calculated_value (calculate b) = current_calculated_value (calculate a)
  \/ (current_calculated_value (calculate a) = current_calculated_value a
      /\ current_calculated_value (calculate b) = current_calculated_value b).
Proof.
  intros Hp [Gs Gx Gy Go _ Gr] Hc Hb Hn Ha He Hne.
  assert (Hrp : real_points_of b = real_points_of a).
  { unfold real_points_of. now rewrite Hp, Gs, Gx, Gy, Go. }
  unfold calculate_only. rewrite Hrp, Hp, Gr, Hc, Hb, Hn, Ha, He.
  destruct (drawing_points a) as [|p ps]; [congruence|].
  destruct (roi_bounding_box (real_points_of a)) as [[[min_x min_y] max_x] max_y].
  destruct (original_raw_image a) as [orig|]; [|right; auto].
  destruct (crop orig _) as [roi_crop|]; [|right; auto].
  destruct (Z.of_nat _ <? 2); [right; auto|].
  left. app_read. reflexivity.
Qed.

(** With a single point drawn [ImageDraw.polygon] refuses the point list:
    whichever statement of [calculate_only] raises first, nothing is
    stored. *)
Lemma calculate_only_one_point (a : app) :
  Z.of_nat (List.length (drawing_points a)) = 1 -> calculate a = a.
Proof.
  intro H1. unfold calculate_only.
  assert (Hlen : forall min_x min_y,
            (Z.of_nat (List.length
               (map (fun '(rx, ry) =>
                       ((rx - inject_Z min_x)%Q, (ry - inject_Z min_y)%Q))
                    (real_points_of a))) <? 2) = true).
  { intros. apply Z.ltb_lt. unfold real_points_of. rewrite !length_map. lia. }
  destruct (drawing_points a) as [|p ps]; [cbn [List.length] in H1; lia|].
  destruct (roi_bounding_box (real_points_of a)) as [[[min_x min_y] max_x] max_y].
  destruct (original_raw_image a) as [orig|]; [|reflexivity].
  destruct (crop orig _) as [roi_crop|]; [|reflexivity].
  cbv beta iota zeta. rewrite Hlen. reflexivity.
Qed.

(** X21. Calculate changes the computed value, the Save button and (only
    when nothing is drawn) the message list, nothing else: the view, the
    drawn points, the mode, the settings, the queue and the log stay.  With
    a region drawn it shows no message, and pressing it again gives the
    same value.  With a single point drawn it changes nothing at all: the
    polygon is refused and no value is stored. *)
Theorem calculate_only_touches_result_only (a : app) :
  same_log a (calculate a)
  /\ same_geometry a (calculate a)
  /\ drawing_points (calculate a) = drawing_points a
  /\ mode (calculate a) = mode a
  /\ adj_contrast (calculate a) = adj_contrast a
  /\ adj_brightness (calculate a) = adj_brightness a
  /\ adj_noise (calculate a) = adj_noise a
  /\ algo_mode (calculate a) = algo_mode a
  /\ ent_cutoff (calculate a) = ent_cutoff a
  /\ (drawing_points a <> [] ->
      messages (calculate a) = messages a
      /\ current_calculated_value (calculate (calculate a))
         = current_calculated_value (calculate a))
  /\ (Z.of_nat (List.length (drawing_points a)) = 1 -> calculate a = a).
Proof.
  assert (Hframe :
    same_geometry a (calculate a)
    /\ drawing_points (calculate a) = drawing_points a
    /\ mode (calculate a) = mode a
    /\ adj_contrast (calculate a) = adj_contrast a
    /\ adj_brightness (calculate a) = adj_brightness a
    /\ adj_noise (calculate a) = adj_noise a
    /\ algo_mode (calculate a) = algo_mode a
    /\ ent_cutoff (calculate a) = ent_cutoff a
    /\ (drawing_points a <> [] -> messages (calculate a) = messages a)).
  { unfold calculate_only.
    destruct (drawing_points a) as [|p ps] eqn:Ep.
    - app_read. split; [constructor; app_read; reflexivity|].
      rewrite Ep. split; [reflexivity|]. split; [reflexivity|].
      split; [reflexivity|]. split; [reflexivity|]. split; [reflexivity|].
      split; [reflexivity|]. split; [reflexivity|]. congruence.
    - destruct (roi_bounding_box (real_points_of a))
        as [[[min_x min_y] max_x] max_y].
      assert (Hsame : same_geometry a a /\ drawing_points a = p :: ps
                      /\ mode a = mode a
                      /\ adj_contrast a = adj_contrast a
                      /\ adj_brightness a = adj_brightness a
                      /\ adj_noise a = adj_noise a
                      /\ algo_mode a = algo_mode a
                      /\ ent_cutoff a = ent_cutoff a
                      /\ (p :: ps <> [] -> messages a = messages a)).
      { split; [now constructor|]. auto 10. }
      destruct (original_raw_image a) as [orig|]; [|exact Hsame].
      destruct (crop orig _) as [roi_crop|]; [|exact Hsame].
      destruct (Z.of_nat _ <? 2); [exact Hsame|].
      app_read. split; [constructor; app_read; reflexivity|].
      split; [exact Ep|]. split; [reflexivity|].
      split; [reflexivity|]. split; [reflexivity|]. split; [reflexivity|].
      split; [reflexivity|]. split; [reflexivity|]. reflexivity. }
  destruct Hframe as (Hg & Hp & Hm & Hc & Hb & Hn & Ha & He & Hmsg).
  split; [apply calculate_only_log|]. split; [exact Hg|].
  split; [exact Hp|]. split; [exact Hm|]. split; [exact Hc|].
  split; [exact Hb|]. split; [exact Hn|]. split; [exact Ha|].
  split; [exact He|].
  split; [|apply calculate_only_one_point].
  intro Hne. split; [now apply Hmsg|].
  destruct (calculate_only_reads a (calculate a) Hp Hg Hc Hb Hn Ha He Hne)
    as [H | [_ H]]; exact H.
Qed.

End FurtherProperties.

(** * Concrete instances of the further properties *)

Lemma otsu_single_value_region_witness :
  Forall (eq 7) [7; 7; 7]
  /\ calculate_otsu_threshold [7; 7; 7] = 0
  /\ Forall (fun p => p = 0 \/ p = 7) (select_mask [0; 7; 7] [true; true; true])
  /\ In 7 (select_mask [0; 7; 7] [true; true; true])
  /\ (innervation_index Otsu None [0; 7; 7]%Z [true; true; true] == 100)%Q.
Proof.
  assert (Hv : 0 <= 7 <= 255) by lia.
  assert (Hv1 : 1 <= 7 <= 255) by lia.
  assert (H1 : Forall (eq 7) [7; 7; 7]) by (repeat constructor).
  assert (H2 : Forall (fun p => p = 0 \/ p = 7)
                 (select_mask [0; 7; 7] [true; true; true]))
    by (vm_compute; repeat (apply Forall_cons; [auto|]); apply Forall_nil).
  assert (H3 : In 7 (select_mask [0; 7; 7] [true; true; true]))
    by (vm_compute; auto).
  split; [exact H1|].
  split; [exact (proj1 otsu_single_value_region 7 [7; 7; 7] Hv H1)|].
  split; [exact H2|]. split; [exact H3|].
  exact (proj2 otsu_single_value_region None [0; 7; 7] [true; true; true] 7
           Hv1 H2 H3).
Defined.

Lemma cutoff_index_antitone_witness :
  (10 <= 20)%Q
  /\ (innervation_index CutOff (Some (Finite 20)) [0; 15; 30]%Z
        [true; true; true]
      <= innervation_index CutOff (Some (Finite 10)) [0; 15; 30]%Z
           [true; true; true])%Q.
Proof.
  assert (H : (10 <= 20)%Q) by (vm_compute; discriminate).
  split; [exact H|].
  exact (cutoff_index_antitone [0; 15; 30] [true; true; true] 10 20 H).
Defined.

Lemma index_depends_on_nonzero_pixels_witness :
  Permutation (valid_pixels_of (select_mask [0; 5; 9] [true; true; true]))
              (valid_pixels_of (select_mask [9; 0; 5] [true; true; true]))
  /\ innervation_index Otsu None [0; 5; 9] [true; true; true]
     = innervation_index Otsu None [9; 0; 5] [true; true; true].
Proof.
  assert (H : Permutation
                (valid_pixels_of (select_mask [0; 5; 9] [true; true; true]))
                (valid_pixels_of (select_mask [9; 0; 5] [true; true; true])))
    by (vm_compute; apply perm_swap).
  split; [exact H|].
  exact (index_depends_on_nonzero_pixels Otsu None [0; 5; 9] [9; 0; 5]
           [true; true; true] [true; true; true] H).
Defined.

Lemma percentile_within_data_witness :
  ramp_sample <> []
  /\ (0 <= 2 <= 100)%Q
  /\ Forall (fun v => 0 <= v <= 3) ramp_sample
  /\ (inject_Z 0 <= percentile ramp_sample 2 <= inject_Z 3)%Q.
Proof.
  assert (Hne : ramp_sample <> []) by (unfold ramp_sample; discriminate).
  assert (Hq : (0 <= 2 <= 100)%Q) by (split; vm_compute; discriminate).
  assert (Hall : Forall (fun v => 0 <= v <= 3) ramp_sample)
    by (unfold ramp_sample; repeat constructor; lia).
  split; [exact Hne|]. split; [exact Hq|]. split; [exact Hall|].
  exact (percentile_within_data ramp_sample 2 0 3 Hne Hq Hall).
Defined.

Lemma calibration_saturates_witness :
  (inject_Z 0 <= percentile ramp_sample 2)%Q
  /\ calibrate_value (percentile ramp_sample 2)
       (range_val (percentile ramp_sample 2) (percentile ramp_sample 98)) 0
     = 0
  /\ ~ (percentile ramp_sample 98 == percentile ramp_sample 2)%Q
  /\ (percentile ramp_sample 98 <= inject_Z 3)%Q
  /\ calibrate_value (percentile ramp_sample 2)
       (range_val (percentile ramp_sample 2) (percentile ramp_sample 98)) 3
     = 255.
Proof.
  assert (H1 : (inject_Z 0 <= percentile ramp_sample 2)%Q)
    by (vm_compute; discriminate).
  assert (H2 : ~ (percentile ramp_sample 98 == percentile ramp_sample 2)%Q)
    by (vm_compute; discriminate).
  assert (H3 : (percentile ramp_sample 98 <= inject_Z 3)%Q)
    by (vm_compute; discriminate).
  split; [exact H1|].
  split; [exact (proj1 (calibration_saturates ramp_sample 0) H1)|].
  split; [exact H2|]. split; [exact H3|].
  exact (proj2 (calibration_saturates ramp_sample 3) H2 H3).
Defined.

Lemma uniform_array_calibrates_to_zero_witness :
  Forall (eq 5) [5; 5; 5] /\ Forall (eq 0) (normalize_array [5; 5; 5]).
Proof.
  assert (H : Forall (eq 5) [5; 5; 5]) by (repeat constructor).
  split; [exact H|].
  exact (uniform_array_calibrates_to_zero [5; 5; 5] 5 H).
Defined.

Lemma cutoff_index_extremes_witness :
  (0 < 1)%Q
  /\ valid_pixels_of (select_mask [3] [true]) <> []
  /\ (innervation_index CutOff (Some (Finite 0)) [3]%Z [true] == 100)%Q.
Proof.
  assert (Ht : (0 < 1)%Q) by reflexivity.
  assert (Hne : valid_pixels_of (select_mask [3] [true]) <> [])
    by (vm_compute; discriminate).
  split; [exact Ht|]. split; [exact Hne|].
  exact (proj1 (cutoff_index_extremes [3] [true]) 0%Q Ht Hne).
Defined.

Lemma roi_box_covers_points_witness :
  roi_bounding_box [((3 # 2)%Q, (5 # 2)%Q); (10%Q, 20%Q)] = (1, 2, 10, 20)
  /\ (exists p, In p [((3 # 2)%Q, (5 # 2)%Q); (10%Q, 20%Q)]
                /\ (0 <= fst p)%Q /\ (0 <= snd p)%Q)
  /\ 0 <= 1 <= 10.
Proof.
  assert (Hbox : roi_bounding_box [((3 # 2)%Q, (5 # 2)%Q); (10%Q, 20%Q)]
                 = (1, 2, 10, 20)) by (vm_compute; reflexivity).
  assert (Hex : exists p, In p [((3 # 2)%Q, (5 # 2)%Q); (10%Q, 20%Q)]
                          /\ (0 <= fst p)%Q /\ (0 <= snd p)%Q).
  { exists ((3 # 2)%Q, (5 # 2)%Q).
    split; [left; reflexivity|]. split; vm_compute; discriminate. }
  split; [exact Hbox|]. split; [exact Hex|].
  exact (proj1 (roi_box_covers_points (flat_image 40 60 100) _ 1 2 10 20
                  Hbox Hex)).
Defined.

Lemma extension_test_reads_name_end_witness :
  In (lower ".TIF") image_extensions
  /\ has_image_extension (String.append "scan" ".TIF") = true.
Proof.
  assert (H : In (lower ".TIF") image_extensions) by (left; reflexivity).
  split; [exact H|].
  exact (proj1 extension_test_reads_name_end "scan"%string ".TIF"%string H).
Defined.

Lemma log_follows_queue_witness :
  0 <= current_index measured_app
  /\ files (run_events sample_resize sample_filter sample_filter sample_filter
              sample_polygon_mask sample_disk [EvSaveAndNext; EvCalculate]
              measured_app)
     = files measured_app.
Proof.
  assert (H : 0 <= current_index measured_app) by (vm_compute; discriminate).
  split; [exact H|].
  exact (proj1 (log_follows_queue sample_resize sample_filter sample_filter
                  sample_filter sample_polygon_mask sample_disk
                  [EvSaveAndNext; EvCalculate] measured_app H)).
Defined.

Lemma rerender_discards_region_witness :
  view_crop_raw shown_app = Some (flat_image 20 15 7)
  /\ drawing_points
       (update_adjustments sample_resize sample_filter sample_filter
          sample_filter 2 1 0 shown_app) = [].
Proof.
  assert (H : view_crop_raw shown_app = Some (flat_image 20 15 7))
    by reflexivity.
  split; [exact H|].
  exact (proj1 (proj1 (rerender_discards_region sample_resize sample_filter
                         sample_filter sample_filter sample_polygon_mask
                         shown_app (flat_image 20 15 7) 2%Q 1%Q 0%Q H))).
Defined.

Lemma drawing_records_clicks_witness :
  [(1, 1); (2, 2); (3, 3)] <> []
  /\ btn_calc
       (click_all [(1, 1); (2, 2); (3, 3)]
          (activate_draw_mode sample_resize sample_filter sample_filter
             sample_filter shown_app)) = true.
Proof.
  assert (H : [(1, 1); (2, 2); (3, 3)] <> []) by discriminate.
  split; [exact H|].
  exact (proj1 (proj2 (proj2 (drawing_records_clicks sample_resize
                                sample_filter sample_filter sample_filter
                                shown_app [(1, 1); (2, 2); (3, 3)]))) H).
Defined.


Lemma clicks_on_image_map_into_crop_witness :
  view_crop_raw shown_app = Some (flat_image 20 15 7)
  /\ 0 < width (flat_image 20 15 7) /\ 0 < height (flat_image 20 15 7)
  /\ 0 < snd (canvas_geometry shown_app)
  /\ Forall (fun p =>
               canvas_offset_x
                 (click_all [(400, 300)]
                    (activate_draw_mode sample_resize sample_filter
                       sample_filter sample_filter shown_app))
               <= fst p
               <= canvas_offset_x
                    (click_all [(400, 300)]
                       (activate_draw_mode sample_resize sample_filter
                          sample_filter sample_filter shown_app))
                  + fst (fitted_size (fst (canvas_geometry shown_app))
                           (snd (canvas_geometry shown_app))
                           (width (flat_image 20 15 7))
                           (height (flat_image 20 15 7)))
               /\ canvas_offset_y
                    (click_all [(400, 300)]
                       (activate_draw_mode sample_resize sample_filter
                          sample_filter sample_filter shown_app))
                  <= snd p
                  <= canvas_offset_y
                       (click_all [(400, 300)]
                          (activate_draw_mode sample_resize sample_filter
                             sample_filter sample_filter shown_app))
                     + snd (fitted_size (fst (canvas_geometry shown_app))
                              (snd (canvas_geometry shown_app))
                              (width (flat_image 20 15 7))
                              (height (flat_image 20 15 7))))
            [(400, 300)]
  /\ Forall (fun r =>
               (fst (view_offset shown_app) <= fst r)%Q
               /\ (fst r <= fst (view_offset shown_app)
                            + inject_Z (width (flat_image 20 15 7)))%Q
               /\ (snd (view_offset shown_app) <= snd r)%Q
               /\ (snd r <= snd (view_offset shown_app)
                            + inject_Z (height (flat_image 20 15 7)))%Q)
            (real_points_of
               (click_all [(400, 300)]
                  (activate_draw_mode sample_resize sample_filter
                     sample_filter sample_filter shown_app))).
Proof.
  assert (Hv : view_crop_raw shown_app = Some (flat_image 20 15 7))
    by reflexivity.
  assert (Hw : 0 < width (flat_image 20 15 7)) by reflexivity.
  assert (Hh : 0 < height (flat_image 20 15 7)) by reflexivity.
  assert (Hc : 0 < snd (canvas_geometry shown_app)) by reflexivity.
  split; [exact Hv|]. split; [exact Hw|]. split; [exact Hh|].
  split; [exact Hc|].
  match goal with
  | |- ?P /\ _ => assert (Hin : P)
  end.
  { apply Forall_cons; [|apply Forall_nil].
    vm_compute. repeat split; discriminate. }
  split; [exact Hin|].
  exact (clicks_on_image_map_into_crop sample_resize sample_filter
           sample_filter sample_filter shown_app (flat_image 20 15 7)
           [(400, 300)] Hv Hw Hh Hc Hin).
Defined.


Lemma reset_view_restores_full_image_witness :
  original_raw_image (loaded_app (flat_image 200 150 100) (800, 600))
  = Some (flat_image 200 150 100)
  /\ 0 <= width (flat_image 200 150 100)
  /\ 0 <= height (flat_image 200 150 100)
  /\ view_crop_raw
       (state_of
          (reset_current_view sample_resize sample_filter sample_filter
             sample_filter
             (run_zoom_ops sample_resize sample_filter sample_filter
                sample_filter [ZoomIn (401, 0) (800, 600); ZoomOut]
                (state_of
                   (reset_current_view sample_resize sample_filter
                      sample_filter sample_filter
                      (loaded_app (flat_image 200 150 100) (800, 600)))))))
     = Some (flat_image 200 150 100).
Proof.
  assert (Ho : original_raw_image
                 (loaded_app (flat_image 200 150 100) (800, 600))
               = Some (flat_image 200 150 100)) by reflexivity.
  assert (Hw : 0 <= width (flat_image 200 150 100))
    by (vm_compute; discriminate).
  assert (Hh : 0 <= height (flat_image 200 150 100))
    by (vm_compute; discriminate).
  split; [exact Ho|]. split; [exact Hw|]. split; [exact Hh|].
  exact (proj1 (reset_view_restores_full_image sample_resize sample_filter
                  sample_filter sample_filter
                  [ZoomIn (401, 0) (800, 600); ZoomOut]
                  (loaded_app (flat_image 200 150 100) (800, 600))
                  (flat_image 200 150 100) Ho Hw Hh)).
Defined.


Lemma load_folder_builds_sorted_queue_witness :
  "scans"%string <> EmptyString
  /\ Sorted (fun x y => String.leb x y = true)
       (files
          (snd (load_folder sample_resize sample_filter sample_filter
                  sample_filter sample_disk "scans"
                  ["b.tif"; "notes.txt"; "a.PNG"]%string false
                  (loaded_app (flat_image 20 15 7) (800, 600))))).
Proof.
  assert (H : "scans"%string <> EmptyString) by discriminate.
  split; [exact H|].
  exact (proj1 (proj2 (load_folder_builds_sorted_queue sample_resize
                         sample_filter sample_filter sample_filter sample_disk
                         "scans" ["b.tif"; "notes.txt"; "a.PNG"]%string false
                         (loaded_app (flat_image 20 15 7) (800, 600))) H)).
Defined.

Lemma freehand_stroke_records_path_witness :
  mode (set_crop_mode Freehand drawing_app) = DRAW
  /\ crop_mode (set_crop_mode Freehand drawing_app) = Freehand
  /\ drawing_points
       (drag_all [(5, 5); (6, 7)]
          (on_click 1 1 (set_crop_mode Freehand drawing_app)))
     = drawing_points (set_crop_mode Freehand drawing_app)
       ++ (1, 1) :: [(5, 5); (6, 7)].
Proof.
  assert (Hm : mode (set_crop_mode Freehand drawing_app) = DRAW)
    by reflexivity.
  assert (Hc : crop_mode (set_crop_mode Freehand drawing_app) = Freehand)
    by reflexivity.
  split; [exact Hm|]. split; [exact Hc|].
  exact (proj1 (proj1 (freehand_stroke_records_path sample_resize
                         sample_filter sample_filter sample_filter
                         (set_crop_mode Freehand drawing_app) 1 1 9 9
                         [(5, 5); (6, 7)] Hm) Hc)).
Defined.

Lemma calculate_only_touches_result_only_witness :
  drawing_points clicked_app <> []
  /\ messages
       (calculate_only sample_filter sample_filter sample_filter
          sample_polygon_mask clicked_app)
     = messages clicked_app
  /\ current_calculated_value
       (calculate_only sample_filter sample_filter sample_filter
          sample_polygon_mask
          (calculate_only sample_filter sample_filter sample_filter
             sample_polygon_mask clicked_app))
     = current_calculated_value
         (calculate_only sample_filter sample_filter sample_filter
            sample_polygon_mask clicked_app).
Proof.
  assert (H : drawing_points clicked_app <> [])
    by (vm_compute; discriminate).
  split; [exact H|].
  exact (proj1
           (proj2 (proj2 (proj2 (proj2 (proj2 (proj2 (proj2 (proj2 (proj2
              (calculate_only_touches_result_only sample_filter sample_filter
                 sample_filter sample_polygon_mask clicked_app))))))))))
           H).
Defined.

(** ** Runs in which a library call refuses its argument *)

(** A 1 x 700 image on the 800 x 600 canvas: the fitted size is (0, 600),
    [Image.resize] refuses it, so Reset View raises with the points cleared
    and the scale stored, and nothing is displayed. *)
Example thin_image_is_not_displayed :
  fitted_size 800 600 1 700 = (0, 600)
  /\ match reset_current_view sample_resize sample_filter sample_filter
             sample_filter (loaded_app (flat_image 1 700 7) (800, 600)) with
     | Returned _ => False
     | Raised r =>
         final_display_image r = None
         /\ option_map image_size (view_crop_raw r) = Some (1, 700)
         /\ (display_scale r == 6 # 7)%Q
     end.
Proof. split; [vm_compute; reflexivity|]. vm_compute. auto. Qed.

(** Loading such a file with Calculate and Save enabled leaves both enabled:
    the two [config] calls after [reset_current_view] are not reached. *)
Example thin_image_load_keeps_buttons :
  let before :=
    set_btn_save true
      (set_btn_calc true (loaded_app (flat_image 20 15 7) (800, 600))) in
  let after :=
    load_image_from_disk sample_resize sample_filter sample_filter
      sample_filter (fun _ => Some (flat_image 1 700 7)) before in
  btn_calc after = true /\ btn_save after = true
  /\ mode after = VIEW /\ current_calculated_value after = None
  /\ final_display_image after = None.
Proof. vm_compute. auto 6. Qed.

(** On a 4000 x 8000 image shown at scale 3/40, a selection from (250, 0)
    to (251, 600) cuts a crop of 13 x 8000 whose fitted size is (0, 600):
    the rendering raises inside [apply_zoom], and the gesture ends in the
    zoom mode with its start point still set. *)
Example narrow_selection_keeps_zoom_mode :
  let shown :=
    state_of
      (reset_current_view sample_resize sample_filter sample_filter
         sample_filter (loaded_app (flat_image 4000 8000 7) (800, 600))) in
  let after :=
    on_release sample_resize sample_filter sample_filter sample_filter
      251 600 (on_click 250 0 (activate_zoom_mode shown)) in
  option_map image_size (view_crop_raw after) = Some (13, 8000)
  /\ fitted_size 800 600 13 8000 = (0, 600)
  /\ mode after = ZOOM_SELECT
  /\ zoom_start after = Some (250, 0).
Proof. vm_compute. auto. Qed.

(** One click after Start Drawing enables Calculate, but the polygon of one
    point is refused: no value is stored and Save stays disabled. *)
Example one_click_is_not_measured :
  let one_click :=
    click_all [(400, 300)]
      (activate_draw_mode sample_resize sample_filter sample_filter
         sample_filter shown_app) in
  let after :=
    calculate_only sample_filter sample_filter sample_filter
      sample_polygon_mask one_click in
  btn_calc one_click = true
  /\ current_calculated_value after = None
  /\ btn_save after = false
  /\ messages after = [].
Proof. vm_compute. auto. Qed.
